(** * mawejs: the nested manuscript editor

    A shallow embedding of the editor core of mawejs (the SlateJS based
    editor module and its Doc <-> Slate bridge) together with the
    properties its specification states about it.

    Layout of the development:
    - [Bridge]     : [section2edit], [updateSection], [checkClean] and the
                     comparison helpers, over JS objects that carry the
                     address they were allocated at (so that [===] on
                     objects is address equality);
    - [BridgeImage]: the editable image of a section, and the objects
                     of a section with their addresses;
    - [Slate]      : the document tree, paths and operations of Slate;
    - [Normalize]  : transforms at a path, the default [normalizeNode],
                     [withFixNesting], [withIDs] and the dirty-path loop
                     of [Editor.normalize];
    - [Editing]    : the keyboard handlers of [withProtectFolds] and
                     [withMarkup], and the fold keys;
    - [BridgeSpec], [EditorSpec], [EditingSpec] : the vocabulary of the
                     statements;
    - [BufferFormat]: the format of the documents the normalizer keeps;
    - sample documents;
    - the theorems: the bridge, Slate, normalization, the handlers, the
      format, the repairs of the normalizer, and commits.
*)

From Stdlib Require Import Ascii String.
From stdpp Require Import base option list gmap strings.

Set Warnings "-register-all".

(* ===================================================================== *)
(** * Doc <-> Slate bridge                                                *)
(* ===================================================================== *)

Module Bridge.

(** ** JS objects

    The bridge never mutates an object; it only allocates new ones and
    compares references.  An object is therefore modelled as an immutable
    value tagged with the address at which it was allocated: two object
    expressions are [===] exactly when their addresses agree.  Arrays are
    objects too and carry their own address. *)

Definition addr := nat.

(** Result of the word counter: [{text, comments, missing}]. *)
Record counts := Counts { wc_text : nat; wc_comments : nat; wc_missing : nat }.

(** A document / editor node.  A property that the object does not have
    (reads as [undefined]) is [None].  Persisted parts, scenes and
    paragraphs, editable elements and text leaves [{text}] all are values
    of this type. *)
Inductive node := Node {
  n_addr     : addr;
  n_type     : option string;
  n_id       : option string;
  n_name     : option string;
  n_folded   : option bool;
  n_words    : option counts;
  n_text     : option string;
  n_children : option (addr * list node);
}.

(** An array of nodes: its address and its elements. *)
Definition array := (addr * list node)%type.

(** A persisted section: [{parts, words, ...}].  Its remaining own
    properties are copied verbatim by [{...section}] and never read. *)
Record section := Section_ {
  s_addr  : addr;
  s_parts : option array;
  s_words : option counts;
}.

(** A JS reference that may be [null] or [undefined]. *)
Inductive nullable (A : Type) :=
| JNull
| JUndefined
| JObj (a : A).
Arguments JNull {A}.
Arguments JUndefined {A}.
Arguments JObj {A} a.

(** The [lookup] argument of [checkClean]: either the [Map] built by
    [section2lookup], or the plain object literal [{}]. *)
Inductive lookup :=
| LMap (m : gmap (option string) node)
| LPlain.

(** ** Allocation, external calls and exceptions *)

Inductive error := TypeError (msg : string).

Record state := State {
  next     : addr;   (* next free address *)
  wc_calls : nat;    (* number of calls of wcElem so far *)
  id_calls : nat;    (* number of calls of nanoid so far *)
}.

Definition M (A : Type) : Type := state -> error + (A * state).

#[export] Instance M_ret : MRet M := fun A a st => inr (a, st).
#[export] Instance M_bind : MBind M := fun A B f m st =>
  match m st with
  | inl e => inl e
  | inr (a, st') => f a st'
  end.

Definition throw {A} (msg : string) : M A := fun _ => inl (TypeError msg).

(** [new]: allocate a fresh object and return its address. *)
Definition alloc : M addr := fun st =>
  inr (next st, State (S (next st)) (wc_calls st) (id_calls st)).

(** [arr.map(f)]: calls [f] on every element in order and returns a new
    array. *)
Definition array_map (f : node -> M node) (a : array) : M array :=
  ys ← mapM f a.2;
  r ← alloc;
  mret (r, ys).

(** [const [head, ...rest] = arr]: [rest] is a new array. *)
Definition array_rest (a : array) : M array :=
  r ← alloc;
  mret (r, tail a.2).

(** Reading a property of a value that is [undefined]. *)
Definition defined {A} (what : string) (o : option A) : M A :=
  match o with
  | Some a => mret a
  | None => throw what
  end.

Section WithExternals.

(** The two collaborators imported from [../../util], as parameters:
    the word counter [wcElem], a pure function from a node to its counts,
    and the identifier generator [nanoid], whose [n]-th call returns
    [nanoid n]. *)
Variable wcElem : node -> counts.
Variable nanoid : nat -> string.

Definition call_wcElem (n : node) : M counts := fun st =>
  inr (wcElem n, State (next st) (S (wc_calls st)) (id_calls st)).

Definition call_nanoid : M string := fun st =>
  inr (nanoid (id_calls st), State (next st) (wc_calls st) (S (id_calls st))).

(** ** Doc --> Slate *)

(** [{text: s}] *)
Definition new_leaf (s : string) : M node :=
  a ← alloc;
  mret (Node a None None None None None (Some s) None).

(** [{type: ty, id: nanoid(), children: [{text: name ?? ""}]}] *)
Definition new_header (ty : string) (name : option string) : M node :=
  a ← alloc;
  i ← call_nanoid;
  c ← alloc;
  l ← new_leaf (default "" name);
  mret (Node a (Some ty) (Some i) None None None None (Some (c, [l]))).

Definition elem2edit (elem : node) : M node :=
  if decide (n_type elem = Some "br") then
    a ← alloc;
    mret (Node a (Some "p") (n_id elem) (n_name elem) (n_folded elem)
               (n_words elem) (n_text elem) (n_children elem))
  else mret elem.

Definition scene2edit (scene : node) : M node :=
  a ← alloc;
  c ← alloc;
  h ← new_header "hscene" (n_name scene);
  children ← defined "children is undefined" (n_children scene);
  es ← array_map elem2edit children;
  mret (Node a (Some "scene") (n_id scene) (n_name scene) (n_folded scene)
             None None (Some (c, h :: es.2))).

Definition part2edit (part : node) : M node :=
  a ← alloc;
  c ← alloc;
  h ← new_header "hpart" (n_name part);
  children ← defined "children is undefined" (n_children part);
  ss ← array_map scene2edit children;
  mret (Node a (Some "part") (n_id part) (n_name part) (n_folded part)
             None None (Some (c, h :: ss.2))).

Definition section2edit (s : section) : M array :=
  parts ← defined "section.parts is undefined" (s_parts s);
  array_map part2edit parts.

(** ** Slate --> Doc *)

(** The children of a node, none when it has no [children]. *)
Definition node_children (n : node) : list node :=
  match n_children n with Some (_, l) => l | None => [] end.

Definition scene_nodes (scene : node) : list node :=
  scene :: node_children scene.

Definition part_nodes (part : node) : list node :=
  part :: concat (map scene_nodes (node_children part)).

Definition section_nodes (s : section) : list node :=
  match s_parts s with
  | Some (_, ps) => concat (map part_nodes ps)
  | None => []
  end.

(** Modelled from the spec: [section2lookup] of [../../document/util],
    which is not part of this module: "build a lookup from previous
    persisted node id to node", over every part, scene and paragraph of
    the section, in document order (a later [set] of the same key
    replaces the earlier one). *)
Definition section2lookup (s : section) : gmap (option string) node :=
  foldl (fun m n => <[n_id n := n]> m) ∅ (section_nodes s).

(** [a === b] on node objects *)
Definition same_node (a b : node) : bool := bool_decide (n_addr a = n_addr b).

(** [cmpList(a, b)]; either argument may be [undefined], and two
    [undefined] are the same value. *)
Definition cmpList (a b : option array) : M bool :=
  match a, b with
  | None, None => mret true
  | Some a, Some b =>
    mret (if bool_decide (a.1 = b.1) then true
          else if negb (bool_decide (length a.2 = length b.2)) then false
          else forallb (fun '(index, elem) =>
                 match b.2 !! index with
                 | Some x => same_node elem x
                 | None => false
                 end) (imap pair a.2))
  | _, _ => throw "Cannot read properties of undefined (reading 'length')"
  end.

Definition cmpType (elem orig : node) : bool :=
  bool_decide (n_id elem = n_id orig) && bool_decide (n_type elem = n_type orig).

Definition cmpTypeName (elem orig : node) : bool :=
  cmpType elem orig && bool_decide (n_name elem = n_name orig).

Definition cmpChildren (elem orig : node) : M bool :=
  cmpList (n_children elem) (n_children orig).

Definition cmpNamedGroup (elem orig : node) : M bool :=
  if cmpTypeName elem orig && bool_decide (n_folded elem = n_folded orig)
  then cmpChildren elem orig
  else mret false.

(** [elem.children[0].text] *)
Definition first_text (n : node) : M (option string) :=
  c ← defined "children is undefined" (n_children n);
  f ← defined "children[0] is undefined" (head c.2);
  mret (n_text f).

(** [{...elem, words: wcElem(elem)}] *)
Definition rebuild (elem : node) : M node :=
  a ← alloc;
  w ← call_wcElem elem;
  mret (Node a (n_type elem) (n_id elem) (n_name elem) (n_folded elem)
             (Some w) (n_text elem) (n_children elem)).

Definition checkClean (elem : node) (lk : lookup) : M node :=
  match lk with
  | LPlain => throw "lookup.has is not a function"
  | LMap m =>
    match m !! n_id elem with
    | Some orig =>
      if same_node elem orig then mret orig
      else if cmpType elem orig then
        if decide (n_type elem = Some "part" ∨ n_type elem = Some "scene") then
          b ← cmpNamedGroup elem orig;
          if (b : bool) then mret orig else rebuild elem
        else if decide (n_type elem = Some "br") then mret orig
        else
          t1 ← first_text elem;
          t2 ← first_text orig;
          if bool_decide (t1 = t2) then mret orig else rebuild elem
      else rebuild elem
    | None => rebuild elem
    end
  end.

Definition edit2paragraph (elem : node) (lk : lookup) : M node :=
  checkClean elem lk.

Definition edit2scene (lk : lookup) (scene : node) : M node :=
  children ← defined "children is not iterable" (n_children scene);
  paragraphs ← array_rest children;
  a ← alloc;
  ps ← array_map (fun p => edit2paragraph p lk) paragraphs;
  checkClean (Node a (Some "scene") (n_id scene) (n_name scene)
                   (n_folded scene) None None (Some ps)) lk.

Definition edit2part (lk : lookup) (part : node) : M node :=
  children ← defined "children is not iterable" (n_children part);
  scenes ← array_rest children;
  a ← alloc;
  ss ← array_map (edit2scene lk) scenes;
  checkClean (Node a (Some "part") (n_id part) (n_name part)
                   (n_folded part) None None (Some ss)) lk.

Definition updateSection (buffer : array) (sec : nullable section) : M section :=
  let lk := match sec with
            | JObj s => LMap (section2lookup s)
            | _ => LPlain
            end in
  updated ← array_map (edit2part lk) buffer;
  match sec with
  | JObj s =>
    isClean ← cmpList (Some updated) (s_parts s);
    if (isClean : bool) then mret s
    else
      a ← alloc;
      t ← alloc;
      w ← call_wcElem (Node t (Some "sect") None None None None None (Some updated));
      mret (Section_ a (Some updated) (Some w))
  | _ => throw "Cannot read properties of null (reading 'parts')"
  end.

(** [updateSection(section2edit(section), section)] *)
Definition roundtrip (s : section) : M section :=
  buffer ← section2edit s;
  updateSection buffer (JObj s).

End WithExternals.

(** ** Vocabulary of the specification *)

(** The persisted document tree: [part -> scene -> paragraph], parts typed
    ["part"], scenes typed ["scene"], and no two nodes sharing an [id]. *)
Definition persisted_scene (n : node) : Prop :=
  n_type n = Some "scene" /\ is_Some (n_children n).

Definition persisted_part (n : node) : Prop :=
  n_type n = Some "part" /\ is_Some (n_children n) /\
  Forall persisted_scene (node_children n).

Definition section_parts (s : section) : list node :=
  match s_parts s with Some (_, ps) => ps | None => [] end.

Definition persisted (s : section) : Prop :=
  is_Some (s_parts s) /\
  Forall persisted_part (section_parts s) /\
  NoDup (map n_id (section_nodes s)).

(** No legacy line-break node among the paragraphs. *)
Definition no_br (s : section) : Prop :=
  Forall (fun n => n_type n ≠ Some "br") (section_nodes s).

(** [Node.string]: the concatenated text of all leaves below a node. *)
Fixpoint node_string (n : node) : string :=
  match n_text n with
  | Some t => t
  | None =>
    match n_children n with
    | Some (_, l) => foldr (fun c acc => node_string c +:+ acc) "" l
    | None => ""
    end
  end.

End Bridge.


Module BridgeSpec.
Import Bridge.

(** [f] maps [x] to some [y] related to [x] by [R], without calling the
    word counter. *)
Definition quiet {A B} (R : A -> B -> Prop) (f : A -> M B) (x : A) : Prop :=
  forall st, exists y st',
    f x st = inr (y, st') /\ R x y /\ wc_calls st' = wc_calls st.

(** The editable image of a scene: a new object with a synthetic header
    followed by the persisted paragraphs themselves. *)
Definition edit_of_scene (sc y : node) : Prop :=
  exists a c h,
    y = Node a (Some "scene") (n_id sc) (n_name sc) (n_folded sc) None None
             (Some (c, h :: node_children sc)).

Definition edit_of_part (p y : node) : Prop :=
  exists a c h ys,
    y = Node a (Some "part") (n_id p) (n_name p) (n_folded p) None None
             (Some (c, h :: ys)) /\
    Forall2 edit_of_scene (node_children p) ys.

(** Every persisted node is the lookup entry of its own id. *)
Definition indexed (m : gmap (option string) node) (n : node) : Prop :=
  m !! n_id n = Some n.

End BridgeSpec.

(** ** The editable image of a section *)

Module BridgeImage.
Import Bridge.

(** The header [section2edit] puts in front of a part or scene: a new
    element of type [ty] with a generated id and one text leaf holding
    the name ([""] for a missing name). *)
Definition header_for (ty : string) (name : option string) (h : node) : Prop :=
  exists a i c l,
    h = Node a (Some ty) (Some i) None None None None
             (Some (c, [Node l None None None None None
                             (Some (default "" name)) None])).

(** A paragraph is passed on as the object it is; a "br" node is
    replaced by a copy of type "p". *)
Definition image_of_elem (e y : node) : Prop :=
  (n_type e ≠ Some "br" /\ y = e) \/
  (n_type e = Some "br" /\
   exists a, y = Node a (Some "p") (n_id e) (n_name e) (n_folded e)
                      (n_words e) (n_text e) (n_children e)).

Definition image_of_scene (sc y : node) : Prop :=
  exists a c h es,
    y = Node a (Some "scene") (n_id sc) (n_name sc) (n_folded sc) None None
             (Some (c, h :: es)) /\
    header_for "hscene" (n_name sc) h /\
    Forall2 image_of_elem (node_children sc) es.

Definition image_of_part (p y : node) : Prop :=
  exists a c h ys,
    y = Node a (Some "part") (n_id p) (n_name p) (n_folded p) None None
             (Some (c, h :: ys)) /\
    header_for "hpart" (n_name p) h /\
    Forall2 image_of_scene (node_children p) ys.

(** The parts and scenes of the section have their [children]. *)
Definition has_children (n : node) : Prop := is_Some (n_children n).

Definition complete (s : section) : Prop :=
  is_Some (s_parts s) /\
  Forall (fun p => has_children p /\ Forall has_children (node_children p))
         (section_parts s).

(** The number of headers the image needs: one per part and per scene. *)
Definition headers (s : section) : nat :=
  length (section_parts s)
  + length (concat (map node_children (section_parts s))).

(** ** Objects and their addresses *)

(** Every object below (and including) a node. *)
Fixpoint nodes_below (n : node) : list node :=
  n :: match n_children n with
       | Some (_, l) => concat (map nodes_below l)
       | None => []
       end.

Definition heap_nodes (s : section) : list node :=
  concat (map nodes_below (section_parts s)).

Definition array_addr (n : node) : option addr := fst <$> n_children n.

(** The objects of the section were allocated before the state [st]
    (their addresses, and those of their arrays, are below the next free
    address), and no object occurs twice in the section. *)
Definition allocated (st : state) (s : section) : Prop :=
  (forall c, fst <$> s_parts s = Some c -> c < next st) /\
  Forall (fun x => n_addr x < next st /\
                   forall c, array_addr x = Some c -> c < next st)
         (heap_nodes s) /\
  NoDup (map n_addr (heap_nodes s)).

(** The nodes of a buffer that a commit turns into persisted nodes: the
    parts, their scenes and the paragraphs of these (everything but the
    headers). *)
Definition buffer_scene_nodes (y : node) : list node :=
  y :: tail (node_children y).

Definition buffer_part_nodes (y : node) : list node :=
  y :: concat (map buffer_scene_nodes (tail (node_children y))).

Definition buffer_nodes (b : array) : list node :=
  concat (map buffer_part_nodes b.2).

Definition buffer_paragraphs (b : array) : list node :=
  concat (map (fun y => concat (map (fun sc => tail (node_children sc))
                                    (tail (node_children y)))) b.2).

(** No two of these nodes have the same id, and every paragraph has a
    first child. *)
Definition committable (b : array) : Prop :=
  NoDup (map n_id (buffer_nodes b)) /\
  Forall (fun e => node_children e ≠ []) (buffer_paragraphs b).

(** ** What a commit returns *)

(** [{...elem, words: wcElem(elem)}] allocated at [a]. *)
Definition copy_of (wcElem : node -> counts) (e : node) (a : addr) : node :=
  Node a (n_type e) (n_id e) (n_name e) (n_folded e) (Some (wcElem e))
       (n_text e) (n_children e).

(** [r] is what [checkClean] returns for [e] whenever the lookup has [r]
    under the id of [e]. *)
Definition reused_for (wcElem : node -> counts) (e r : node) : Prop :=
  forall m st, m !! n_id e = Some r ->
    checkClean wcElem e (LMap m) st = inr (r, st).

(** [f] returns [r] for the buffer node [y], counting no words, whenever
    the nodes [nodes] are the lookup entries of their ids. *)
Definition replays (f : lookup -> node -> M node) (nodes : list node)
    (y r : node) : Prop :=
  forall m, Forall (fun x => m !! n_id x = Some x) nodes ->
  forall st, exists st',
    f (LMap m) y st = inr (r, st') /\ wc_calls st' = wc_calls st.

(** An object of the section, or one allocated at or after [N]. *)
Definition settled (N : addr) (s : section) (r : node) : Prop :=
  r ∈ heap_nodes s \/ N <= n_addr r.

End BridgeImage.
(* ===================================================================== *)
(** * The editing substrate: Slate documents, paths and operations       *)
(* ===================================================================== *)

(** The editor module is written against SlateJS, which is not part of the
    repository.  This module models the part of Slate the editor code
    calls, for locations given as paths: the document tree, [Path],
    [Node], the low-level operations with the way they move paths, and
    the dirty paths each of them records for normalization. *)

Module Slate.

Definition path := list nat.

(** The custom properties the editor puts on nodes.  [None]: the node
    does not have the property. *)
Record props := Props {
  p_type   : option string;
  p_id     : option string;
  p_name   : option string;
  p_folded : option bool;
}.

#[export] Instance props_eq_dec : EqDecision props.
Proof. solve_decision. Defined.

Definition no_props : props := Props None None None None.

Inductive node :=
| Text (pr : props) (text : string)
| Element (pr : props) (children : list node).

Definition props_of (n : node) : props :=
  match n with Text pr _ | Element pr _ => pr end.

Definition children_of (n : node) : list node :=
  match n with Element _ c => c | Text _ _ => [] end.

Definition isText (n : node) : bool :=
  match n with Text _ _ => true | Element _ _ => false end.

Definition isElement (n : node) : bool := negb (isText n).

Definition node_type (n : node) : option string := p_type (props_of n).

(** The editor object seen as the root node of its document. *)
Definition root (children : list node) : node := Element no_props children.

(** A property object passed to [setNodes]: [Some v] for a key that is
    present.  [merge_props] is the node after [Object.assign]. *)
Definition merge_props (old new : props) : props :=
  Props (if p_type new is Some _ then p_type new else p_type old)
        (if p_id new is Some _ then p_id new else p_id old)
        (if p_name new is Some _ then p_name new else p_name old)
        (if p_folded new is Some _ then p_folded new else p_folded old).

Definition set_props (n : node) (new : props) : node :=
  match n with
  | Text pr s => Text (merge_props pr new) s
  | Element pr c => Element (merge_props pr new) c
  end.

(** ** Strings *)

Fixpoint str_take (n : nat) (s : string) : string :=
  match n, s with
  | S n, String c s => String c (str_take n s)
  | _, _ => ""
  end.

Fixpoint str_drop (n : nat) (s : string) : string :=
  match n, s with
  | S n, String _ s => str_drop n s
  | _, _ => s
  end.

(** ** Path *)

Definition Path_parent (p : path) : option path :=
  match p with [] => None | _ => Some (removelast p) end.

Definition Path_next (p : path) : option path :=
  i ← last p; Some (removelast p ++ [S i]).

Definition Path_previous (p : path) : option path :=
  i ← last p;
  match i with
  | 0 => None
  | S j => Some (removelast p ++ [j])
  end.

(** [Path.levels]: all the prefixes, the root path first. *)
Definition Path_levels (p : path) : list path :=
  map (fun n => take n p) (seq 0 (S (length p))).

Definition Path_ancestors (p : path) : list path :=
  map (fun n => take n p) (seq 0 (length p)).

Definition Path_equals (p q : path) : bool := bool_decide (p = q).

Definition Path_isAncestor (p q : path) : bool :=
  bool_decide (length p < length q) && bool_decide (take (length p) q = p).

Definition Path_endsBefore (p q : path) : bool :=
  match last p, q !! (length p - 1) with
  | Some av, Some bv =>
      bool_decide (take (length p - 1) q = removelast p) && bool_decide (av < bv)
  | _, _ => false
  end.

Definition Path_isSibling (p q : path) : bool :=
  match last p, last q with
  | Some al, Some bl =>
      bool_decide (length p = length q) && negb (bool_decide (al = bl))
      && bool_decide (removelast p = removelast q)
  | _, _ => false
  end.

Fixpoint Path_isAfter (p q : path) : bool :=
  match p, q with
  | i :: p', j :: q' =>
      if bool_decide (j < i) then true
      else if bool_decide (i < j) then false
      else Path_isAfter p' q'
  | _, _ => false
  end.

Fixpoint Path_common (p q : path) : path :=
  match p, q with
  | i :: p', j :: q' => if bool_decide (i = j) then i :: Path_common p' q' else []
  | _, _ => []
  end.

(** ** Node *)

Fixpoint get (n : node) (p : path) : option node :=
  match p with
  | [] => Some n
  | i :: p' =>
    match n with
    | Element _ c => c !! i ≫= fun m => get m p'
    | Text _ _ => None
    end
  end.

(** [Node.string] *)
Fixpoint Node_string (n : node) : string :=
  match n with
  | Text _ s => s
  | Element _ c => foldr (fun m acc => Node_string m +:+ acc) "" c
  end.

(** [Node.first(root, path)] goes down the first children from the node
    at [path] until it meets a text or an element without children;
    [Editor.start(editor, path)] throws unless it ends at a text. *)
Fixpoint has_start_text (n : node) : bool :=
  match n with
  | Text _ _ => true
  | Element _ [] => false
  | Element _ (c :: _) => has_start_text c
  end.

(** The same down the last children, for [Editor.end(editor, path)]. *)
Fixpoint has_end_text (n : node) : bool :=
  match n with
  | Text _ _ => true
  | Element _ cs =>
    (fix last_child (cs : list node) : bool :=
       match cs with
       | [] => false
       | [c] => has_end_text c
       | _ :: cs => last_child cs
       end) cs
  end.

(** [Node.nodes]: every node below (and including) [n] with its path, in
    document order. *)
Definition nodes_of_children (f : path -> node -> list (node * path))
    (p : path) : nat -> list node -> list (node * path) :=
  fix go i l :=
    match l with
    | [] => []
    | m :: l => f (p ++ [i]) m ++ go (S i) l
    end.

Fixpoint nodes_from (p : path) (n : node) : list (node * path) :=
  (n, p) ::
  match n with
  | Text _ _ => []
  | Element _ c => nodes_of_children nodes_from p 0 c
  end.

Definition Node_nodes (n : node) : list (node * path) := nodes_from [] n.

(** Replace the node at [p] by [f] of it. *)
Fixpoint update (p : path) (f : node -> option node) (n : node) : option node :=
  match p with
  | [] => f n
  | i :: p' =>
    match n with
    | Element pr c =>
        m ← c !! i;
        m' ← update p' f m;
        Some (Element pr (<[i := m']> c))
    | Text _ _ => None
    end
  end.

(** Replace the children of the node at [p]. *)
Definition update_children (p : path) (g : list node -> option (list node))
    (n : node) : option node :=
  update p (fun m =>
    match m with
    | Element pr c => c' ← g c; Some (Element pr c')
    | Text _ _ => None
    end) n.

(** ** Operations *)

Inductive operation :=
| insert_node (p : path) (n : node)
| remove_node (p : path)
| move_node (p newPath : path)
| set_node (p : path) (newProperties : props)
| merge_node (p : path) (position : nat)
| split_node (p : path) (position : nat) (properties : props)
| insert_text (p : path) (offset : nat) (text : string)
| remove_text (p : path) (offset : nat) (text : string).

(** [p[k] = f (p[k])] *)
Definition at_index (k : nat) (f : nat -> nat) (p : path) : path := alter f k p.

(** [Path.transform] (with the default affinity, "forward"): where a path
    points after the operation; [None] when its node was removed. *)
Definition Path_transform (p : path) (o : operation) : option path :=
  if bool_decide (p = []) then Some p else
  match o with
  | insert_node op _ =>
    if Path_equals op p || Path_endsBefore op p || Path_isAncestor op p
    then Some (at_index (length op - 1) S p)
    else Some p
  | remove_node op =>
    if Path_equals op p || Path_isAncestor op p then None
    else if Path_endsBefore op p then Some (at_index (length op - 1) pred p)
    else Some p
  | merge_node op position =>
    if Path_equals op p || Path_endsBefore op p
    then Some (at_index (length op - 1) pred p)
    else if Path_isAncestor op p
    then Some (at_index (length op) (fun i => i + position)
                 (at_index (length op - 1) pred p))
    else Some p
  | split_node op position _ =>
    if Path_equals op p then Some (at_index (length p - 1) S p)
    else if Path_endsBefore op p then Some (at_index (length op - 1) S p)
    else if Path_isAncestor op p
            && bool_decide (position <= default 0 (p !! length op))
    then Some (at_index (length op) (fun i => i - position)
                 (at_index (length op - 1) S p))
    else Some p
  | move_node op onp =>
    if Path_equals op onp then Some p
    else if Path_isAncestor op p || Path_equals op p then
      let copy :=
        if Path_endsBefore op onp && bool_decide (length op < length onp)
        then at_index (length op - 1) pred onp else onp in
      Some (copy ++ drop (length op) p)
    else if Path_isSibling op onp && (Path_isAncestor onp p || Path_equals onp p)
    then
      if Path_endsBefore op p then Some (at_index (length op - 1) pred p)
      else Some (at_index (length op - 1) S p)
    else if Path_endsBefore onp p || Path_equals onp p || Path_isAncestor onp p
    then
      let p1 := if Path_endsBefore op p
                then at_index (length op - 1) pred p else p in
      Some (at_index (length onp - 1) S p1)
    else if Path_endsBefore op p then
      let p1 := if Path_equals onp p
                then at_index (length onp - 1) S p else p in
      Some (at_index (length op - 1) pred p1)
    else Some p
  | set_node _ _ | insert_text _ _ _ | remove_text _ _ _ => Some p
  end.

(** [Path.operationCanTransformPath] *)
Definition canTransformPath (o : operation) : bool :=
  match o with
  | insert_node _ _ | remove_node _ | move_node _ _
  | merge_node _ _ | split_node _ _ _ => true
  | _ => false
  end.

(** [editor.getDirtyPaths]: the paths an operation marks for
    normalization. *)
Definition getDirtyPaths (o : operation) : list path :=
  match o with
  | insert_text p _ _ | remove_text p _ _ | set_node p _ => Path_levels p
  | insert_node p n =>
      Path_levels p ++
      (if isText n then [] else map (fun e => p ++ e.2) (Node_nodes n))
  | merge_node p _ =>
      Path_ancestors p ++ option_list (Path_previous p)
  | move_node p newPath =>
      if Path_equals p newPath then [] else
      let tr := fun a => default a (Path_transform a o) in
      let oldAncestors := map tr (Path_ancestors p) in
      let newAncestors := map tr (Path_ancestors newPath) in
      let newParent := default [] (last newAncestors) in
      let newIndex := default 0 (last newPath) in
      oldAncestors ++ newAncestors ++ [newParent ++ [newIndex]]
  | remove_node p => Path_ancestors p
  | split_node p _ _ => Path_levels p ++ option_list (Path_next p)
  end.

(** ** The effect of an operation on the document *)

Definition insert_at {A} (i : nat) (x : A) (l : list A) : option (list A) :=
  if bool_decide (i <= length l) then Some (take i l ++ x :: drop i l) else None.

(** [merge_node]: the node is appended to its previous sibling. *)
Definition merge_into (prev n : node) : option node :=
  match prev, n with
  | Text pr s, Text _ t => Some (Text pr (s +:+ t))
  | Element pr c, Element _ d => Some (Element pr (c ++ d))
  | _, _ => None
  end.

(** [split_node]: the node keeps what is before [position]; the new node
    gets [properties] and the rest. *)
Definition split_at (n : node) (position : nat) (properties : props)
    : node * node :=
  match n with
  | Text pr s => (Text pr (str_take position s), Text properties (str_drop position s))
  | Element pr c => (Element pr (take position c), Element properties (drop position c))
  end.

(** [GeneralTransforms.transform] on the document; [None]: Slate throws. *)
Definition transform (o : operation) (r : node) : option node :=
  match o with
  | insert_node p n =>
      par ← Path_parent p; i ← last p;
      update_children par (insert_at i n) r
  | remove_node p =>
      par ← Path_parent p; i ← last p;
      update_children par (fun c => Some (delete i c)) r
  | move_node p newPath =>
      if Path_isAncestor p newPath then None else
      n ← get r p;
      par ← Path_parent p; i ← last p;
      r1 ← update_children par (fun c => Some (delete i c)) r;
      truePath ← Path_transform p o;
      npar ← Path_parent truePath; ni ← last truePath;
      update_children npar (insert_at ni n) r1
  | set_node p newProperties =>
      if bool_decide (p = []) then None
      else update p (fun n => Some (set_props n newProperties)) r
  | merge_node p _ =>
      par ← Path_parent p; i ← last p;
      match i with
      | 0 => None
      | S j =>
        update_children par (fun c =>
          n ← c !! i; prev ← c !! j;
          merged ← merge_into prev n;
          Some (delete i (<[j := merged]> c))) r
      end
  | split_node p position properties =>
      par ← Path_parent p; i ← last p;
      update_children par (fun c =>
        n ← c !! i;
        let '(before, after) := split_at n position properties in
        Some (take i c ++ before :: after :: drop (S i) c)) r
  | insert_text p offset text =>
      update p (fun n =>
        match n with
        | Text pr s =>
            Some (Text pr (str_take offset s +:+ text +:+ str_drop offset s))
        | Element _ _ => None
        end) r
  | remove_text p offset text =>
      update p (fun n =>
        match n with
        | Text pr s =>
            Some (Text pr (str_take offset s
                           +:+ str_drop (offset + String.length text) s))
        | Element _ _ => None
        end) r
  end.

End Slate.

(* ===================================================================== *)
(** * The editor: transforms and normalization                            *)
(* ===================================================================== *)

Module Normalize.
Import Slate.

(** ** Editor state

    What normalization reads and writes: the document, the dirty paths
    waiting to be normalized, the live path references of running
    transforms, and the number of identifiers generated so far.  (The
    selection is not read by any normalizing code; the keyboard handlers
    that use it are modelled in [Editing] below.) *)
Record editor := Editor_ {
  children : list node;
  dirty    : list path;
  refs     : list (option path);
  id_calls : nat;
}.

(** A transform either throws ([None]) or returns a value and the new
    editor. *)
Definition T (A : Type) : Type := editor -> option (A * editor).

#[export] Instance T_ret : MRet T := fun A a e => Some (a, e).
#[export] Instance T_bind : MBind T := fun A B f m e =>
  match m e with
  | None => None
  | Some (a, e') => f a e'
  end.

Definition throw {A} : T A := fun _ => None.
Definition lift_option {A} (o : option A) : T A :=
  fun e => match o with Some a => Some (a, e) | None => None end.

(** A [for] loop threading an accumulator. *)
Fixpoint foldlM {A B} (f : A -> B -> T A) (a : A) (l : list B) : T A :=
  match l with
  | [] => mret a
  | x :: l => a' ← f a x; foldlM f a' l
  end.

(** [Editor.node(editor, path)]; throws when the path does not exist. *)
Definition Editor_node (p : path) : T node :=
  fun e => match get (root (children e)) p with
           | Some n => Some (n, e)
           | None => None
           end.

(** [Editor.parent(editor, path)] *)
Definition Editor_parent (p : path) : T (node * path) :=
  pp ← lift_option (Path_parent p);
  n ← Editor_node pp;
  mret (n, pp).

(** [Editor.start(editor, path)], [Editor.end(editor, path)] and
    [Editor.range(editor, path)].  The transforms at a path compute these
    points on their way and use them only to find the node again, so all
    that is kept is whether they throw: the node has to begin (end) with
    a text. *)
Definition Editor_start (p : path) : T unit :=
  n ← Editor_node p;
  if has_start_text n then mret () else throw.

Definition Editor_end (p : path) : T unit :=
  n ← Editor_node p;
  if has_end_text n then mret () else throw.

Definition Editor_range (p : path) : T unit :=
  _ ← Editor_start p;
  Editor_end p.

(** [Editor.previous(editor, {at: path})]: the entry of the previous
    sibling, if there is one.  Slate looks for it from the text position
    before the start of the node ([Editor.before], which takes the start
    of the document and the start of the node first, and throws without
    them).  In a document in which every element has children that
    position lies in the previous sibling, which is then the node
    returned.  Elsewhere Slate passes over siblings without any text;
    this search is not modelled, and the theorems that go through
    [Editor_previous] are stated for documents in which every element
    has children. *)
Definition Editor_previous (p : path) : T (option (node * path)) :=
  _ ← Editor_start [];
  _ ← Editor_start p;
  match Path_previous p with
  | Some pp => n ← Editor_node pp; mret (Some (n, pp))
  | None => mret None
  end.

(** ** [editor.apply] *)

Definition add_dirty (acc : list path) (p : path) : list path :=
  if bool_decide (p ∈ acc) then acc else acc ++ [p].

Definition apply (o : operation) : T unit := fun e =>
  let refs' := map (fun r => r ≫= fun p => Path_transform p o) (refs e) in
  let moved :=
    if canTransformPath o
    then foldl (fun acc p =>
                  match Path_transform p o with
                  | Some q => add_dirty acc q
                  | None => acc
                  end) [] (dirty e)
    else dirty e in
  let dirty' := foldl add_dirty moved (getDirtyPaths o) in
  match transform o (root (children e)) with
  | Some r => Some ((), Editor_ (children_of r) dirty' refs' (id_calls e))
  | None => None
  end.

(** [Editor.pathRef] / [ref.unref()] *)
Definition pathRef (p : path) : T nat := fun e =>
  Some (length (refs e),
        Editor_ (children e) (dirty e) (refs e ++ [Some p]) (id_calls e)).

Definition unref (h : nat) : T (option path) := fun e =>
  Some (mjoin (refs e !! h),
        Editor_ (children e) (dirty e) (<[h := None]> (refs e)) (id_calls e)).

(** ** Transforms at a path *)

(** The keys of [new] whose value differs from the node's. *)
Definition changed_props (old new : props) : props :=
  Props (if bool_decide (p_type new = p_type old) then None else p_type new)
        (if bool_decide (p_id new = p_id old) then None else p_id new)
        (if bool_decide (p_name new = p_name old) then None else p_name new)
        (if bool_decide (p_folded new = p_folded old) then None else p_folded new).

Definition setNodes (new : props) (at_ : path) : T unit :=
  n ← Editor_node at_;
  if bool_decide (at_ = []) then mret ()
  else
    let newProperties := changed_props (props_of n) new in
    if bool_decide (newProperties = no_props) then mret ()
    else apply (set_node at_ newProperties).

Definition insertNodes (n : node) (at_ : path) : T unit :=
  apply (insert_node at_ n).

Definition removeNodes (at_ : path) : T unit :=
  _ ← Editor_node at_;
  apply (remove_node at_).

Definition moveNodes (at_ to : path) : T unit :=
  _ ← Editor_node at_;
  if bool_decide (at_ = []) then mret ()
  else apply (move_node at_ to).

(** [splitNodes(editor, {at: path})]: the parent is split in front of
    the node at [path].  The split is placed at [Editor.point(editor,
    path)], the start of the node, and before it splits the parent Slate
    asks whether that point is the end of the parent
    ([Editor.isEnd]). *)
Definition splitNodes (at_ : path) : T unit :=
  _ ← Editor_start at_;
  '(parent, pp) ← Editor_parent at_;
  index ← lift_option (last at_);
  if bool_decide (pp = []) then mret ()
  else
    _ ← Editor_end pp;
    apply (split_node pp index (props_of parent)).

(** One round of the loop of [liftNodes]. *)
Definition lift_one (p : path) : T unit :=
  if bool_decide (length p < 2) then throw
  else
    '(parent, parentPath) ← Editor_parent p;
    index ← lift_option (last p);
    let len := length (children_of parent) in
    if bool_decide (len = 1) then
      toPath ← lift_option (Path_next parentPath);
      _ ← moveNodes p toPath;
      removeNodes parentPath
    else if bool_decide (index = 0) then
      moveNodes p parentPath
    else if bool_decide (index = len - 1) then
      toPath ← lift_option (Path_next parentPath);
      moveNodes p toPath
    else
      splitPath ← lift_option (Path_next p);
      toPath ← lift_option (Path_next parentPath);
      _ ← splitNodes splitPath;
      moveNodes p toPath.

Definition liftNodes (at_ : path) : T unit :=
  _ ← Editor_node at_;
  h ← pathRef at_;
  p ← unref h;
  p ← lift_option p;
  lift_one p.

(** [unwrapNodes(editor, {at: path})]: the path is turned into the range
    of the node, and every child of the node is lifted, in order, each
    through its path reference. *)
Definition unwrapNodes (at_ : path) : T unit :=
  n ← Editor_node at_;
  _ ← Editor_range at_;
  hs ← mapM (fun i => pathRef (at_ ++ [i])) (seq 0 (length (children_of n)));
  _ ← mapM (fun h => p ← unref h; p ← lift_option p; lift_one p) hs;
  mret ().

(** [wrapNodes(editor, element, {at: path})]: an empty wrapper is
    inserted after the node, and what lies in the range of the node (the
    node) is moved into it. *)
Definition wrapNodes (element : props) (at_ : path) : T unit :=
  _ ← Editor_node at_;
  if bool_decide (at_ = []) then mret ()
  else
    _ ← Editor_range at_;
    wrapperPath ← lift_option (Path_next at_);
    _ ← insertNodes (Element element []) wrapperPath;
    moveNodes at_ (wrapperPath ++ [0]).

(** [Editor.isEmpty(editor, element)]: no children, or one empty text. *)
Definition Editor_isEmpty (n : node) : bool :=
  match n with
  | Element _ [] | Element _ [Text _ ""] => true
  | _ => false
  end.

(** [mergeNodes(editor, {at: path})]: the node is merged into its
    previous sibling; nothing happens without one.  A previous sibling
    that is empty (an empty element, or an empty text that is not the
    first child) is removed instead of merged into. *)
Definition mergeNodes (at_ : path) : T unit :=
  n ← Editor_node at_;
  prev ← Editor_previous at_;
  match prev with
  | None => mret ()
  | Some (prevNode, prevPath) =>
    match n, prevNode with
    | Text _ _, Text _ s =>
      if bool_decide (s = "") && negb (bool_decide (last prevPath = Some 0))
      then removeNodes prevPath
      else apply (merge_node at_ (String.length s))
    | Element _ _, Element _ c =>
      if Editor_isEmpty prevNode then removeNodes prevPath
      else apply (merge_node at_ (length c))
    | _, _ => throw
    end
  end.

(** ** The default [normalizeNode] of Slate *)

(** [Text.equals(a, b, {loose: true})] *)
Definition Text_equals_loose (a b : node) : bool :=
  bool_decide (props_of a = props_of b).

(** The loop over the children: [i] runs over the children of the node
    as it was, [n] is the index in the current document. *)
Fixpoint normalize_children (p : path) (shouldHaveInlines : bool)
    (cs : list node) (n : nat) : T unit :=
  match cs with
  | [] => mret ()
  | child :: cs =>
    current ← Editor_node p;
    if isText current then normalize_children p shouldHaveInlines cs (S n)
    else
      let prev := match n with
                  | 0 => None
                  | S k => children_of current !! k
                  end in
      if negb (Bool.eqb (isText child) shouldHaveInlines) then
        _ ← removeNodes (p ++ [n]);
        normalize_children p shouldHaveInlines cs n
      else if isElement child then
        normalize_children p shouldHaveInlines cs (S n)
      else
        match prev, child with
        | Some (Text ppr ptext as pv), Text _ ctext =>
          if Text_equals_loose child pv then
            _ ← mergeNodes (p ++ [n]);
            normalize_children p shouldHaveInlines cs n
          else if bool_decide (ptext = "") then
            _ ← removeNodes (p ++ [n - 1]);
            normalize_children p shouldHaveInlines cs n
          else if bool_decide (ctext = "") then
            _ ← removeNodes (p ++ [n]);
            normalize_children p shouldHaveInlines cs n
          else normalize_children p shouldHaveInlines cs (S n)
        | _, _ => normalize_children p shouldHaveInlines cs (S n)
        end
  end.

Definition base_normalizeNode (p : path) : T unit :=
  node ← Editor_node p;
  match node with
  | Text _ _ => mret ()
  | Element _ cs =>
    if bool_decide (p ≠ []) && bool_decide (cs = [])
    then insertNodes (Text no_props "") (p ++ [0])
    else
      let shouldHaveInlines :=
        if bool_decide (p = []) then false
        else match cs with
             | [] => true
             | c :: _ => isText c
             end in
      normalize_children p shouldHaveInlines cs 0
  end.

(** ** Folding *)

Definition doFold (node : node) (p : path) (folded : bool) : T unit :=
  if bool_decide (default false (p_folded (props_of node)) = folded) then mret ()
  else setNodes (Props None None None (Some folded)) p.

(** ** withFixNesting *)

Definition type_props (ty : string) : props := Props (Some ty) None None None.

Definition checkParent (node : node) (p : path) (ty : string) : T bool :=
  '(parent, ppath) ← Editor_parent p;
  if bool_decide (node_type parent = Some ty) then mret true
  else
    _ ← wrapNodes (type_props ty) p;
    mret false.

Definition checkIsFirst (node : node) (p : path) (ty : string) : T bool :=
  match last p with
  | None | Some 0 => mret true
  | Some _ =>
    _ ← wrapNodes (type_props ty) p;
    _ ← liftNodes p;
    mret false
  end.

Definition updateParentName (node : node) (p : path) : T bool :=
  '(parent, at_) ← Editor_parent p;
  let name := p_name (props_of parent) in
  let text := Node_string node in
  if bool_decide (name = Some text) then mret true
  else
    _ ← setNodes (Props None None (Some text) None) at_;
    mret false.

Definition checkBlockHeader (block : node) (p : path) (ty : string) : T bool :=
  match children_of block with
  | [] =>
    _ ← removeNodes p;
    mret false
  | first :: _ =>
    let hdrtype := node_type first in
    if bool_decide (hdrtype = Some ty) then mret true
    else
      prev ← Editor_previous p;
      match prev with
      | None => mret true
      | Some (prevNode, prevPath) =>
        if bool_decide (node_type prevNode ≠ node_type block) then mret true
        else
          _ ← doFold prevNode prevPath false;
          _ ← doFold block p false;
          _ ← mergeNodes p;
          mret false
      end
  end.

Definition checkFirstHeader (block : node) (p : path) (ty : string) : T bool :=
  match block with
  | Text _ _ => throw                    (* block.children is undefined *)
  | Element _ [] => throw                (* block.children[0] is undefined *)
  | Element _ (first :: _) =>
    let hdrtype := node_type first in
    if bool_decide (hdrtype = Some ty) then mret true
    else
      _ ← setNodes (type_props ty) (p ++ [0]);
      mret false
  end.

Section Plugins.

(** [normalizeNode] of the editor being wrapped. *)
Variable normalizeNode : path -> T unit.

Definition fixNesting_normalizeNode (p : path) : T unit :=
  node ← Editor_node p;
  if isText node then normalizeNode p
  else if bool_decide (p = []) then
    first ← Editor_node [0; 0];
    if bool_decide (node_type first = Some "hpart") then normalizeNode p
    else
      _ ← (if bool_decide (node_type first = Some "scene")
           then unwrapNodes [0; 0] else mret ());
      setNodes (type_props "hpart") [0; 0]
  else if bool_decide (node_type node = Some "hpart") then
    b ← checkParent node p "part";
    if negb b then mret () else
    b ← checkIsFirst node p "part";
    if negb b then mret () else
    b ← updateParentName node p;
    if negb b then mret () else
    normalizeNode p
  else if bool_decide (node_type node = Some "hscene") then
    b ← checkParent node p "scene";
    if negb b then mret () else
    b ← checkIsFirst node p "scene";
    if negb b then mret () else
    b ← updateParentName node p;
    if negb b then mret () else
    normalizeNode p
  else if bool_decide (node_type node = Some "part") then
    if bool_decide (1 < length p) then liftNodes p
    else
      b ← checkBlockHeader node p "hpart";
      if negb b then mret () else
      match children_of node with
      | _ :: second :: _ =>
        b ← checkFirstHeader second (p ++ [1]) "hscene";
        if negb b then mret () else normalizeNode p
      | _ => normalizeNode p
      end
  else if bool_decide (node_type node = Some "scene") then
    if bool_decide (length p < 2) then wrapNodes (type_props "part") p
    else if bool_decide (2 < length p) then liftNodes p
    else
      b ← checkBlockHeader node p "hscene";
      if negb b then mret () else normalizeNode p
  else
    b ← checkParent node p "scene";
    if negb b then mret () else normalizeNode p.

(** ** withIDs *)

(** The identifier generator; its [n]-th call returns [nanoid n]. *)
Variable nanoid : nat -> string.

Definition call_nanoid : T string := fun e =>
  Some (nanoid (id_calls e),
        Editor_ (children e) (dirty e) (refs e) (S (id_calls e))).

(** [!node.id] *)
Definition no_id (n : node) : bool :=
  match p_id (props_of n) with
  | None | Some "" => true
  | Some _ => false
  end.

(** The body of the loop over the blocks; [ids] is the set of the
    identifiers seen. *)
Definition fix_id (ids : gset string) (p : path) : T (gset string) :=
  node ← Editor_node p;
  if no_id node || bool_decide (default "" (p_id (props_of node)) ∈ ids) then
    id ← call_nanoid;
    _ ← setNodes (Props None (Some id) None None) p;
    mret ({[ id ]} ∪ ids)
  else mret ({[ default "" (p_id (props_of node)) ]} ∪ ids).

(** [Editor.nodes(editor, {at: [], match: element and not the editor})] *)
Definition blocks (e : editor) : list path :=
  map snd (filter (fun b => isElement b.1 = true /\ b.2 ≠ [])
             (Node_nodes (root (children e)))).

Definition assign_ids : T unit := fun e =>
  (_ ← foldlM fix_id ∅ (blocks e); mret ()) e.

Definition withIDs_normalizeNode (p : path) : T unit :=
  if bool_decide (0 < length p) then normalizeNode p
  else
    _ ← assign_ids;
    normalizeNode p.

End Plugins.

(** ** [Editor.normalize]

    The dirty paths are taken from the end of the list; a path that no
    longer exists is skipped.  [fuel] bounds the number of rounds (Slate
    gives up after 42 rounds per dirty path). *)
Fixpoint normalize_loop (normalizeNode : path -> T unit) (fuel : nat)
    : T unit := fun e =>
  match reverse (dirty e) with
  | [] => Some ((), e)
  | dirtyPath :: rest =>
    match fuel with
    | 0 => None
    | S fuel =>
      let e1 := Editor_ (children e) (reverse rest) (refs e) (id_calls e) in
      match get (root (children e1)) dirtyPath with
      | Some _ =>
        match normalizeNode dirtyPath e1 with
        | Some (_, e2) => normalize_loop normalizeNode fuel e2
        | None => None
        end
      | None => normalize_loop normalizeNode fuel e1
      end
    end
  end.

(** [Editor.normalize(editor, {force: true})]: every node is dirty, and
    Slate allows 42 rounds per dirty path. *)
Definition normalize_force (normalizeNode : path -> T unit) : T unit := fun e =>
  let allPaths := map snd (Node_nodes (root (children e))) in
  normalize_loop normalizeNode (S (42 * length allPaths))
    (Editor_ (children e) allPaths (refs e) (id_calls e)).

(** The chains of [getEditor]: [withFixNesting] over Slate's default, and
    [withIDs] over that. *)
Definition nesting_editor : path -> T unit :=
  fixNesting_normalizeNode base_normalizeNode.

Definition full_editor (nanoid : nat -> string) : path -> T unit :=
  withIDs_normalizeNode nesting_editor nanoid.

End Normalize.

(* ===================================================================== *)
(** * The editor: keyboard handlers                                       *)
(* ===================================================================== *)

Module Editing.
Import Slate.

(** ** Editor state

    What the handlers read and write: the document and the selection.
    (They run before the normalization their operations trigger.) *)
Record point := Point_ { pt_path : path; pt_offset : nat }.
Record range := Range_ { anchor : point; focus : point }.

#[export] Instance point_eq_dec : EqDecision point.
Proof. solve_decision. Defined.

Record editor := Editor_ {
  children  : list node;
  selection : option range;
}.

(** An editor method such as [insertBreak].  [None]: the method throws
    (or, where noted, leaves the fragment of Slate modelled here). *)
Definition handler := editor -> option editor.

Definition Range_isCollapsed (r : range) : bool :=
  bool_decide (anchor r = focus r).

(** [Editor.path(editor, range)] *)
Definition Editor_path (r : range) : path :=
  Path_common (pt_path (anchor r)) (pt_path (focus r)).

(** [Node.levels(root, path)]: the nodes from the root down to [path];
    throws when the path does not exist. *)
Definition Node_levels (r : node) (p : path) : option (list (node * path)) :=
  mapM (fun q => n ← get r q; Some (n, q)) (Path_levels p).

(** [Editor.above(editor, {match})] at the selection: the lowest
    matching non-text node strictly above the selection's path.  The
    outer [option] is for the exception, the inner one for [undefined]. *)
Definition Editor_above (match_ : node -> path -> bool) (e : editor)
    : option (option (node * path)) :=
  match selection e with
  | None => Some None
  | Some sel =>
    let p := Editor_path sel in
    levels ← Node_levels (root (children e)) p;
    Some (head (filter (fun l => negb (isText l.1) && negb (Path_equals p l.2) = true)
                 (reverse (filter (fun l => match_ l.1 l.2 = true) levels))))
  end.

(** [Element.isElement(n)]: an element, and not the editor itself. *)
Definition Element_isElement (n : node) (p : path) : bool :=
  isElement n && negb (bool_decide (p = [])).

(** [Editor.isBlock(editor, n)]: no element of this editor is inline. *)
Definition Editor_isBlock (n : node) (p : path) : bool := Element_isElement n p.

(** The value of [n.folded] as a condition. *)
Definition is_folded (n : node) : bool :=
  default false (p_folded (props_of n)).

(** [Transforms.setNodes(editor, props, {at: path})] *)
Definition setNodes_at (new : props) (p : path) : handler := fun e =>
  n ← get (root (children e)) p;
  if bool_decide (p = []) then Some e
  else
    let newProperties := Normalize.changed_props (props_of n) new in
    if bool_decide (newProperties = no_props) then Some e
    else
      r ← transform (set_node p newProperties) (root (children e));
      Some (Editor_ (children_of r) (selection e)).

Definition doFold (node : node) (p : path) (folded : bool) : handler := fun e =>
  if bool_decide (default false (p_folded (props_of node)) = folded) then Some e
  else setNodes_at (Props None None None (Some folded)) p e.

(** ** withProtectFolds *)

Section ProtectFolds.

(** The methods of the editor being wrapped. *)
Variables deleteBackward deleteForward insertBreak : handler.
Variable insertText : string -> handler.

Definition unfoldSelection (e : editor) : option (bool * editor) :=
  m ← Editor_above (fun n p => Element_isElement n p && is_folded n) e;
  match m with
  | None => Some (false, e)
  | Some (node, p) =>
    e' ← doFold node p false e;
    Some (true, e')
  end.

Definition protect_insertBreak : handler := fun e =>
  '(unfolded, e') ← unfoldSelection e;
  if negb unfolded then insertBreak e' else Some e'.



Definition protect_insertText (text : string) : handler := fun e =>
  '(_, e') ← unfoldSelection e;
  insertText text e'.

End ProtectFolds.

(** ** withMarkup *)

(** The property names every object literal inherits from
    [Object.prototype]; the operator [in] finds them too. *)
Definition Object_prototype_keys : list string :=
  [ "constructor"; "hasOwnProperty"; "isPrototypeOf";
    "propertyIsEnumerable"; "toLocaleString"; "toString"; "valueOf";
    "__proto__"; "__defineGetter__"; "__defineSetter__";
    "__lookupGetter__"; "__lookupSetter__" ].

Definition SHORTCUTS : list (string * string) :=
  [ ("** ", "hpart"); ("## ", "hscene"); (">> ", "synopsis");
    ("// ", "comment"); ("!! ", "missing") ].

Definition STYLEAFTER : list (string * string) :=
  [ ("hpart", "hscene"); ("hscene", "p"); ("synopsis", "p"); ("missing", "p") ].

Definition RESETEMPTY : list string := [ "synopsis"; "comment"; "missing" ].

(** Own property [key] of a table. *)
Fixpoint own (table : list (string * string)) (key : string) : option string :=
  match table with
  | [] => None
  | (k, v) :: table => if bool_decide (k = key) then Some v else own table key
  end.

(** [key in table] *)
Definition js_in (key : string) (table : list (string * string)) : bool :=
  bool_decide (is_Some (own table key)) || bool_decide (key ∈ Object_prototype_keys).

(** [Editor.start(editor, path)] for a block whose first child is a text
    leaf. *)
Definition Editor_start (p : path) (e : editor) : option point :=
  n ← get (root (children e)) (p ++ [0]);
  if isText n then Some (Point_ (p ++ [0]) 0) else None.

(** [Editor.string(editor, {anchor, focus: start})]: the text of the
    block from its start up to the point [pt] in its [i]-th child. *)
Definition text_before (block : node) (i offset : nat) : string :=
  foldr (fun m acc => Node_string m +:+ acc) "" (take i (children_of block))
  +:+ str_take offset (from_option Node_string "" (children_of block !! i)).

(** [Transforms.setNodes(editor, props)] at a collapsed selection: the
    lowest block around the caret. *)
Definition setNodes_here (new : option props) : handler := fun e =>
  match new with
  | None => Some e               (* an object without enumerable keys *)
  | Some new =>
    m ← Editor_above Editor_isBlock e;
    match m with
    | Some (_, p) => setNodes_at new p e
    | None => Some e
    end
  end.

(** [Transforms.select(editor, range); Transforms.delete(editor)] for the
    range from the start of the block at [b] to the caret in its [i]-th
    child: the first leaf is emptied, the nodes in between are removed,
    the text before the caret is removed from the caret's leaf, and the
    selection collapses there.  These are the operations of the delete;
    with the caret in a later leaf ([i] not 0) Slate then normalizes the
    block, which is not modelled, so that the result is the state of the
    code only for a caret in the first leaf.  For an empty range (the
    caret at the start of the block) the code deletes the character
    behind the caret; this case is outside the modelled fragment, the
    result [None] does not stand for an exception there. *)
Definition delete_to_start (b : path) (i offset : nat) : handler := fun e =>
  if bool_decide (i = 0) && bool_decide (offset = 0) then None else
  r ← update_children b (fun cs =>
         first ← cs !! 0;
         leaf ← cs !! i;
         match first, leaf with
         | Text fpr _, Text lpr s =>
           if bool_decide (i = 0)
           then Some (Text lpr (str_drop offset s) :: drop 1 cs)
           else Some (Text fpr "" :: Text lpr (str_drop offset s) :: drop (S i) cs)
         | _, _ => None
         end) (root (children e));
  let caret := Point_ (b ++ [if bool_decide (i = 0) then 0 else 1]) 0 in
  Some (Editor_ (children_of r) (Some (Range_ caret caret))).

Section Markup.

Variable insertText : string -> handler.
Variable insertBreak : handler.

Definition markup_insertText (text : string) : handler := fun e =>
  match selection e with
  | None => insertText text e
  | Some sel =>
    if negb (Range_isCollapsed sel) then insertText text e
    else
      m ← Editor_above Editor_isBlock e;
      '(node, p) ← m;
      start ← Editor_start p e;
      i ← last (pt_path (anchor sel));
      let key := text_before node i (pt_offset (anchor sel)) +:+ text in
      if js_in key SHORTCUTS then
        e1 ← delete_to_start p i (pt_offset (anchor sel)) e;
        setNodes_here ((fun ty => Props (Some ty) None None None) <$> own SHORTCUTS key) e1
      else insertText text e
  end.

(** [Transforms.splitNodes(editor, {always: true})] at the caret in the
    [i]-th child (a text leaf) of the block at [b]: the leaf and then the
    block are split, and the caret moves to the start of the new block. *)
Definition splitNodes_always (b : path) (i offset : nat) : handler := fun e =>
  block ← get (root (children e)) b;
  leaf ← children_of block !! i;
  if negb (isText leaf) then None else
  r1 ← transform (split_node (b ++ [i]) offset (props_of leaf)) (root (children e));
  r2 ← transform (split_node b (S i) (props_of block)) r1;
  nb ← Path_next b;
  let caret := Point_ (nb ++ [0]) 0 in
  Some (Editor_ (children_of r2) (Some (Range_ caret caret))).

Definition markup_insertBreak : handler := fun e =>
  match selection e with
  | None => insertBreak e
  | Some sel =>
    if negb (Range_isCollapsed sel) then insertBreak e
    else
      m ← Editor_above Editor_isBlock e;
      '(node, p) ← m;
      (* as a property key, a missing type reads "undefined" *)
      let ty := default "undefined" (node_type node) in
      if bool_decide (node_type node ∈ Some <$> RESETEMPTY)
         && bool_decide (Node_string node = "")
      then setNodes_here (Some (Props (Some "p") None None None)) e
      else if js_in ty STYLEAFTER then
        newtype ← own STYLEAFTER ty;   (* otherwise a member of Object.prototype *)
        i ← last (pt_path (anchor sel));
        e1 ← splitNodes_always p i (pt_offset (anchor sel)) e;
        setNodes_here (Some (Props (Some newtype) None None None)) e1
      else insertBreak e
  end.

End Markup.

(** ** Points and the selection *)

(** [Editor.start(editor, path)] for the node [n] at [p]: the start of
    the first text leaf below (found by [Node.first]); throws when the
    descent ends in an element without children. *)
Fixpoint start_point (n : node) (p : path) : option point :=
  match n with
  | Text _ _ => Some (Point_ p 0)
  | Element _ [] => None
  | Element _ (c :: _) => start_point c (p ++ [0])
  end.

(** [Editor.end(editor, path)]: the end of the last text leaf below. *)
Fixpoint end_point (n : node) (p : path) : option point :=
  match n with
  | Text _ s => Some (Point_ p (String.length s))
  | Element _ cs =>
    (fix last_child (cs : list node) (i : nat) : option point :=
       match cs with
       | [] => None
       | [c] => end_point c (p ++ [i])
       | _ :: cs => last_child cs (S i)
       end) cs 0
  end.

(** [Editor.range(editor, path)] *)
Definition Editor_range (p : path) (e : editor) : option range :=
  n ← get (root (children e)) p;
  start ← start_point n p;
  end_ ← end_point n p;
  Some (Range_ start end_).

(** [Transforms.select(editor, path)] *)
Definition Transforms_select (p : path) : handler := fun e =>
  target ← Editor_range p e;
  Some (Editor_ (children e) (Some target)).

(** [Transforms.collapse(editor)]: to the anchor. *)
Definition Transforms_collapse : handler := fun e =>
  match selection e with
  | None => Some e
  | Some sel => Some (Editor_ (children e) (Some (Range_ (anchor sel) (anchor sel))))
  end.

(** ** Folding by key *)

(** [Editor.above(editor, {at: point, match})] *)
Definition Editor_above_at (match_ : node -> path -> bool) (pt : point)
    (e : editor) : option (option (node * path)) :=
  let p := pt_path pt in
  levels ← Node_levels (root (children e)) p;
  Some (head (filter (fun l => negb (isText l.1) && negb (Path_equals p l.2) = true)
               (reverse (filter (fun l => match_ l.1 l.2 = true) levels)))).

Definition is_container (n : node) : bool :=
  bool_decide (node_type n = Some "scene") || bool_decide (node_type n = Some "part").

Definition toggleFold : handler := fun e =>
  match selection e with
  | None => Some e
  | Some sel =>
    if negb (Range_isCollapsed sel) then Some e
    else
      m ← Editor_above_at (fun n p => Element_isElement n p && is_container n)
             (anchor sel) e;
      '(node, p) ← m;             (* [undefined] is not iterable *)
      let folded := negb (is_folded node) in
      e1 ← doFold node p folded e;
      e2 ← Transforms_select p e1;
      Transforms_collapse e2
  end.

(** [Editor.nodes(editor, {at: [], match})]: the matching nodes of the
    document with their paths, in document order. *)
Definition Editor_nodes (match_ : node -> path -> bool) (e : editor)
    : list (node * path) :=
  filter (fun l => match_ l.1 l.2 = true) (Node_nodes (root (children e))).

(** [for (const [node, path] of entries) body(node, path)] *)
Fixpoint for_each (body : node -> path -> handler)
    (entries : list (node * path)) : handler := fun e =>
  match entries with
  | [] => Some e
  | (n, p) :: entries => e' ← body n p e; for_each body entries e'
  end.

Definition is_part_node (n : node) : bool :=
  bool_decide (node_type n = Some "part").

Definition foldAll (folded : bool) : handler := fun e =>
  let matches :=
    Editor_nodes (fun n p => Element_isElement n p && is_part_node n) e in
  e1 ← for_each (fun node p => doFold node p folded) matches e;
  e2 ← Transforms_select [0] e1;
  Transforms_collapse e2.

(** ** withMarkup: backspace *)

Section MarkupDelete.

(** [elemIsBlock(editor, node)] is imported from [./slateHelpers]; the
    handler is modelled for any such test. *)
Variable elemIsBlock : node -> bool.
Variable deleteBackward : handler.

Definition markup_deleteBackward : handler := fun e =>
  match selection e with
  | None => deleteBackward e
  | Some sel =>
    if negb (Range_isCollapsed sel) then deleteBackward e
    else
      m ← Editor_above Editor_isBlock e;
      match m with
      | None => deleteBackward e
      | Some (node, p) =>
        if negb (elemIsBlock node) then deleteBackward e
        else
          start ← start_point node p;
          if negb (bool_decide (anchor sel = start)) then deleteBackward e
          else if bool_decide (node_type node ∈
                    Some <$> ["missing"; "comment"; "synopsis"; "hpart"; "hscene"])
          then setNodes_here (Some (Props (Some "p") None None None)) e
          else deleteBackward e
      end
  end.

End MarkupDelete.

End Editing.

(* ===================================================================== *)
(** * Vocabulary of the specification for the editor                      *)
(* ===================================================================== *)

Module EditorSpec.
Import Slate.

(** The document [doc] with the children of the node at [pp] replaced by
    [cs']. *)
Definition with_children (pp : path) (cs' : list node) (doc : list node)
    : option (list node) :=
  children_of <$> update_children pp (fun _ => Some cs') (root doc).

(** The document [doc] with the node at [p] replaced by [n']. *)
Definition with_node (p : path) (n' : node) (doc : list node)
    : option (list node) :=
  children_of <$> update p (fun _ => Some n') (root doc).

(** A node with its [folded] flag cleared. *)
Definition unfolded (n : node) : node :=
  if default false (p_folded (props_of n))
  then set_props n (Props None None None (Some false))
  else n.

(** A node retyped. *)
Definition retyped (ty : string) (n : node) : node :=
  set_props n (Props (Some ty) None None None).

(** The node at [p] in the document. *)
Definition node_at (doc : list node) (p : path) : option node :=
  get (root doc) p.

(** [p] is the path of an element (a non-text node other than the
    editor). *)
Definition element_at (doc : list node) (p : path) : Prop :=
  p ≠ [] /\ exists pr cs, node_at doc p = Some (Element pr cs).

(** No element at or below the node is without children; every node in
    it then begins and ends with a text.  For the root of a document:
    the document is not empty, and no element in it is. *)
Fixpoint textful (n : node) : bool :=
  match n with
  | Text _ _ => true
  | Element _ cs => negb (bool_decide (cs = [])) && forallb textful cs
  end.

(** The [id] of the node at [p], if it has one. *)
Definition id_at (doc : list node) (p : path) : option string :=
  node_at doc p ≫= fun n => p_id (props_of n).

(** An editor whose document is that of [e] with the children of the
    node at [pp] (which has properties [pr]) replaced by [cs']. *)
Definition children_replaced (e : Normalize.editor) (pp : path) (pr : props)
    (cs' : list node) (e' : Normalize.editor) : Prop :=
  with_children pp cs' (Normalize.children e) = Some (Normalize.children e') /\
  node_at (Normalize.children e') pp = Some (Element pr cs') /\
  Normalize.id_calls e' = Normalize.id_calls e.

(** The identifiers present in the document. *)
Definition present_ids (doc : list node) : list string :=
  omap (fun b => p_id (props_of b.1)) (Node_nodes (root doc)).

(** The identifiers the generator hands out during one pass over the
    document (at most one per block) are non-empty, pairwise distinct and
    not yet present in the document. *)
Definition fresh_ids (nanoid : nat -> string) (e : Normalize.editor) : Prop :=
  let gen := nanoid <$> seq (Normalize.id_calls e)
                            (length (Normalize.blocks e)) in
  NoDup gen /\
  Forall (fun i => i ≠ "" /\ i ∉ present_ids (Normalize.children e)) gen.

(** The state of the enforcer after the blocks [done] of the document
    [doc0] (which was entered with [k0] identifiers generated): the
    document has the same shape, untouched nodes have the identifier they
    had, and the blocks done have non-empty, pairwise distinct
    identifiers, all recorded in [ids]. *)
Definition enforced (nanoid : nat -> string) (doc0 : list node) (k0 : nat)
    (done : list path) (ids : gset string) (e : Normalize.editor) : Prop :=
  let doc := Normalize.children e in
  (forall q, isText <$> node_at doc q = isText <$> node_at doc0 q) /\
  (forall q, q ∉ done -> id_at doc q = id_at doc0 q) /\
  (forall q, q ∈ done -> exists i, id_at doc q = Some i /\ i ≠ "" /\ i ∈ ids) /\
  (forall q q', q ∈ done -> q' ∈ done -> q ≠ q' -> id_at doc q ≠ id_at doc q') /\
  (forall i, i ∈ ids ->
     i ∈ present_ids doc0 \/
     exists n, k0 <= n < Normalize.id_calls e /\ i = nanoid n) /\
  k0 <= Normalize.id_calls e <= k0 + length done.

(** What lifting the [k]-th child [n] out of a container with
    properties [pr] and children [cs] puts in the place of the container:
    the children before [n] in the container, [n], and the children after
    it in a copy of the container; a side without children leaves no
    container. *)
Definition half (pr : props) (cs : list node) : list node :=
  match cs with
  | [] => []
  | _ => [Element pr cs]
  end.

Definition lifted_out (pr : props) (cs : list node) (k : nat) (n : node)
    : list node :=
  half pr (take k cs) ++ n :: half pr (drop (S k) cs).

(** What [liftNodes] asks of a container when it lifts child [k] out of
    it.  A child in the middle (neither the first nor the last) has the
    container split behind it, and [splitNodes] wants the next child to
    begin with a text and the container to end with one.  The first and
    the last child are moved without a split. *)
Definition liftable (pr : props) (cs : list node) (k : nat) : bool :=
  if bool_decide (k = 0) || bool_decide (S k = length cs) then true
  else from_option has_start_text false (cs !! S k)
       && has_end_text (Element pr cs).

End EditorSpec.

Module EditingSpec.
Import Slate EditorSpec Editing.

(** The selection points into the document. *)
Definition selection_valid (e : editor) : Prop :=
  forall sel, selection e = Some sel ->
    is_Some (node_at (children e) (Editor_path sel)).

(** [n], at [p], is an element strictly above the selection that
    satisfies [P]. *)
Definition above_selection (P : node -> Prop) (e : editor)
    (n : node) (p : path) : Prop :=
  exists sel, selection e = Some sel /\
    p `prefix_of` Editor_path sel /\ p ≠ Editor_path sel /\ p ≠ [] /\
    node_at (children e) p = Some n /\ isElement n = true /\ P n.


(** The choice [Editor.above] makes among the levels. *)
Definition pick (match_ : node -> path -> bool) (p0 : path)
    (lv : list (node * path)) : option (node * path) :=
  head (filter (fun l => negb (isText l.1) && negb (Path_equals p0 l.2) = true)
          (reverse (filter (fun l => match_ l.1 l.2 = true) lv))).

(** What is asked of a level: it matches, is no text, and is not the
    path of the selection itself. *)
Definition wanted (match_ : node -> path -> bool) (p0 : path)
    (n : node) (q : path) : Prop :=
  match_ n q = true /\ isText n = false /\ q ≠ p0.


(** The nearest (lowest) of the nodes satisfying [Q]. *)
Definition nearest (Q : node -> path -> Prop) (n : node) (p : path) : Prop :=
  Q n p /\ forall n' p', Q n' p' -> length p' <= length p.

(** A scene or part around the selection. *)
Definition container_ancestor : editor -> node -> path -> Prop :=
  above_selection (fun n => is_container n = true).

(** A node with its [folded] flag set. *)
Definition with_folded (b : bool) (n : node) : node :=
  set_props n (Props None None None (Some b)).

(** The properties of an element after all parts are folded or
    unfolded: a part whose flag (a missing one counts as false) differs
    gets the flag, every other element keeps its properties. *)
Definition fold_props (folded : bool) (pr : props) : props :=
  if bool_decide (p_type pr = Some "part")
     && negb (bool_decide (default false (p_folded pr) = folded))
  then merge_props pr (Props None None None (Some folded))
  else pr.

(** The tree with the flag set on every part in it. *)
Fixpoint parts_folded (folded : bool) (n : node) : node :=
  match n with
  | Text _ _ => n
  | Element pr cs => Element (fold_props folded pr) (map (parts_folded folded) cs)
  end.

(** The types whose style a backspace at the start of the block removes. *)
Definition styled (n : node) : Prop :=
  exists ty, node_type n = Some ty /\
             ty ∈ ["missing"; "comment"; "synopsis"; "hpart"; "hscene"].

(** A collapsed selection at offset [offset] of the node at [p]. *)
Definition caret (p : path) (offset : nat) : option range :=
  Some (Range_ (Point_ p offset) (Point_ p offset)).

End EditingSpec.

(* ===================================================================== *)
(** * The buffer format                                                   *)
(* ===================================================================== *)

(** The format the editor module describes for its buffer: the document
    is a list of parts; a part is its header ("hpart") followed by
    scenes; a scene is its header ("hscene") followed by paragraphs.  A
    container carries the text of its header as its [name].  Headers and
    paragraphs hold one text leaf (the editor defines no marks). *)

Module BufferFormat.
Import Slate.

(** An element holding exactly one text leaf. *)
Definition is_leafy (n : node) : bool :=
  match n with
  | Element _ [Text _ _] => true
  | _ => false
  end.

Definition is_header (ty : string) (n : node) : bool :=
  bool_decide (node_type n = Some ty) && is_leafy n.

(** Any other block: a paragraph, whatever its style. *)
Definition is_paragraph (n : node) : bool :=
  is_leafy n
  && bool_decide (node_type n ∉ [Some "hpart"; Some "hscene";
                                  Some "part"; Some "scene"]).

Definition named_by (pr : props) (h : node) : bool :=
  bool_decide (p_name pr = Some (Node_string h)).

Definition is_scene (n : node) : bool :=
  match n with
  | Element pr (h :: paragraphs) =>
      bool_decide (p_type pr = Some "scene") && is_header "hscene" h
      && named_by pr h && forallb is_paragraph paragraphs
  | _ => false
  end.

Definition is_part (n : node) : bool :=
  match n with
  | Element pr (h :: scenes) =>
      bool_decide (p_type pr = Some "part") && is_header "hpart" h
      && named_by pr h && forallb is_scene scenes
  | _ => false
  end.

Definition well_formed (doc : list node) : bool :=
  negb (bool_decide (doc = [])) && forallb is_part doc.

(** The elements of the document, in document order, and the condition
    on their identifiers: every element has one, not empty, and no two
    elements have the same. *)
Definition elements (doc : list node) : list (node * path) :=
  filter (fun b => isElement b.1 = true /\ b.2 ≠ []) (Node_nodes (root doc)).

Definition valid_ids (doc : list node) : Prop :=
  NoDup (map (fun b => p_id (props_of b.1)) (elements doc)) /\
  Forall (fun b => Normalize.no_id b.1 = false) (elements doc).

End BufferFormat.
(* ===================================================================== *)
(** * Sample inputs                                                       *)
(* ===================================================================== *)

Module BridgeSamples.
Import Bridge.

Definition wc0 : node -> counts := fun _ => Counts 0 0 0.
Definition ids0 : nat -> string := fun n =>
  "h" +:+ String.string_of_list_ascii (replicate n "i"%char).

Definition leaf (a : addr) (s : string) : node :=
  Node a None None None None None (Some s) None.

Definition para (a : addr) (ty id : string) (c : addr) (ls : list node) : node :=
  Node a (Some ty) (Some id) None None (Some (Counts 0 0 0)) None (Some (c, ls)).

Definition group (a : addr) (ty id name : string) (c : addr) (ns : list node) : node :=
  Node a (Some ty) (Some id) (Some name) None (Some (Counts 0 0 0)) None
       (Some (c, ns)).

(** One part, one scene, one paragraph of the given type. *)
Definition section_of (ty : string) : section :=
  Section_ 8 (Some (9, [
    group 6 "part" "p1" "Part" 7 [
      group 4 "scene" "s1" "Scene" 5 [
        para 2 ty "e1" 3 [leaf 1 "hello"] ] ] ])) (Some (Counts 0 0 0)).

Definition st0 : state := State 10 0 0.

(** Two paragraphs with the same id and type whose first leaves agree and
    whose second leaves differ. *)
Definition two_leaves_orig : node :=
  para 2 "p" "e1" 3 [leaf 0 "Hello "; leaf 1 "there"].
Definition two_leaves_edit : node :=
  para 12 "p" "e1" 13 [leaf 10 "Hello "; leaf 11 "world"].

(** A header element of the edit buffer. *)
Definition header (a : addr) (ty id : string) (c l : addr) (s : string) : node :=
  Node a (Some ty) (Some id) None None None None (Some (c, [leaf l s])).

(** A part or scene of the edit buffer. *)
Definition edited (a : addr) (ty id name : string) (c : addr) (ns : list node)
  : node :=
  Node a (Some ty) (Some id) (Some name) None None None (Some (c, ns)).

(** The editable image of the part of [section_of "p"]. *)
Definition image_p1 : node :=
  edited 19 "part" "p1" "Part" 18 [
    header 11 "hpart" "h" 12 10 "Part";
    edited 17 "scene" "s1" "Scene" 16 [
      header 14 "hscene" "hi" 15 13 "Scene";
      para 2 "p" "e1" 3 [leaf 1 "hello"] ] ].

(** A part typed into the editor after it. *)
Definition typed_p2 : node :=
  edited 29 "part" "n1" "" 28 [
    header 21 "hpart" "n2" 22 20 "More";
    edited 27 "scene" "n3" "" 26 [
      header 24 "hscene" "n4" 25 23 "Later";
      Node 31 (Some "p") (Some "n5") None None None None
           (Some (32, [leaf 30 "and so on"])) ] ].

Definition edited_buffer : array := (33, [image_p1; typed_p2]).

Definition st1 : state := State 34 0 2.

End BridgeSamples.


Module SlateSamples.
Import Slate.

Definition el (ty : string) (cs : list node) : node :=
  Element (Props (Some ty) None None None) cs.

Definition named (ty name : string) (cs : list node) : node :=
  Element (Props (Some ty) None (Some name) None) cs.

Definition tx (s : string) : node := Text no_props s.

(** [{type:"scene", children:[{type:"hscene", text:"Old"},
    {type:"p", text:"hi"}]}], alone at the top of the document. *)
Definition lone_scene : list node :=
  [ el "scene" [ el "hscene" [tx "Old"]; el "p" [tx "hi"] ] ].

(** The tree the scenario of the specification expects. *)
Definition lone_scene_expected : list node :=
  [ named "part" "Old"
      [ el "hpart" [tx "Old"];
        named "scene" "Old" [ el "hscene" [tx "Old"]; el "p" [tx "hi"] ] ] ].

(** The tree normalization arrives at. *)
Definition lone_scene_normal : list node :=
  [ named "part" "Old"
      [ el "hpart" [tx "Old"];
        named "scene" "hi" [ el "hscene" [tx "hi"] ] ] ].

(** Forget the identifiers. *)
Fixpoint erase_ids (n : node) : node :=
  match n with
  | Text pr s => Text (Props (p_type pr) None (p_name pr) (p_folded pr)) s
  | Element pr cs =>
      Element (Props (p_type pr) None (p_name pr) (p_folded pr)) (map erase_ids cs)
  end.

Definition ids1 : nat -> string := fun n =>
  "id" +:+ String.string_of_list_ascii (replicate n "'"%char).

(** A part whose second child is a scene that starts with a paragraph. *)
Definition part_scene_p : list node :=
  [ named "part" "A" [ el "hpart" [tx "A"]; el "scene" [ el "p" [tx "x"] ] ] ].

(** A part with two folded scenes, the second one without header. *)
Definition folded_scene (cs : list node) : node :=
  Element (Props (Some "scene") None None (Some true)) cs.

Definition two_scenes : list node :=
  [ folded_scene [ el "hscene" [tx "S"]; el "p" [tx "a"] ];
    folded_scene [ el "p" [tx "b"] ] ].

Definition two_scenes_doc : list node :=
  [ named "part" "P" (el "hpart" [tx "P"] :: two_scenes) ].

(** A part with an empty scene (its only child is an empty text) before
    a scene without header. *)
Definition empty_scene_doc : list node :=
  [ named "part" "P"
      [ el "hpart" [tx "P"];
        named "scene" "A" [ tx "" ];
        named "scene" "B" [ el "p" [tx "b"] ] ] ].

(** A part without header behind no other part. *)
Definition part_without_header : list node :=
  [ named "part" "A" [ el "p" [tx "a"]; el "scene" [ el "p" [tx "x"] ] ] ].

(** A document with a missing, an empty and a repeated identifier. *)
Definition with_id (ty : string) (id : string) (cs : list node) : node :=
  Element (Props (Some ty) (Some id) None None) cs.

Definition clashing_ids : list node :=
  [ with_id "part" "a"
      [ with_id "hpart" "a" [tx "P"];
        el "scene" [ with_id "hscene" "" [tx "S"]; with_id "p" "b" [tx "x"] ] ] ].

Definition repaired_ids : list node :=
  [ with_id "part" "a"
      [ with_id "hpart" "id" [tx "P"];
        with_id "scene" "id'"
          [ with_id "hscene" "id''" [tx "S"]; with_id "p" "b" [tx "x"] ] ] ].

(** A document in the buffer format, every element with its id. *)
Definition tidy_doc : list node :=
  [ Element (Props (Some "part") (Some "p1") (Some "P") None)
      [ with_id "hpart" "h1" [tx "P"];
        Element (Props (Some "scene") (Some "s1") (Some "S") None)
          [ with_id "hscene" "h2" [tx "S"]; with_id "p" "e1" [tx "hello"] ] ] ].

(** A paragraph directly below a part. *)
Definition stray_paragraph : list node :=
  [ named "part" "P" [ el "hpart" [tx "P"]; el "p" [tx "x"] ] ].

(** A scene with a second scene header among its paragraphs. *)
Definition two_headers : list node :=
  [ named "part" "P"
      [ el "hpart" [tx "P"];
        named "scene" "A"
          [ el "hscene" [tx "A"]; el "p" [tx "a"];
            el "hscene" [tx "B"]; el "p" [tx "b"] ] ] ].

(** A part inside a scene. *)
Definition nested_part : list node :=
  [ named "part" "P"
      [ el "hpart" [tx "P"];
        named "scene" "A"
          [ el "hscene" [tx "A"];
            named "part" "Q" [ el "hpart" [tx "Q"] ];
            el "p" [tx "a"] ] ] ].

(** A document whose first block is a paragraph. *)
Definition headless : list node :=
  [ el "part" [ el "p" [tx "x"] ] ].

End SlateSamples.

Module EditingSamples.
Import Slate Editing EditingSpec SlateSamples.

(** An underlying editor method that leaves a visible trace: it appends
    a text node with its name to the document. *)
Definition mark (name : string) : handler := fun e =>
  Some (Editor_ (children e ++ [tx name]) (selection e)).

(** One part, one scene, the header "Ch1" and one block of type [ty]
    with text [s]. *)
Definition scene_with (ty s : string) : list node :=
  [ named "part" "P"
      [ el "hpart" [tx "P"];
        named "scene" "Ch1" [ el "hscene" [tx "Ch1"]; el ty [tx s] ] ] ].

(** The same document with the scene folded. *)
Definition folded_scene_with (ty s : string) : list node :=
  [ named "part" "P"
      [ el "hpart" [tx "P"];
        Element (Props (Some "scene") None (Some "Ch1") (Some true))
          [ el "hscene" [tx "Ch1"]; el ty [tx s] ] ] ].

Definition unfolded_scene_with (ty s : string) : list node :=
  [ named "part" "P"
      [ el "hpart" [tx "P"];
        Element (Props (Some "scene") None (Some "Ch1") (Some false))
          [ el "hscene" [tx "Ch1"]; el ty [tx s] ] ] ].

(** The caret in the text of the block, and in the header. *)
Definition in_block (offset : nat) : option range := caret [0; 1; 1; 0] offset.
Definition in_header (offset : nat) : option range := caret [0; 1; 0; 0] offset.

End EditingSamples.
(* ===================================================================== *)
(** * Theorems: the Doc <-> Slate bridge                                  *)
(* ===================================================================== *)

Section BridgeFacts.
Import Bridge BridgeSpec.

Variable wcElem : node -> counts.
Variable nanoid : nat -> string.

(** ** The monad *)

Lemma bind_inr {A B} (m : M A) (k : A -> M B) st a st' :
  m st = inr (a, st') -> (m ≫= k) st = k a st'.
Proof. intros H. unfold mbind, M_bind. by rewrite H. Qed.

Lemma bind_inl {A B} (m : M A) (k : A -> M B) st e :
  m st = inl e -> (m ≫= k) st = inl e.
Proof. intros H. unfold mbind, M_bind. by rewrite H. Qed.

(** A computation whose continuation always throws, throws. *)
Lemma bind_throws {A B} (m : M A) (k : A -> M B) st :
  (forall a st', exists e, k a st' = inl e) ->
  exists e, (m ≫= k) st = inl e.
Proof.
  intros Hk. unfold mbind, M_bind.
  destruct (m st) as [e|[a st']]; [by exists e | apply Hk].
Qed.

Lemma mapM_quiet {A B} (R : A -> B -> Prop) (f : A -> M B) (l : list A) :
  Forall (quiet R f) l ->
  quiet (Forall2 R) (mapM f) l.
Proof.
  induction 1 as [|x l Hx Hl IH]; intros st.
  - exists [], st. split; [done|]. split; [constructor|done].
  - destruct (Hx st) as (y & st1 & E1 & R1 & W1).
    destruct (IH st1) as (ys & st2 & E2 & R2 & W2).
    exists (y :: ys), st2. split; [|split].
    + cbn [mapM]. rewrite (bind_inr _ _ _ _ _ E1).
      by rewrite (bind_inr _ _ _ _ _ E2).
    + by constructor.
    + congruence.
Qed.

Lemma array_map_quiet (R : node -> node -> Prop) f (a : array) :
  Forall (quiet R f) a.2 ->
  quiet (fun a b => Forall2 R a.2 b.2) (array_map f) a.
Proof.
  intros H st. destruct (mapM_quiet R f _ H st) as (ys & st1 & E & HR & W).
  eexists (_, ys), _. split; [|split].
  - unfold array_map. rewrite (bind_inr _ _ _ _ _ E). reflexivity.
  - done.
  - done.
Qed.

(** ** Comparison helpers *)

Lemma same_node_refl n : same_node n n = true.
Proof. unfold same_node. by rewrite bool_decide_eq_true. Qed.

Lemma forallb_imap_same (l l' : list node) k :
  (forall i x, l !! i = Some x -> l' !! (k + i) = Some x) ->
  forallb (fun '(index, elem) =>
     match l' !! index with
     | Some x => same_node elem x
     | None => false
     end) (imap (fun i => pair (k + i)) l) = true.
Proof.
  revert k. induction l as [|x l IH]; intros k H; [done|].
  cbn [imap forallb]. rewrite (H 0 x eq_refl), same_node_refl. cbn.
  rewrite <- (IH (S k)).
  - f_equal. apply imap_ext. intros i y _. cbn. f_equal. lia.
  - intros i y Hi. specialize (H (S i) y Hi).
    by replace (S k + i) with (k + S i) by lia.
Qed.

(** Arrays with the same elements compare equal, whatever their
    addresses. *)
Lemma cmpList_same_elems a b (l : list node) st :
  cmpList (Some (a, l)) (Some (b, l)) st = inr (true, st).
Proof.
  unfold cmpList, mret, M_ret. cbn. do 2 f_equal. case_bool_decide; [done|].
  rewrite bool_decide_eq_true_2 by done. cbn.
  apply (forallb_imap_same l l 0). by intros.
Qed.

(** ** The lookup *)

Lemma foldl_insert_lookup (l : list node) (m : gmap (option string) node) x :
  NoDup (map n_id l) -> x ∈ l ->
  foldl (fun m n => <[n_id n := n]> m) m l !! n_id x = Some x.
Proof.
  revert m. induction l as [|y l IH]; intros m Hnd Hx.
  - by apply elem_of_nil in Hx.
  - cbn in Hnd. apply NoDup_cons in Hnd as [Hy Hnd]. cbn [foldl].
    apply elem_of_cons in Hx as [->|Hx]; [|by apply IH].
    clear IH. revert m Hy. induction l as [|z l IH]; intros m Hy.
    + cbn. by rewrite lookup_insert_eq.
    + cbn [foldl]. cbn in Hy, Hnd. apply NoDup_cons in Hnd as [Hz Hnd].
      apply not_elem_of_cons in Hy as [Hyz Hy].
      rewrite (insert_insert_ne m); [|done]. by apply IH.
Qed.

(** ** Doc --> Slate keeps the persisted nodes *)

#[local] Arguments array_map : simpl never.
#[local] Arguments new_header : simpl never.
#[local] Arguments checkClean : simpl never.

Ltac mrun :=
  repeat progress
    (unfold mbind, M_bind, mret, M_ret, alloc, array_rest, call_nanoid,
       call_wcElem, defined, throw; cbn).

Lemma new_header_quiet ty name st :
  exists h st', new_header nanoid ty name st = inr (h, st') /\
                wc_calls st' = wc_calls st.
Proof. unfold new_header, new_leaf. mrun. by eexists _, _. Qed.

Lemma elem2edit_quiet e :
  n_type e ≠ Some "br" -> quiet (fun x y => y = x) elem2edit e.
Proof.
  intros H st. exists e, st. unfold elem2edit.
  by rewrite decide_False.
Qed.

Lemma Forall2_flip_eq {A} (l l' : list A) :
  Forall2 (fun x y => y = x) l l' -> l' = l.
Proof. induction 1; congruence. Qed.

Lemma scene2edit_quiet sc :
  persisted_scene sc ->
  Forall (fun n => n_type n ≠ Some "br") (node_children sc) ->
  quiet edit_of_scene (scene2edit nanoid) sc.
Proof.
  intros [Hty [[c es] Hc]] Hbr st. unfold scene2edit.
  unfold node_children in Hbr. rewrite Hc in Hbr.
  set (st1 := State (S (S (next st))) (wc_calls st) (id_calls st)).
  destruct (new_header_quiet "hscene" (n_name sc) st1) as (h & st2 & Eh & Wh).
  destruct (array_map_quiet (fun x y => y = x) elem2edit (c, es)) with (st := st2)
    as ([r ys] & st3 & E & HR & W).
  { cbn. eapply Forall_impl; [exact Hbr|]. intros e. apply elem2edit_quiet. }
  cbn in HR. apply Forall2_flip_eq in HR as ->.
  eexists _, st3. split; [|split].
  - mrun. fold st1. rewrite Eh, Hc. cbn. rewrite E. reflexivity.
  - exists (next st), (S (next st)), h. unfold node_children. by rewrite Hc.
  - cbn in *. congruence.
Qed.

Lemma part2edit_quiet p :
  persisted_part p ->
  Forall (fun n => n_type n ≠ Some "br") (part_nodes p) ->
  quiet edit_of_part (part2edit nanoid) p.
Proof.
  intros (Hty & [[c ss] Hc] & Hss) Hbr st. unfold part2edit.
  unfold part_nodes in Hbr. apply Forall_cons in Hbr as [_ Hbr].
  unfold node_children in Hss, Hbr. rewrite Hc in Hss, Hbr.
  set (st1 := State (S (S (next st))) (wc_calls st) (id_calls st)).
  destruct (new_header_quiet "hpart" (n_name p) st1) as (h & st2 & Eh & Wh).
  destruct (array_map_quiet edit_of_scene (scene2edit nanoid) (c, ss))
    with (st := st2) as ([r ys] & st3 & E & HR & W).
  { cbn. apply Forall_forall. intros sc Hsc. apply scene2edit_quiet.
    - by eapply Forall_forall in Hss.
    - apply Forall_forall. intros e He.
      eapply Forall_forall in Hbr; [exact Hbr|].
      apply list_elem_of_In, in_concat. exists (scene_nodes sc). split.
      + apply in_map. by apply list_elem_of_In.
      + apply list_elem_of_In. unfold scene_nodes. by apply elem_of_cons; right. }
  eexists _, st3. split; [|split].
  - mrun. fold st1. rewrite Eh, Hc. cbn. rewrite E. reflexivity.
  - exists (next st), (S (next st)), h, ys. unfold node_children.
    by rewrite Hc.
  - cbn in *. congruence.
Qed.

(** ** Slate --> Doc finds them again *)

Section WithLookup.

Variable m : gmap (option string) node.

Lemma checkClean_same e st :
  indexed m e -> checkClean wcElem e (LMap m) st = inr (e, st).
Proof.
  intros H. unfold checkClean. rewrite H, same_node_refl. reflexivity.
Qed.

Lemma checkClean_group a ty r sc cs st :
  indexed m sc ->
  n_type sc = Some ty -> (ty = "part" \/ ty = "scene") ->
  n_children sc = Some cs ->
  checkClean wcElem
    (Node a (Some ty) (n_id sc) (n_name sc) (n_folded sc) None None
          (Some (r, cs.2))) (LMap m) st = inr (sc, st).
Proof.
  intros Hm Hty Hps Hc. unfold checkClean. cbn [n_id]. rewrite Hm.
  destruct (same_node _ sc); [done|].
  unfold cmpType. cbn [n_id n_type]. rewrite Hty.
  rewrite !bool_decide_eq_true_2 by done. cbn [andb].
  rewrite decide_True by (destruct Hps as [-> | ->]; auto).
  unfold cmpNamedGroup, cmpTypeName, cmpType, cmpChildren.
  cbn [n_id n_type n_name n_folded n_children]. rewrite Hty, Hc.
  rewrite !bool_decide_eq_true_2 by done. destruct cs as [b l].
  cbn [andb snd]. unfold mbind, M_bind. by rewrite cmpList_same_elems.
Qed.

Lemma edit2scene_back sc y :
  edit_of_scene sc y -> persisted_scene sc ->
  indexed m sc -> Forall (indexed m) (node_children sc) ->
  quiet (fun y x => x = sc) (edit2scene wcElem (LMap m)) y.
Proof.
  intros (a & c & h & ->) [Hty [[b es] Hc]] Hsc Hes st.
  unfold node_children in *. rewrite Hc in *.
  unfold edit2scene. cbn [n_children n_id n_name n_folded].
  set (st1 := State (S (S (next st))) (wc_calls st) (id_calls st)).
  destruct (array_map_quiet (fun x y => y = x)
              (fun p => edit2paragraph wcElem p (LMap m)) (next st, es))
    with (st := st1) as ([r ys] & st2 & E & HR & W).
  { cbn. eapply Forall_impl; [exact Hes|]. intros e He st'.
    exists e, st'. unfold edit2paragraph. by rewrite checkClean_same. }
  cbn in HR. apply Forall2_flip_eq in HR as ->.
  exists sc, st2. split; [|split; [done|]].
  - mrun. fold st1. rewrite E.
    by rewrite (checkClean_group _ "scene" r sc (b, es)); auto.
  - cbn in *. congruence.
Qed.

Lemma edit2part_back p y :
  edit_of_part p y -> persisted_part p ->
  Forall (indexed m) (part_nodes p) ->
  quiet (fun y x => x = p) (edit2part wcElem (LMap m)) y.
Proof.
  intros (a & c & h & ys & -> & Hys) (Hty & [[b ss] Hc] & Hss) Hm st.
  unfold part_nodes in Hm. apply Forall_cons in Hm as [Hp Hm].
  unfold node_children in *. rewrite Hc in *.
  unfold edit2part. cbn [n_children n_id n_name n_folded].
  set (st1 := State (S (S (next st))) (wc_calls st) (id_calls st)).
  assert (forall st, exists st', mapM (edit2scene wcElem (LMap m)) ys st
                                 = inr (ss, st') /\ wc_calls st' = wc_calls st)
    as Hmap.
  { clear -Hys Hss Hm. induction Hys as [|sc y ss ys Hy Hys IH]; intros st.
    - by exists st.
    - apply Forall_cons in Hss as [Hsc Hss].
      cbn in Hm. apply Forall_cons in Hm as [Hi Hm].
      apply Forall_app in Hm as [Hes Hm].
      destruct (edit2scene_back sc y Hy Hsc Hi Hes st)
        as (x & st1 & E1 & -> & W1).
      destruct (IH Hss Hm st1) as (st2 & E2 & W2).
      exists st2. split; [|congruence].
      cbn [mapM]. rewrite (bind_inr _ _ _ _ _ E1).
      by rewrite (bind_inr _ _ _ _ _ E2). }
  destruct (Hmap st1) as (st2 & E & W).
  eexists p, _. split; [|split; [done|]].
  - mrun. fold st1. unfold array_map. cbn. rewrite (bind_inr _ _ _ _ _ E).
    mrun. by rewrite (checkClean_group _ "part" _ p (b, ss)); auto.
  - cbn in *. congruence.
Qed.

End WithLookup.

(** ** Round trip of an unmodified section *)

Lemma section_nodes_indexed s x :
  persisted s -> x ∈ section_nodes s ->
  indexed (section2lookup s) x.
Proof.
  intros (_ & _ & Hnd) Hx. unfold indexed, section2lookup.
  by apply foldl_insert_lookup.
Qed.

Lemma part_nodes_subset s p x :
  p ∈ section_parts s -> x ∈ part_nodes p -> x ∈ section_nodes s.
Proof.
  unfold section_parts, section_nodes. destruct (s_parts s) as [[a ps]|].
  - intros Hp Hx. apply list_elem_of_In, in_concat. exists (part_nodes p).
    split; [apply in_map|]; by apply list_elem_of_In.
  - intros Hp. by apply elem_of_nil in Hp.
Qed.

(** C1 (amended).  For every persisted section (parts typed "part",
    scenes typed "scene", pairwise distinct ids) that contains no legacy
    "br" node, [updateSection(section2edit(section), section)] returns
    the very object [section]: every committed part is the persisted part
    itself (hence, objects being immutable, every scene and paragraph
    below it), and the word counter is never called. *)
Theorem roundtrip_reuse_stability s st :
  persisted s -> no_br s ->
  exists buffer st1 updated st2 st3,
    section2edit nanoid s st = inr (buffer, st1) /\
    array_map (edit2part wcElem (LMap (section2lookup s))) buffer st1
      = inr (updated, st2) /\
    updated.2 = section_parts s /\
    roundtrip wcElem nanoid s st = inr (s, st3) /\
    wc_calls st3 = wc_calls st.
Proof.
  intros Hp Hbr. pose proof Hp as ([[pa ps] Hparts] & Hps & Hnd).
  assert (section_parts s = ps) as Eps by (unfold section_parts; by rewrite Hparts).
  rewrite Eps in Hps.
  assert (forall p x, p ∈ ps -> x ∈ part_nodes p -> x ∈ section_nodes s) as Hsub.
  { intros p x Hin. apply part_nodes_subset. by rewrite Eps. }
  destruct (array_map_quiet edit_of_part (part2edit nanoid) (pa, ps))
    with (st := st) as ([r ys] & st1 & E1 & HR & W1).
  { cbn. apply Forall_forall. intros p Hin. apply part2edit_quiet.
    - by eapply Forall_forall in Hps.
    - apply Forall_forall. intros x Hx.
      eapply (proj1 (Forall_forall _ _) Hbr), Hsub; eauto. }
  cbn in HR.
  assert (forall st, exists st',
            mapM (edit2part wcElem (LMap (section2lookup s))) ys st
              = inr (ps, st') /\ wc_calls st' = wc_calls st) as Hmap.
  { clear E1 W1 Eps Hparts. induction HR as [|p y ps ys Hy Hys IH]; intros st'.
    - by exists st'.
    - apply Forall_cons in Hps as [Hp1 Hps].
      destruct (edit2part_back (section2lookup s) p y Hy Hp1) with (st := st')
        as (x & st2 & E2 & -> & W2).
      { apply Forall_forall. intros x Hx. apply section_nodes_indexed; [done|].
        eapply Hsub; [|exact Hx]. by left. }
      destruct (IH Hps) with (st := st2) as (st3 & E3 & W3).
      { intros q x Hq. apply Hsub. by right. }
      exists st3. split; [|congruence].
      cbn [mapM]. rewrite (bind_inr _ _ _ _ _ E2).
      by rewrite (bind_inr _ _ _ _ _ E3). }
  destruct (Hmap st1) as (st2 & E2 & W2).
  exists (r, ys), st1, (next st2, ps),
    (State (S (next st2)) (wc_calls st2) (id_calls st2)),
    (State (S (next st2)) (wc_calls st2) (id_calls st2)).
  assert (array_map (edit2part wcElem (LMap (section2lookup s))) (r, ys) st1
          = inr ((next st2, ps),
                 State (S (next st2)) (wc_calls st2) (id_calls st2))) as E3.
  { unfold array_map. cbn. by rewrite (bind_inr _ _ _ _ _ E2). }
  split; [|split; [|split; [|split]]].
  - unfold section2edit. rewrite Hparts. exact E1.
  - done.
  - done.
  - unfold roundtrip, section2edit. rewrite Hparts. cbn [defined].
    unfold mbind at 2, M_bind, mret at 1, M_ret. rewrite (bind_inr _ _ _ _ _ E1).
    unfold updateSection. rewrite (bind_inr _ _ _ _ _ E3), Hparts.
    unfold mbind, M_bind. by rewrite cmpList_same_elems.
  - cbn in *. congruence.
Qed.

(** ** Paragraphs *)

(** C9 (amended).  For an editable paragraph-family node (type other than
    "part", "scene" and "br") whose id is in the lookup, [checkClean]
    returns the lookup entry [orig] itself exactly when the node is that
    very object, or it has the same id and the same type as [orig] and the
    text of its FIRST child leaf equals the text of [orig]'s first child
    leaf; otherwise the paragraph is rebuilt with a fresh word count. *)
Theorem checkClean_paragraph_reuse elem orig m st ce e0 es co o0 os :
  m !! n_id elem = Some orig ->
  n_type elem ≠ Some "part" -> n_type elem ≠ Some "scene" ->
  n_type elem ≠ Some "br" ->
  n_children elem = Some (ce, e0 :: es) ->
  n_children orig = Some (co, o0 :: os) ->
  (checkClean wcElem elem (LMap m) st = inr (orig, st) <->
     n_addr elem = n_addr orig \/
     (n_id elem = n_id orig /\ n_type elem = n_type orig /\
      n_text e0 = n_text o0)) /\
  (checkClean wcElem elem (LMap m) st ≠ inr (orig, st) ->
     checkClean wcElem elem (LMap m) st = rebuild wcElem elem st).
Proof using wcElem.
  clear nanoid.
  intros Hm Hp Hs Hb Hce Hco.
  assert (forall x, rebuild wcElem elem st ≠ inr (x, st)) as Hfresh.
  { intros x. unfold rebuild. mrun. intros [= _ H]. destruct st; cbn in H.
    injection H. lia. }
  unfold checkClean. rewrite Hm. unfold same_node.
  case_bool_decide as Ha; [split; [split; auto|done]|].
  unfold cmpType.
  case_bool_decide as Hid; cbn [andb];
    [|split; [split; [by intros ?%Hfresh|tauto]|done]].
  case_bool_decide as Hty; cbn [andb];
    [|split; [split; [by intros ?%Hfresh|tauto]|done]].
  rewrite decide_False by tauto. rewrite decide_False by done.
  unfold first_text. rewrite Hce, Hco. mrun.
  case_bool_decide as Ht; [split; [split; auto|done]|].
  split; [split; [by intros ?%Hfresh|tauto]|done].
Qed.

Lemma string_app_empty (s : string) : s +:+ "" = s.
Proof.
  induction s as [|c s IH]; [done|].
  change (String c (s +:+ "") = String c s). by rewrite IH.
Qed.

(** When both paragraphs consist of a single text leaf, the compared text
    is the whole text of the paragraph. *)
Lemma single_leaf_text elem orig ce e0 co o0 s t :
  n_text elem = None -> n_text orig = None ->
  n_children elem = Some (ce, [e0]) -> n_children orig = Some (co, [o0]) ->
  n_text e0 = Some s -> n_text o0 = Some t ->
  n_text e0 = n_text o0 <-> node_string elem = node_string orig.
Proof.
  intros He Ho Hce Hco Hs Ht. destruct elem, orig, e0, o0; cbn in *; subst.
  cbn. rewrite !string_app_empty. split; congruence.
Qed.

(** ** Committing without a previous section *)

Lemma edit2part_plain_throws part st :
  exists e, edit2part wcElem LPlain part st = inl e.
Proof.
  unfold edit2part. do 4 (apply bind_throws; intros ? ?).
  by eexists.
Qed.

(** C10.  With [null] or [undefined] as previous section,
    [updateSection] throws for every non-empty buffer. *)
Theorem updateSection_requires_section (buffer : array) sec st :
  buffer.2 ≠ [] -> sec = JNull \/ sec = JUndefined ->
  exists e, updateSection wcElem buffer sec st = inl e.
Proof.
  intros Hne Hsec. destruct buffer as [a [|part rest]]; [done|].
  destruct (edit2part_plain_throws part st) as [e He].
  exists e. unfold updateSection.
  assert ((match sec with JObj s => LMap (section2lookup s) | _ => LPlain end)
          = LPlain) as -> by (by destruct Hsec as [-> | ->]).
  apply bind_inl. unfold array_map. apply bind_inl. cbn [snd mapM].
  by apply bind_inl.
Qed.

(** The first exception met is the call of the missing [has] method as
    soon as the first part of the buffer has an iterable [children]. *)
Lemma updateSection_has_not_a_function a part rest sec st :
  is_Some (n_children part) ->
  Forall (fun sc => is_Some (n_children sc)) (tail (node_children part)) ->
  sec = JNull \/ sec = JUndefined ->
  updateSection wcElem (a, part :: rest) sec st
    = inl (TypeError "lookup.has is not a function").
Proof.
  intros [[c ss] Hc] Hss Hsec. unfold updateSection.
  assert ((match sec with JObj s => LMap (section2lookup s) | _ => LPlain end)
          = LPlain) as -> by (by destruct Hsec as [-> | ->]).
  apply bind_inl. unfold array_map. apply bind_inl. cbn [snd mapM].
  apply bind_inl. unfold edit2part. rewrite Hc. mrun.
  unfold node_children in Hss. rewrite Hc in Hss. cbn in Hss.
  destruct (tail ss) as [|sc scs]; [done|].
  apply Forall_cons in Hss as [[[d ps] Hd] _].
  unfold array_map. mrun. unfold edit2scene. rewrite Hd. mrun.
  destruct (tail ps) as [|p ps']; [done|]. unfold array_map. by mrun.
Qed.

(** Even for the empty buffer the commit fails, on [section.parts]. *)
Lemma updateSection_empty_buffer a sec st :
  sec = JNull \/ sec = JUndefined ->
  updateSection wcElem (a, []) sec st
    = inl (TypeError "Cannot read properties of null (reading 'parts')").
Proof. by intros [-> | ->]. Qed.

End BridgeFacts.

(** ** Concrete runs of the bridge *)

Section BridgeRuns.
Import Bridge BridgeSamples.

Lemma section_of_persisted ty : persisted (section_of ty).
Proof.
  split; [by eexists|]. split.
  - repeat first [apply Forall_cons; split | apply Forall_nil
                 | split | by eexists | reflexivity].
  - apply (bool_decide_unpack _). by vm_compute.
Qed.

(** Witness of C1 (amended): a section with one part, one scene and one
    paragraph of type "p". *)
Lemma roundtrip_reuse_stability_witness :
  exists buffer st1 updated st2 st3,
    section2edit ids0 (section_of "p") st0 = inr (buffer, st1) /\
    array_map (edit2part wc0 (LMap (section2lookup (section_of "p"))))
      buffer st1 = inr (updated, st2) /\
    updated.2 = section_parts (section_of "p") /\
    roundtrip wc0 ids0 (section_of "p") st0 = inr (section_of "p", st3) /\
    wc_calls st3 = wc_calls st0.
Proof.
  apply (roundtrip_reuse_stability wc0 ids0 (section_of "p") st0).
  - apply section_of_persisted.
  - apply (bool_decide_unpack _). by vm_compute.
Defined.

(** C1 as stated fails: a persisted section holding a legacy "br" node
    does not come back by reference.  The "br" node is rewritten to "p",
    so the paragraph, its scene, its part and the section are rebuilt and
    the word counter runs four times. *)
Lemma roundtrip_br_not_reused :
  persisted (section_of "br") /\
  exists s' st',
    roundtrip wc0 ids0 (section_of "br") st0 = inr (s', st') /\
    s_addr s' ≠ s_addr (section_of "br") /\
    wc_calls st' = 4.
Proof.
  split; [apply section_of_persisted|].
  eexists _, _. split; [by vm_compute|]. split; [by vm_compute|done].
Qed.

(** Witness of C9 (amended): the same paragraph object is reused. *)
Lemma checkClean_paragraph_reuse_witness :
  (checkClean wc0 two_leaves_orig (LMap {[ Some "e1" := two_leaves_orig ]}) st0
     = inr (two_leaves_orig, st0) <->
   n_addr two_leaves_orig = n_addr two_leaves_orig \/
   (n_id two_leaves_orig = n_id two_leaves_orig /\
    n_type two_leaves_orig = n_type two_leaves_orig /\
    n_text (leaf 0 "Hello ") = n_text (leaf 0 "Hello "))) /\
  (checkClean wc0 two_leaves_orig (LMap {[ Some "e1" := two_leaves_orig ]}) st0
     ≠ inr (two_leaves_orig, st0) ->
   checkClean wc0 two_leaves_orig (LMap {[ Some "e1" := two_leaves_orig ]}) st0
     = rebuild wc0 two_leaves_orig st0).
Proof.
  apply (checkClean_paragraph_reuse wc0 two_leaves_orig two_leaves_orig
           {[ Some "e1" := two_leaves_orig ]} st0
           3 (leaf 0 "Hello ") [leaf 1 "there"]
           3 (leaf 0 "Hello ") [leaf 1 "there"]);
    first [reflexivity | discriminate].
Defined.

(** C9 as stated fails: the edited paragraph has the same id and type as
    the persisted one and a different text ("Hello world" against
    "Hello there"), yet the persisted node is reused, because only the
    first leaf is compared. *)
Lemma checkClean_ignores_later_leaves :
  node_string two_leaves_edit = "Hello world" /\
  node_string two_leaves_orig = "Hello there" /\
  n_id two_leaves_edit = n_id two_leaves_orig /\
  n_type two_leaves_edit = n_type two_leaves_orig /\
  checkClean wc0 two_leaves_edit (LMap {[ Some "e1" := two_leaves_orig ]}) st0
    = inr (two_leaves_orig, st0).
Proof. repeat split; by vm_compute. Qed.

(** Witness of C10: committing the editable image of a section against
    [null]. *)
Lemma updateSection_requires_section_witness :
  exists e,
    updateSection wc0 (0, [group 6 "part" "p1" "Part" 7 []]) JNull st0 = inl e.
Proof.
  apply (updateSection_requires_section wc0
           (0, [group 6 "part" "p1" "Part" 7 []]) JNull st0).
  - discriminate.
  - by left.
Defined.

End BridgeRuns.

(* ===================================================================== *)
(** * Theorems: documents and paths                                       *)
(* ===================================================================== *)

Section SlateFacts.
Import Slate EditorSpec.

Lemma last_snoc_path (p : path) i : last (p ++ [i]) = Some i.
Proof. apply last_snoc. Qed.

Lemma removelast_snoc (p : path) i : removelast (p ++ [i]) = p.
Proof. apply removelast_last. Qed.

Lemma Path_parent_snoc (p : path) i : Path_parent (p ++ [i]) = Some p.
Proof.
  unfold Path_parent. rewrite removelast_snoc. by destruct p.
Qed.

Lemma Path_previous_snoc (p : path) i :
  Path_previous (p ++ [S i]) = Some (p ++ [i]).
Proof.
  unfold Path_previous. rewrite last_snoc_path. cbn. by rewrite removelast_snoc.
Qed.

Lemma Path_previous_first (p : path) : Path_previous (p ++ [0]) = None.
Proof. unfold Path_previous. by rewrite last_snoc_path. Qed.

Lemma Path_next_snoc (p : path) i : Path_next (p ++ [i]) = Some (p ++ [S i]).
Proof.
  unfold Path_next. rewrite last_snoc_path. cbn. by rewrite removelast_snoc.
Qed.

Lemma snoc_not_nil (p : path) i : p ++ [i] ≠ [].
Proof. by destruct p. Qed.

Lemma get_app r (p q : path) : get r (p ++ q) = get r p ≫= fun n => get n q.
Proof.
  revert r. induction p as [|i p IH]; intros r; [done|].
  cbn. destruct r as [|pr c]; [done|].
  destruct (c !! i) as [m|]; [apply IH|done].
Qed.

Lemma get_snoc r (p : path) i n :
  get r p = Some n -> get r (p ++ [i]) = children_of n !! i.
Proof.
  intros H. rewrite get_app, H. cbn. destruct n as [|pr c]; cbn; [done|].
  by destruct (c !! i).
Qed.

Lemma update_app (p q : path) f r :
  update (p ++ q) f r = update p (update q f) r.
Proof.
  revert r. induction p as [|i p IH]; intros r; [done|].
  cbn. destruct r as [|pr c]; [done|].
  destruct (c !! i) as [m|]; [|done]. cbn. by rewrite IH.
Qed.

(** [update] only looks at the node it replaces. *)
Lemma update_at (p : path) f r n :
  get r p = Some n -> update p f r = update p (fun _ => f n) r.
Proof.
  revert r. induction p as [|i p IH]; intros r H; cbn in *; [congruence|].
  destruct r as [|pr c]; [done|].
  destruct (c !! i) as [m|]; [|done]. cbn in *. by rewrite (IH m H).
Qed.

Lemma update_get (p : path) r n n' :
  get r p = Some n ->
  exists r', update p (fun _ => Some n') r = Some r' /\ get r' p = Some n'.
Proof.
  revert r. induction p as [|i p IH]; intros r H; cbn in *; [by eexists|].
  destruct r as [|pr c]; [done|].
  destruct (c !! i) as [m|] eqn:E; [|done]. cbn in *.
  destruct (IH m H) as (m' & -> & Hm'). cbn. eexists. split; [done|]. cbn.
  rewrite list_lookup_insert_eq; [done|]. by eapply lookup_lt_Some.
Qed.

(** Replacing twice is replacing by the second. *)
Lemma update_twice (p : path) r r1 n1 n2 :
  update p (fun _ => Some n1) r = Some r1 ->
  update p (fun _ => Some n2) r1 = update p (fun _ => Some n2) r.
Proof.
  revert r r1. induction p as [|i p IH]; intros r r1 H; cbn in *; [done|].
  destruct r as [|pr c]; [done|].
  destruct (c !! i) as [m|] eqn:E; [|done]. cbn in *.
  destruct (update p (fun _ => Some n1) m) as [m1|] eqn:E1; [|done].
  cbn in H. injection H as <-. cbn.
  rewrite list_lookup_insert_eq by (by eapply lookup_lt_Some). cbn.
  rewrite (IH m m1 E1).
  destruct (update p (fun _ => Some n2) m); cbn; [|done].
  by rewrite list_insert_insert_eq.
Qed.

Lemma update_same (p : path) r n :
  get r p = Some n -> update p (fun _ => Some n) r = Some r.
Proof.
  revert r. induction p as [|i p IH]; intros r H; cbn in *; [done|].
  destruct r as [|pr c]; [done|].
  destruct (c !! i) as [m|] eqn:E; [|done]. cbn in *.
  rewrite (IH m H). cbn. by rewrite list_insert_id.
Qed.

(** The root stays the root. *)
Lemma update_root (p : path) f c r' :
  p ≠ [] -> update p f (root c) = Some r' -> r' = root (children_of r').
Proof.
  destruct p as [|i p]; [done|]. intros _. cbn.
  destruct (c !! i) as [m|]; [|done]. cbn.
  destruct (update p f m); [|done]. cbn. by intros [= <-].
Qed.

Lemma update_children_at (pp : path) g r pr cs cs' :
  get r pp = Some (Element pr cs) -> g cs = Some cs' ->
  update_children pp g r = update pp (fun _ => Some (Element pr cs')) r.
Proof.
  intros H Hg. unfold update_children. rewrite (update_at _ _ _ _ H).
  by rewrite Hg.
Qed.

Lemma update_children_none (pp : path) g r pr cs :
  get r pp = Some (Element pr cs) -> g cs = None ->
  update_children pp g r = None.
Proof.
  intros H Hg. unfold update_children. rewrite (update_at _ _ _ _ H), Hg.
  cbn. clear Hg. revert r H. induction pp as [|i p IH]; intros r H; [done|].
  cbn in *. destruct r as [|pr' c]; [done|].
  destruct (c !! i) as [m|]; [|done]. cbn in *. by rewrite (IH m H).
Qed.

(** Replacing the child [i] of the node at [pp]. *)
Lemma update_snoc (pp : path) i f r pr cs n n' :
  get r pp = Some (Element pr cs) -> cs !! i = Some n -> f n = Some n' ->
  update (pp ++ [i]) f r
    = update pp (fun _ => Some (Element pr (<[i := n']> cs))) r.
Proof.
  intros H Hi Hf. rewrite update_app, (update_at _ _ _ _ H). cbn.
  by rewrite Hi; cbn; rewrite Hf.
Qed.

Lemma with_children_spec (pp : path) doc pr cs cs' :
  node_at doc pp = Some (Element pr cs) ->
  exists doc', with_children pp cs' doc = Some doc' /\
               node_at doc' pp = Some (Element pr cs') /\
               update pp (fun _ => Some (Element pr cs')) (root doc)
                 = Some (root doc').
Proof.
  unfold with_children, node_at. intros H.
  rewrite (update_children_at _ _ _ pr cs cs' H eq_refl).
  destruct (update_get pp _ _ (Element pr cs') H) as (r' & E & G).
  rewrite E. cbn. exists (children_of r'). split; [done|].
  destruct pp as [|i pp].
  - unfold root in *. cbn in *. injection E as <-. injection H as <- <-.
    by split.
  - assert (i :: pp ≠ []) as Hne by done.
    rewrite <- (update_root _ _ _ _ Hne E). by split.
Qed.

(** ** Nodes that contain text *)

Lemma node_induction (P : node -> Prop) :
  (forall pr s, P (Text pr s)) ->
  (forall pr cs, Forall P cs -> P (Element pr cs)) ->
  forall n, P n.
Proof.
  intros HT HE. fix IH 1. intros [pr s|pr cs]; [apply HT|].
  apply HE. induction cs as [|c cs IHcs]; constructor; [apply IH|exact IHcs].
Qed.

Lemma forallb_Forall {A} (f : A -> bool) l :
  forallb f l = true <-> Forall (fun x => f x = true) l.
Proof.
  induction l as [|x l IH]; cbn; [by split|].
  rewrite andb_true_iff, IH, Forall_cons. done.
Qed.

Lemma textful_element pr cs :
  textful (Element pr cs) = true <->
  cs ≠ [] /\ Forall (fun c => textful c = true) cs.
Proof.
  cbn [textful]. rewrite andb_true_iff, negb_true_iff, bool_decide_eq_false.
  by rewrite forallb_Forall.
Qed.

Lemma textful_start n : textful n = true -> has_start_text n = true.
Proof.
  induction n as [pr s|pr cs IH] using node_induction; [done|].
  intros [Hne Hcs]%textful_element. destruct cs as [|c cs]; [done|].
  apply Forall_cons in IH as [IH _]. apply Forall_cons in Hcs as [Hc _].
  cbn. by apply IH.
Qed.

Lemma textful_end n : textful n = true -> has_end_text n = true.
Proof.
  induction n as [pr s|pr cs IH] using node_induction; [done|].
  intros [Hne Hcs]%textful_element. cbn.
  induction cs as [|c cs IHcs]; [done|].
  apply Forall_cons in IH as [Hc IH]. apply Forall_cons in Hcs as [Hc' Hcs].
  destruct cs as [|c' cs]; [by apply Hc|]. by apply IHcs.
Qed.

Lemma textful_get r (p : path) n :
  textful r = true -> get r p = Some n -> textful n = true.
Proof.
  revert r. induction p as [|i p IH]; intros r Hr H; cbn in H.
  - by injection H as <-.
  - destruct r as [|pr c]; [done|]. destruct (c !! i) as [m|] eqn:E; [|done].
    cbn in H. apply textful_element in Hr as [_ Hc].
    eapply IH; [|exact H]. by eapply Forall_lookup_1 in Hc.
Qed.

Lemma textful_update (p : path) r n' r' :
  textful r = true -> textful n' = true ->
  update p (fun _ => Some n') r = Some r' -> textful r' = true.
Proof.
  revert r r'. induction p as [|i p IH]; intros r r' Hr Hn H; cbn in H.
  - by injection H as <-.
  - destruct r as [|pr c]; [done|]. destruct (c !! i) as [m|] eqn:E; [|done].
    cbn in H. destruct (update p _ m) as [m'|] eqn:Em; [|done].
    cbn in H. injection H as <-.
    apply textful_element in Hr as [Hne Hc]. apply textful_element. split.
    + intros Hnil. apply (f_equal length) in Hnil.
      rewrite length_insert in Hnil. by destruct c.
    + apply Forall_insert; [done|].
      eapply IH; [|done|exact Em]. by eapply Forall_lookup_1 in Hc.
Qed.

End SlateFacts.

(* ===================================================================== *)
(** * Theorems: transforms and the structural normalizer                  *)
(* ===================================================================== *)

Section NormalizeFacts.
Import Slate Normalize EditorSpec.

Lemma T_bind_Some {A B} (m : T A) (k : A -> T B) e a e' :
  m e = Some (a, e') -> (m ≫= k) e = k a e'.
Proof. intros H. unfold mbind, T_bind. by rewrite H. Qed.

Lemma T_bind_None {A B} (m : T A) (k : A -> T B) e :
  m e = None -> (m ≫= k) e = None.
Proof. intros H. unfold mbind, T_bind. by rewrite H. Qed.

Lemma Editor_node_Some e p n :
  node_at (children e) p = Some n -> Editor_node p e = Some (n, e).
Proof. unfold node_at, Editor_node. by intros ->. Qed.

Lemma Editor_parent_Some e pp i n :
  node_at (children e) pp = Some n ->
  Editor_parent (pp ++ [i]) e = Some ((n, pp), e).
Proof.
  intros H. unfold Editor_parent. rewrite Path_parent_snoc. cbn.
  unfold mbind, T_bind, lift_option. by rewrite (Editor_node_Some _ _ _ H).
Qed.

(** ** Properties *)

Lemma merge_props_changed old new :
  merge_props old (changed_props old new) = merge_props old new.
Proof.
  destruct old as [a b c d], new as [a' b' c' d'].
  unfold merge_props, changed_props. cbn.
  f_equal; case_bool_decide; subst; by repeat case_match.
Qed.

Lemma changed_props_none old new :
  changed_props old new = no_props -> merge_props old new = old.
Proof.
  intros H. rewrite <- merge_props_changed, H. by destruct old.
Qed.

Lemma set_props_changed n new :
  set_props n (changed_props (props_of n) new) = set_props n new.
Proof. destruct n; cbn; by rewrite merge_props_changed. Qed.

Lemma set_props_unchanged n new :
  changed_props (props_of n) new = no_props -> set_props n new = n.
Proof. intros H. destruct n; cbn in *; by rewrite changed_props_none. Qed.

(** ** One operation on the children of a node *)

Lemma children_replaced_refl e pp pr cs :
  node_at (children e) pp = Some (Element pr cs) ->
  children_replaced e pp pr cs e.
Proof.
  intros H. split; [|done]. unfold with_children.
  rewrite (update_children_at pp (fun _ => Some cs) _ pr cs cs H eq_refl).
  by rewrite (update_same _ _ _ H).
Qed.

Lemma children_replaced_trans e pp pr cs1 e1 cs2 e2 :
  children_replaced e pp pr cs1 e1 ->
  children_replaced e1 pp pr cs2 e2 ->
  children_replaced e pp pr cs2 e2.
Proof.
  intros (W1 & N1 & I1) (W2 & N2 & I2). split; [|split; [done|congruence]].
  unfold with_children in *.
  destruct (update_children pp _ (root (children e))) as [r1|] eqn:E1; [|done].
  cbn in W1. injection W1 as W1.
  assert (exists pr0 cs0, node_at (children e) pp = Some (Element pr0 cs0))
    as (pr0 & cs0 & N0).
  { unfold update_children in E1. unfold node_at.
    clear -E1. revert E1. generalize (root (children e)). revert r1.
    induction pp as [|i pp IH]; intros r1 r E1; cbn in *.
    - destruct r; [done|]. by eexists _, _.
    - destruct r as [|pr' c]; [done|]. destruct (c !! i) as [m|]; [|done].
      cbn in *. destruct (update pp _ m) eqn:E; [|done]. by eapply IH. }
  rewrite (update_children_at pp (fun _ => Some cs1) _ _ _ _ N0 eq_refl) in E1.
  destruct (with_children_spec pp (children e) pr0 cs0 cs1 N0)
    as (doc1 & Wd & Nd & Ud).
  rewrite Ud in E1. injection E1 as <-. cbn in W1. subst doc1.
  rewrite (update_children_at pp (fun _ => Some cs2) _ _ _ _ N1 eq_refl) in W2.
  rewrite (update_children_at pp (fun _ => Some cs2) _ _ _ cs2 N0 eq_refl).
  assert (pr0 = pr) as -> by congruence.
  by rewrite (update_twice _ _ _ _ _ Ud) in W2.
Qed.

Lemma apply_children_replaced o e pp pr cs F cs' :
  node_at (children e) pp = Some (Element pr cs) ->
  transform o (root (children e)) = update pp F (root (children e)) ->
  F (Element pr cs) = Some (Element pr cs') ->
  exists e', apply o e = Some ((), e') /\ children_replaced e pp pr cs' e'.
Proof.
  intros N Ht HF.
  destruct (with_children_spec pp (children e) pr cs cs' N) as (doc' & W & N' & U).
  rewrite (update_at _ _ _ _ N), HF, U in Ht.
  eexists. split.
  - unfold apply. rewrite Ht. reflexivity.
  - by split.
Qed.

Lemma setNodes_children e pp i pr cs n new :
  node_at (children e) pp = Some (Element pr cs) -> cs !! i = Some n ->
  exists e', setNodes new (pp ++ [i]) e = Some ((), e') /\
             children_replaced e pp pr (<[i := set_props n new]> cs) e'.
Proof.
  intros N Hi. unfold setNodes.
  assert (node_at (children e) (pp ++ [i]) = Some n) as Nn.
  { unfold node_at. by rewrite (get_snoc _ _ _ _ N). }
  rewrite (T_bind_Some _ _ _ _ _ (Editor_node_Some _ _ _ Nn)).
  rewrite bool_decide_eq_false_2 by apply snoc_not_nil.
  case_bool_decide as Hc.
  - exists e. split; [done|]. rewrite (set_props_unchanged _ _ Hc).
    rewrite list_insert_id by done. by apply children_replaced_refl.
  - rewrite <- set_props_changed.
    eapply apply_children_replaced; [exact N| |].
    + cbn. rewrite bool_decide_eq_false_2 by apply snoc_not_nil.
      by rewrite update_app.
    + cbn. rewrite Hi. reflexivity.
Qed.

Lemma doFold_children e pp i pr cs n :
  node_at (children e) pp = Some (Element pr cs) -> cs !! i = Some n ->
  exists e', doFold n (pp ++ [i]) false e = Some ((), e') /\
             children_replaced e pp pr (<[i := unfolded n]> cs) e'.
Proof.
  intros N Hi. unfold doFold, unfolded.
  destruct (default false (p_folded (props_of n))) eqn:E.
  - rewrite bool_decide_eq_false_2 by done. by apply setNodes_children.
  - rewrite bool_decide_eq_true_2 by done. exists e. split; [done|].
    rewrite list_insert_id by done. by apply children_replaced_refl.
Qed.

Lemma removeNodes_children e pp i pr cs n :
  node_at (children e) pp = Some (Element pr cs) -> cs !! i = Some n ->
  exists e', removeNodes (pp ++ [i]) e = Some ((), e') /\
             children_replaced e pp pr (delete i cs) e'.
Proof.
  intros N Hi. unfold removeNodes.
  assert (node_at (children e) (pp ++ [i]) = Some n) as Nn.
  { unfold node_at. by rewrite (get_snoc _ _ _ _ N). }
  rewrite (T_bind_Some _ _ _ _ _ (Editor_node_Some _ _ _ Nn)).
  eapply apply_children_replaced; [exact N| |].
  - cbn. rewrite Path_parent_snoc, last_snoc_path. cbn. reflexivity.
  - reflexivity.
Qed.

Lemma Editor_start_Some e p n :
  node_at (children e) p = Some n -> has_start_text n = true ->
  Editor_start p e = Some ((), e).
Proof.
  intros N H. unfold Editor_start.
  rewrite (T_bind_Some _ _ _ _ _ (Editor_node_Some _ _ _ N)). by rewrite H.
Qed.

Lemma Editor_end_Some e p n :
  node_at (children e) p = Some n -> has_end_text n = true ->
  Editor_end p e = Some ((), e).
Proof.
  intros N H. unfold Editor_end.
  rewrite (T_bind_Some _ _ _ _ _ (Editor_node_Some _ _ _ N)). by rewrite H.
Qed.

Lemma Editor_range_Some e p n :
  node_at (children e) p = Some n ->
  has_start_text n = true -> has_end_text n = true ->
  Editor_range p e = Some ((), e).
Proof.
  intros N Hs He. unfold Editor_range.
  rewrite (T_bind_Some _ _ _ _ _ (Editor_start_Some _ _ _ N Hs)).
  by apply (Editor_end_Some _ _ n).
Qed.

Lemma Editor_range_None e p n :
  node_at (children e) p = Some n ->
  has_start_text n && has_end_text n = false ->
  Editor_range p e = None.
Proof.
  intros N H. unfold Editor_range, Editor_start, Editor_end.
  unfold mbind at 1, T_bind.
  rewrite (T_bind_Some _ _ _ _ _ (Editor_node_Some _ _ _ N)).
  destruct (has_start_text n); [|done]. cbn [mret T_ret].
  rewrite (T_bind_Some _ _ _ _ _ (Editor_node_Some _ _ _ N)).
  cbn in H. by rewrite H.
Qed.

Lemma textful_set_props n new : textful (set_props n new) = textful n.
Proof. by destruct n. Qed.

Lemma textful_unfolded n : textful (unfolded n) = textful n.
Proof.
  unfold unfolded. destruct (default false _); [|done].
  apply textful_set_props.
Qed.

(** In a document without childless elements every point is there. *)
Lemma textful_at e p n :
  textful (root (children e)) = true -> node_at (children e) p = Some n ->
  textful n = true.
Proof. intros H N. by eapply textful_get. Qed.

Lemma textful_Editor_start e p n :
  textful (root (children e)) = true -> node_at (children e) p = Some n ->
  Editor_start p e = Some ((), e).
Proof.
  intros H N. eapply Editor_start_Some; [exact N|].
  by eapply textful_start, textful_at.
Qed.

Lemma textful_Editor_end e p n :
  textful (root (children e)) = true -> node_at (children e) p = Some n ->
  Editor_end p e = Some ((), e).
Proof.
  intros H N. eapply Editor_end_Some; [exact N|].
  by eapply textful_end, textful_at.
Qed.

Lemma textful_Editor_range e p n :
  textful (root (children e)) = true -> node_at (children e) p = Some n ->
  Editor_range p e = Some ((), e).
Proof.
  intros H N. unfold Editor_range.
  rewrite (T_bind_Some _ _ _ _ _ (textful_Editor_start _ _ _ H N)).
  by eapply textful_Editor_end.
Qed.

(** Replacing children by children that contain text keeps the document
    free of childless elements. *)
Lemma children_replaced_textful e pp pr cs' e' :
  textful (root (children e)) = true ->
  children_replaced e pp pr cs' e' ->
  textful (Element pr cs') = true ->
  textful (root (children e')) = true.
Proof.
  intros H (W & N' & _) Hcs. unfold with_children in W.
  destruct (update_children pp _ (root (children e))) as [r'|] eqn:E; [|done].
  cbn in W. injection W as W.
  assert (exists pr0 cs0, node_at (children e) pp = Some (Element pr0 cs0))
    as (pr0 & cs0 & N0).
  { unfold update_children in E. unfold node_at.
    clear -E. revert E. generalize (root (children e)). revert r'.
    induction pp as [|i pp IH]; intros r1 r E1; cbn in *.
    - destruct r; [done|]. by eexists _, _.
    - destruct r as [|pr' c]; [done|]. destruct (c !! i) as [m|]; [|done].
      cbn in *. destruct (update pp _ m) eqn:E; [|done]. by eapply IH. }
  rewrite (update_children_at pp (fun _ => Some cs') _ _ _ _ N0 eq_refl) in E.
  destruct (with_children_spec pp (children e) pr0 cs0 cs' N0)
    as (doc1 & Wd & Nd & Ud).
  rewrite Ud in E. injection E as <-. cbn in W. subst doc1.
  assert (pr0 = pr) as -> by congruence.
  by eapply textful_update; [exact H| |exact Ud].
Qed.

Lemma Editor_previous_sibling e pp j pr cs n q :
  textful (root (children e)) = true ->
  node_at (children e) pp = Some (Element pr cs) ->
  cs !! S j = Some n -> cs !! j = Some q ->
  Editor_previous (pp ++ [S j]) e = Some (Some (q, pp ++ [j]), e).
Proof.
  intros H N Hn Hq. unfold Editor_previous.
  assert (node_at (children e) (pp ++ [S j]) = Some n) as Nn.
  { unfold node_at. by rewrite (get_snoc _ _ _ _ N). }
  assert (node_at (children e) (pp ++ [j]) = Some q) as Nq.
  { unfold node_at. by rewrite (get_snoc _ _ _ _ N). }
  rewrite (T_bind_Some _ _ _ _ _ (textful_Editor_start e [] _ H eq_refl)).
  rewrite (T_bind_Some _ _ _ _ _ (textful_Editor_start _ _ _ H Nn)).
  rewrite Path_previous_snoc.
  by rewrite (T_bind_Some _ _ _ _ _ (Editor_node_Some _ _ _ Nq)).
Qed.

Lemma Editor_previous_first e pp pr cs n :
  textful (root (children e)) = true ->
  node_at (children e) pp = Some (Element pr cs) -> cs !! 0 = Some n ->
  Editor_previous (pp ++ [0]) e = Some (None, e).
Proof.
  intros H N Hn. unfold Editor_previous.
  assert (node_at (children e) (pp ++ [0]) = Some n) as Nn.
  { unfold node_at. by rewrite (get_snoc _ _ _ _ N). }
  rewrite (T_bind_Some _ _ _ _ _ (textful_Editor_start e [] _ H eq_refl)).
  rewrite (T_bind_Some _ _ _ _ _ (textful_Editor_start _ _ _ H Nn)).
  by rewrite Path_previous_first.
Qed.

(** Merging a container into the one before it: the two become one,
    unless the one before is empty, which is removed. *)
Lemma mergeNodes_children e pp j pr cs bpr bcs qpr qcs :
  textful (root (children e)) = true ->
  node_at (children e) pp = Some (Element pr cs) ->
  cs !! S j = Some (Element bpr bcs) -> cs !! j = Some (Element qpr qcs) ->
  exists e', mergeNodes (pp ++ [S j]) e = Some ((), e') /\
     children_replaced e pp pr
       (if Editor_isEmpty (Element qpr qcs) then delete j cs
        else delete (S j) (<[j := Element qpr (qcs ++ bcs)]> cs)) e'.
Proof.
  intros H N Hn Hq. unfold mergeNodes.
  assert (node_at (children e) (pp ++ [S j]) = Some (Element bpr bcs)) as Nn.
  { unfold node_at. by rewrite (get_snoc _ _ _ _ N). }
  rewrite (T_bind_Some _ _ _ _ _ (Editor_node_Some _ _ _ Nn)).
  rewrite (T_bind_Some _ _ _ _ _
             (Editor_previous_sibling _ _ _ _ _ _ _ H N Hn Hq)).
  destruct (Editor_isEmpty (Element qpr qcs)).
  - by eapply removeNodes_children.
  - eapply apply_children_replaced; [exact N| |].
    + cbn. rewrite Path_parent_snoc, last_snoc_path. cbn. reflexivity.
    + cbn. rewrite Hn, Hq. reflexivity.
Qed.

Lemma unfolded_element pr cs :
  unfolded (Element pr cs) = Element (props_of (unfolded (Element pr cs))) cs.
Proof. unfold unfolded. cbn. by destruct (default false (p_folded pr)). Qed.

Lemma delete_insert_same {A} (l : list A) i x :
  delete i (<[i := x]> l) = delete i l.
Proof.
  revert i. induction l as [|y l IH]; intros [|i]; cbn; [done..|].
  by rewrite IH.
Qed.

(** ** Header-mismatch repair *)

(** When the header check passes. *)
Lemma checkBlockHeader_passes e pp i pr cs bpr first rest ty :
  node_at (children e) pp = Some (Element pr cs) ->
  cs !! i = Some (Element bpr (first :: rest)) ->
  node_type first = Some ty \/
  (textful (root (children e)) = true /\
   (i = 0 \/ exists j q, i = S j /\ cs !! j = Some q /\
                         node_type q ≠ p_type bpr)) ->
  checkBlockHeader (Element bpr (first :: rest)) (pp ++ [i]) ty e
  = Some (true, e).
Proof.
  intros N Hi H. unfold checkBlockHeader. cbn [children_of].
  destruct (decide (node_type first = Some ty)) as [Hty|Hty].
  { by rewrite bool_decide_eq_true_2. }
  rewrite bool_decide_eq_false_2 by done.
  destruct H as [H|[Htext Hprev]]; [done|].
  destruct Hprev as [-> | (j & q & -> & Hq & Hne)].
  - by rewrite (T_bind_Some _ _ _ _ _
                  (Editor_previous_first _ _ _ _ _ Htext N Hi)).
  - rewrite (T_bind_Some _ _ _ _ _
               (Editor_previous_sibling _ _ _ _ _ _ _ Htext N Hi Hq)).
    by rewrite bool_decide_eq_true_2.
Qed.

(** C4 (amended).  [checkBlockHeader] on the container [block], the
    [i]-th child of the node at [pp], with expected header type [ty]:
    - a container without children is removed from its parent;
    - a container whose first child has type [ty] is left alone;
    - otherwise, in a document in which every element has children:
      when the child before it is a container of the same type, both get
      their folded flag cleared (the state [e2]); then the container is
      merged into that sibling, which holds the children of both, and
      the container is gone -- unless that sibling is empty (its only
      child is an empty text): then the sibling is removed and the
      container, unfolded, stays;
    - a text before it that has the type of the container makes the
      repair throw;
    - with no previous sibling, or one of another type, nothing is
      changed. *)
Theorem checkBlockHeader_repair e pp i pr cs bpr bcs ty :
  node_at (children e) pp = Some (Element pr cs) ->
  cs !! i = Some (Element bpr bcs) ->
  let block := Element bpr bcs in
  (bcs = [] ->
     exists e', checkBlockHeader block (pp ++ [i]) ty e = Some (false, e') /\
                with_children pp (delete i cs) (children e)
                  = Some (children e')) /\
  (forall first rest, bcs = first :: rest -> node_type first = Some ty ->
     checkBlockHeader block (pp ++ [i]) ty e = Some (true, e)) /\
  (textful (root (children e)) = true ->
   forall first rest, bcs = first :: rest -> node_type first ≠ Some ty ->
     (forall j qpr qcs,
        i = S j -> cs !! j = Some (Element qpr qcs) ->
        p_type qpr = p_type bpr ->
        let prev := Element qpr qcs in
        let cs2 := <[S j := unfolded block]> (<[j := unfolded prev]> cs) in
        exists e2 e',
          (_ ← doFold prev (pp ++ [j]) false;
           doFold block (pp ++ [S j]) false) e = Some ((), e2) /\
          with_children pp cs2 (children e) = Some (children e2) /\
          checkBlockHeader block (pp ++ [i]) ty e = Some (false, e') /\
          with_children pp
            (if Editor_isEmpty prev then delete j cs2
             else delete (S j)
                    (<[j := Element (props_of (unfolded prev)) (qcs ++ bcs)]> cs))
            (children e) = Some (children e')) /\
     (forall j qpr s,
        i = S j -> cs !! j = Some (Text qpr s) -> p_type qpr = p_type bpr ->
        checkBlockHeader block (pp ++ [i]) ty e = None) /\
     ((i = 0 \/ exists j q, i = S j /\ cs !! j = Some q /\
                            node_type q ≠ p_type bpr) ->
      checkBlockHeader block (pp ++ [i]) ty e = Some (true, e))).
Proof.
  intros N Hi block. split; [|split].
  - intros ->. destruct (removeNodes_children e pp i pr cs _ N Hi)
      as (e' & E & W & _).
    exists e'. split; [|done]. unfold checkBlockHeader. cbn [children_of block].
    by rewrite (T_bind_Some _ _ _ _ _ E).
  - intros first rest -> Hty. unfold checkBlockHeader. cbn [children_of block].
    by rewrite bool_decide_eq_true_2.
  - intros Htext first rest -> Hty. split; [|split].
    + intros j qpr qcs -> Hq Hsame prev cs2.
      destruct (doFold_children e pp j pr cs prev N Hq) as (e1 & D1 & R1).
      pose proof R1 as (_ & N1 & _).
      assert (<[j := unfolded prev]> cs !! S j = Some block) as Hi1.
      { rewrite list_lookup_insert_ne by lia. done. }
      destruct (doFold_children e1 pp (S j) pr _ block N1 Hi1)
        as (e2 & D2 & R2).
      pose proof (children_replaced_trans _ _ _ _ _ _ _ R1 R2) as R12.
      pose proof R2 as (_ & N2 & _). fold cs2 in R2, R12, N2.
      assert (cs2 !! S j
              = Some (Element (props_of (unfolded block)) (first :: rest)))
        as Hb2.
      { unfold cs2. rewrite list_lookup_insert_eq.
        - f_equal. apply unfolded_element.
        - rewrite length_insert. by eapply lookup_lt_Some. }
      assert (cs2 !! j = Some (Element (props_of (unfolded prev)) qcs)) as Hq2.
      { unfold cs2. rewrite list_lookup_insert_ne by lia.
        rewrite list_lookup_insert_eq by (by eapply lookup_lt_Some).
        f_equal. apply unfolded_element. }
      assert (textful (root (children e2)) = true) as Htext2.
      { eapply children_replaced_textful; [exact Htext|exact R12|].
        pose proof (textful_at _ _ _ Htext N) as Hp.
        apply textful_element in Hp as [Hne Hcs]. apply textful_element.
        split.
        - unfold cs2. intros Hnil. apply (f_equal length) in Hnil.
          rewrite !length_insert in Hnil. by destruct cs.
        - unfold cs2. apply Forall_insert; [apply Forall_insert; [done|]|].
          + rewrite textful_unfolded.
            by apply (Forall_lookup_1 _ _ _ _ Hcs Hq).
          + rewrite textful_unfolded.
            by apply (Forall_lookup_1 _ _ _ _ Hcs Hi). }
      destruct (mergeNodes_children e2 pp j pr cs2 _ _ _ _ Htext2 N2 Hb2 Hq2)
        as (e3 & M & R3).
      exists e2, e3. split; [|split; [|split]].
      * by rewrite (T_bind_Some _ _ _ _ _ D1).
      * by destruct R12.
      * unfold checkBlockHeader. cbn [children_of block].
        rewrite bool_decide_eq_false_2 by done.
        rewrite (T_bind_Some _ _ _ _ _
                   (Editor_previous_sibling _ _ _ _ _ _ _ Htext N Hi Hq)).
        rewrite bool_decide_eq_false_2 by (cbn; intros H; by apply H).
        rewrite (T_bind_Some _ _ _ _ _ D1), (T_bind_Some _ _ _ _ _ D2).
        by rewrite (T_bind_Some _ _ _ _ _ M).
      * pose proof (children_replaced_trans _ _ _ _ _ _ _ R12 R3) as (W & _).
        rewrite <- W. f_equal.
        assert (Editor_isEmpty (Element (props_of (unfolded prev)) qcs)
                = Editor_isEmpty prev) as -> by done.
        destruct (Editor_isEmpty prev); [done|]. unfold cs2.
        rewrite (list_insert_insert_ne _ j (S j)) by lia.
        rewrite list_insert_insert_eq.
        by rewrite delete_insert_same.
    + intros j qpr s -> Hq Hsame.
      set (prev := Text qpr s).
      destruct (doFold_children e pp j pr cs prev N Hq) as (e1 & D1 & R1).
      pose proof R1 as (_ & N1 & _).
      assert (<[j := unfolded prev]> cs !! S j = Some block) as Hi1.
      { rewrite list_lookup_insert_ne by lia. done. }
      destruct (doFold_children e1 pp (S j) pr _ block N1 Hi1)
        as (e2 & D2 & R2).
      pose proof (children_replaced_trans _ _ _ _ _ _ _ R1 R2) as R12.
      pose proof R2 as (_ & N2 & _).
      set (cs2 := <[S j := unfolded block]> (<[j := unfolded prev]> cs)) in *.
      assert (cs2 !! S j = Some (unfolded block)) as Hb2.
      { unfold cs2. rewrite list_lookup_insert_eq; [done|].
        rewrite length_insert. by eapply lookup_lt_Some. }
      assert (cs2 !! j = Some (unfolded prev)) as Hq2.
      { unfold cs2. rewrite list_lookup_insert_ne by lia.
        by rewrite list_lookup_insert_eq by (by eapply lookup_lt_Some). }
      assert (textful (root (children e2)) = true) as Htext2.
      { eapply children_replaced_textful; [exact Htext|exact R12|].
        pose proof (textful_at _ _ _ Htext N) as Hp.
        apply textful_element in Hp as [Hne Hcs]. apply textful_element.
        split.
        - unfold cs2. intros Hnil. apply (f_equal length) in Hnil.
          rewrite !length_insert in Hnil. by destruct cs.
        - unfold cs2. apply Forall_insert; [apply Forall_insert; [done|]|].
          + by rewrite textful_unfolded.
          + rewrite textful_unfolded.
            by apply (Forall_lookup_1 _ _ _ _ Hcs Hi). }
      unfold checkBlockHeader. cbn [children_of block].
      rewrite bool_decide_eq_false_2 by done.
      rewrite (T_bind_Some _ _ _ _ _
                 (Editor_previous_sibling _ _ _ _ _ _ _ Htext N Hi Hq)).
      rewrite bool_decide_eq_false_2 by (cbn; intros H; by apply H).
      rewrite (T_bind_Some _ _ _ _ _ D1), (T_bind_Some _ _ _ _ _ D2).
      unfold mbind at 1, T_bind. unfold mergeNodes.
      assert (node_at (children e2) (pp ++ [S j]) = Some (unfolded block))
        as Nb2 by (unfold node_at; by rewrite (get_snoc _ _ _ _ N2)).
      rewrite (T_bind_Some _ _ _ _ _ (Editor_node_Some _ _ _ Nb2)).
      rewrite (T_bind_Some _ _ _ _ _
                 (Editor_previous_sibling _ _ _ _ _ _ _ Htext2 N2 Hb2 Hq2)).
      unfold unfolded, block, prev.
      by destruct (default false _), (default false _).
    + intros Hprev. unfold checkBlockHeader. cbn [children_of block].
      rewrite bool_decide_eq_false_2 by done.
      destruct Hprev as [-> | (j & q & -> & Hq & Hne)].
      * by rewrite (T_bind_Some _ _ _ _ _
                      (Editor_previous_first _ _ _ _ _ Htext N Hi)).
      * rewrite (T_bind_Some _ _ _ _ _
                   (Editor_previous_sibling _ _ _ _ _ _ _ Htext N Hi Hq)).
        by rewrite bool_decide_eq_true_2.
Qed.

(** ** The part case of [normalizeNode] *)

(** C8 (amended).  Normalizing a part at depth 1 that has a second child
    and whose header check passes: its first child is an "hpart" header
    or, in a document in which every element has children, it has no
    previous sibling or one that is not a part.  A second child without
    children makes the rule throw.  Otherwise the FIRST CHILD of the
    second child is checked to be of type "hscene".  If it is,
    normalization goes on with the wrapped [normalizeNode]; if not, that
    grandchild is assigned type "hscene", the second child itself keeps
    its properties (and type), and the wrapped [normalizeNode] is not
    run. *)
Theorem part_checks_header_of_second_child
    (normalizeNode : path -> T unit) e i pr first second rest :
  children e !! i = Some (Element pr (first :: second :: rest)) ->
  p_type pr = Some "part" ->
  node_type first = Some "hpart" \/
  (textful (root (children e)) = true /\
   (i = 0 \/ exists j q, i = S j /\ children e !! j = Some q /\
                         node_type q ≠ Some "part")) ->
  (children_of second = [] ->
     fixNesting_normalizeNode normalizeNode [i] e = None) /\
  (forall spr h hs, second = Element spr (h :: hs) ->
     (node_type h = Some "hscene" ->
        fixNesting_normalizeNode normalizeNode [i] e = normalizeNode [i] e) /\
     (node_type h ≠ Some "hscene" ->
        exists e',
          fixNesting_normalizeNode normalizeNode [i] e = Some ((), e') /\
          children e'
            = <[i := Element pr
                       (first :: Element spr (retyped "hscene" h :: hs)
                          :: rest)]>
                (children e))).
Proof.
  intros Hi Hty Hpass.
  assert (node_at (children e) [i]
          = Some (Element pr (first :: second :: rest))) as N.
  { unfold node_at. cbn. by rewrite Hi. }
  assert (fixNesting_normalizeNode normalizeNode [i] e
          = (b ← checkFirstHeader second [i; 1] "hscene";
             if negb b then mret () else normalizeNode [i]) e) as Hstep.
  { unfold fixNesting_normalizeNode.
    rewrite (T_bind_Some _ _ _ _ _ (Editor_node_Some _ _ _ N)).
    cbn [isText]. rewrite bool_decide_eq_false_2 by done.
    rewrite (bool_decide_eq_false_2 (node_type _ = Some "hpart"))
      by (unfold node_type; cbn; by rewrite Hty).
    rewrite (bool_decide_eq_false_2 (node_type _ = Some "hscene"))
      by (unfold node_type; cbn; by rewrite Hty).
    rewrite (bool_decide_eq_true_2 (node_type _ = Some "part")) by done.
    rewrite bool_decide_eq_false_2 by (cbn; lia).
    assert (checkBlockHeader (Element pr (first :: second :: rest))
              ([] ++ [i]) "hpart" e = Some (true, e)) as Hb.
    { apply (checkBlockHeader_passes e [] i no_props (children e));
        [done|done|]. by rewrite Hty. }
    cbn [app] in Hb. rewrite (T_bind_Some _ _ _ _ _ Hb).
    cbn [negb children_of]. reflexivity. }
  rewrite Hstep. split.
  - intros Hnil. unfold mbind, T_bind, checkFirstHeader.
    destruct second as [|spr [|h hs]]; done.
  - intros spr h hs ->. split.
    + intros Hh. unfold checkFirstHeader.
      by rewrite bool_decide_eq_true_2.
    + intros Hh.
      assert (node_at (children e) [i; 1] = Some (Element spr (h :: hs)))
        as N1.
      { unfold node_at. cbn. by rewrite Hi. }
      destruct (setNodes_children e [i; 1] 0 spr (h :: hs) h
                  (type_props "hscene") N1 eq_refl) as (e' & E & W & _).
      exists e'. split.
      * unfold checkFirstHeader.
        rewrite bool_decide_eq_false_2 by done.
        by rewrite (T_bind_Some _ _ _ _ _ (T_bind_Some _ _ _ _ _ E)).
      * unfold with_children, update_children in W. cbn in W.
        rewrite Hi in W. cbn in W. by injection W as <-.
Qed.

End NormalizeFacts.

(* ===================================================================== *)
(** * Theorems: the identity enforcer                                     *)
(* ===================================================================== *)

Section IdentityFacts.
Import Slate Normalize EditorSpec.

(** ** The nodes of a document *)

Lemma elem_of_nodes_of_children f (p : path) i cs x :
  x ∈ nodes_of_children f p i cs <->
  exists j m, cs !! j = Some m /\ x ∈ f (p ++ [i + j]) m.
Proof.
  revert i. induction cs as [|c cs IH]; intros i; cbn.
  - split; [by intros ?%elem_of_nil|]. by intros (j & m & ? & _).
  - rewrite elem_of_app, IH. split.
    + intros [H|(j & m & Hj & H)].
      * exists 0, c. split; [done|]. by rewrite Nat.add_0_r.
      * exists (S j), m. split; [done|]. by replace (i + S j) with (S i + j) by lia.
    + intros ([|j] & m & Hj & H); cbn in Hj.
      * left. injection Hj as <-. by rewrite Nat.add_0_r in H.
      * right. exists j, m. split; [done|].
        by replace (S i + j) with (i + S j) by lia.
Qed.

(** [Node.nodes] lists exactly the nodes reachable by a path. *)
Lemma elem_of_nodes_from n (p : path) m q :
  (m, q) ∈ nodes_from p n <-> exists s, q = p ++ s /\ get n s = Some m.
Proof.
  revert p. induction n as [pr t|pr cs IH] using node_induction; intros p.
  - cbn. rewrite elem_of_cons. split.
    + intros [[= -> ->]|H%elem_of_nil]; [|done]. exists []. by rewrite app_nil_r.
    + intros ([|i s] & -> & H); cbn in H; [|done].
      left. injection H as <-. by rewrite app_nil_r.
  - cbn [nodes_from]. rewrite elem_of_cons, elem_of_nodes_of_children. split.
    + intros [[= -> ->]|(j & c & Hj & H)].
      * exists []. by rewrite app_nil_r.
      * cbn in H. eapply Forall_lookup_1 in IH; [|exact Hj].
        apply IH in H as (s & -> & Hs). exists (j :: s).
        split; [by rewrite <- app_assoc|]. cbn. by rewrite Hj.
    + intros ([|j s] & -> & H); cbn in H.
      * left. injection H as <-. by rewrite app_nil_r.
      * right. destruct (cs !! j) as [c|] eqn:Hj; [|done]. cbn in H.
        exists j, c. split; [done|]. cbn.
        eapply Forall_lookup_1 in IH; [|exact Hj]. apply IH.
        exists s. by rewrite <- app_assoc.
Qed.

Lemma elem_of_Node_nodes doc m q :
  (m, q) ∈ Node_nodes (root doc) <-> node_at doc q = Some m.
Proof.
  unfold Node_nodes, node_at. rewrite elem_of_nodes_from. cbn. split.
  - by intros (s & -> & H).
  - intros H. by exists q.
Qed.

(** The blocks visited by the enforcer are exactly the elements. *)
Lemma elem_of_blocks e p : p ∈ blocks e <-> element_at (children e) p.
Proof.
  unfold blocks, element_at. rewrite list_elem_of_In, in_map_iff. split.
  - intros ([m q] & <- & Hin).
    apply list_elem_of_In, list_elem_of_filter in Hin as [[He Hq] Hin].
    apply elem_of_Node_nodes in Hin. cbn in *. split; [done|].
    destruct m; [done|]. by eexists _, _.
  - intros (Hp & pr & cs & Hn). exists (Element pr cs, p). split; [done|].
    apply list_elem_of_In, list_elem_of_filter. split; [done|].
    by apply elem_of_Node_nodes.
Qed.

Lemma id_present doc q i : id_at doc q = Some i -> i ∈ present_ids doc.
Proof.
  unfold id_at, present_ids. intros H.
  destruct (node_at doc q) as [n|] eqn:Hn; [|done]. cbn in H.
  apply list_elem_of_omap. exists (n, q).
  split; [by apply elem_of_Node_nodes|done].
Qed.

(** ** Setting properties at a path *)

Lemma update_set_props (p : path) new r n r' :
  get r p = Some n ->
  update p (fun _ => Some (set_props n new)) r = Some r' ->
  get r' p = Some (set_props n new) /\
  forall q, isText <$> get r' q = isText <$> get r q /\
            (q ≠ p -> props_of <$> get r' q = props_of <$> get r q).
Proof.
  revert r r'. induction p as [|i p IH]; intros r r' Hn Hu; cbn in *.
  - injection Hn as ->. injection Hu as <-. split; [done|].
    intros [|j q]; cbn.
    + split; [by destruct n|done].
    + by destruct n.
  - destruct r as [|pr c]; [done|]. destruct (c !! i) as [m|] eqn:Hi; [|done].
    cbn in *. destruct (update p _ m) as [m'|] eqn:Hm; [|done].
    cbn in Hu. injection Hu as <-. destruct (IH m m' Hn Hm) as [Hg Hq].
    assert (i < length c) as Hlt by (by eapply lookup_lt_Some).
    split.
    + cbn. by rewrite list_lookup_insert_eq.
    + intros [|j q]; cbn; [done|]. destruct (decide (j = i)) as [->|Hne].
      * rewrite list_lookup_insert_eq by done. rewrite Hi. cbn.
        destruct (Hq q) as [H1 H2]. split; [done|].
        intros Hqp. apply H2. congruence.
      * by rewrite list_lookup_insert_ne.
Qed.

Lemma setNodes_node e p n new :
  node_at (children e) p = Some n -> p ≠ [] ->
  exists e' r',
    setNodes new p e = Some ((), e') /\
    update p (fun _ => Some (set_props n new)) (root (children e)) = Some r' /\
    children e' = children_of r' /\ id_calls e' = id_calls e.
Proof.
  intros Hn Hp.
  destruct (update_get p _ _ (set_props n new) Hn) as (r' & Hr' & _).
  unfold setNodes.
  rewrite (T_bind_Some _ _ _ _ _ (Editor_node_Some _ _ _ Hn)).
  rewrite bool_decide_eq_false_2 by done. case_bool_decide as Hc.
  - exists e, r'. split; [done|]. split; [done|].
    rewrite (set_props_unchanged _ _ Hc) in Hr'.
    rewrite (update_same _ _ _ Hn) in Hr'. by injection Hr' as <-.
  - unfold apply. cbn [transform]. rewrite bool_decide_eq_false_2 by done.
    rewrite (update_at _ _ _ _ Hn), set_props_changed, Hr'.
    by eexists _, r'.
Qed.

(** ** One block *)

Lemma no_id_false n :
  no_id n = false <-> exists i, p_id (props_of n) = Some i /\ i ≠ "".
Proof.
  unfold no_id. destruct (p_id (props_of n)) as [[|c s]|]; split;
    try done; try (by intros (i & [= <-] & ?)); try (by intros (i & ? & ?)).
  intros _. by eexists.
Qed.

Lemma gen_lookup (nanoid : nat -> string) k0 len n :
  k0 <= n < k0 + len -> (nanoid <$> seq k0 len) !! (n - k0) = Some (nanoid n).
Proof.
  intros H. rewrite list_lookup_fmap, lookup_seq_lt by lia. cbn.
  by replace (k0 + (n - k0)) with n by lia.
Qed.

Lemma fix_id_step nanoid doc0 k0 (P done : list path) p ids e :
  NoDup (nanoid <$> seq k0 (length P)) ->
  Forall (fun i => i ≠ "" /\ i ∉ present_ids doc0) (nanoid <$> seq k0 (length P)) ->
  length done < length P ->
  element_at doc0 p ->
  enforced nanoid doc0 k0 done ids e ->
  exists ids' e',
    fix_id nanoid ids p e = Some (ids', e') /\
    enforced nanoid doc0 k0 (done ++ [p]) ids' e'.
Proof.
  intros Hnd Hfresh Hlen (Hp & pr0 & cs0 & Hn0) (I1 & I2 & I3 & I4 & I5 & I6).
  assert (exists node, node_at (children e) p = Some node) as [node Hn].
  { specialize (I1 p). rewrite Hn0 in I1.
    destruct (node_at (children e) p); [by eexists|done]. }
  unfold fix_id. rewrite (T_bind_Some _ _ _ _ _ (Editor_node_Some _ _ _ Hn)).
  destruct (no_id node || bool_decide (default "" (p_id (props_of node)) ∈ ids))
    eqn:Hcond.
  - (* a new identifier *)
    set (k := id_calls e) in *. set (new := Props None (Some (nanoid k)) None None).
    assert (k0 <= k < k0 + length P) as Hk by lia.
    pose proof (gen_lookup nanoid k0 (length P) k Hk) as Hgen.
    assert (nanoid k ≠ "" /\ nanoid k ∉ present_ids doc0) as [Hne Hnp].
    { eapply Forall_lookup_1 in Hfresh; [|exact Hgen]. done. }
    assert (forall n, k0 <= n < k -> nanoid n ≠ nanoid k) as Hinj.
    { intros n Hn' Heq.
      pose proof (gen_lookup nanoid k0 (length P) n ltac:(lia)) as Hgen'.
      rewrite Heq in Hgen'.
      pose proof (NoDup_lookup _ _ _ _ Hnd Hgen Hgen'). lia. }
    set (e1 := Editor_ (children e) (dirty e) (refs e) (S k)).
    assert (call_nanoid nanoid e = Some (nanoid k, e1)) as Hcall by done.
    destruct (setNodes_node e1 p node new Hn Hp) as (e' & r' & Hset & Hr' & Hc' & Hk').
    destruct (update_set_props p new _ node r' Hn Hr') as [Hg Hq].
    assert (forall q, node_at (children e') q = get r' q) as Hdoc.
    { intros q. unfold node_at. rewrite Hc'.
      by rewrite <- (update_root _ _ _ _ Hp Hr'). }
    assert (forall q, q ≠ p -> id_at (children e') q = id_at (children e) q)
      as Hsame.
    { intros q Hqp. unfold id_at. rewrite Hdoc. destruct (Hq q) as [_ H2].
      specialize (H2 Hqp). unfold node_at.
      change (children e1) with (children e) in H2.
      destruct (get r' q), (get (root (children e)) q); cbn in *; congruence. }
    assert (id_at (children e') p = Some (nanoid k)) as Hidp.
    { unfold id_at. rewrite Hdoc, Hg. cbn. by destruct node. }
    exists ({[ nanoid k ]} ∪ ids), e'. split.
    { rewrite (T_bind_Some _ _ _ _ _ Hcall).
      by rewrite (T_bind_Some _ _ _ _ _ Hset). }
    split; [|split; [|split; [|split; [|split]]]].
    + intros q. rewrite Hdoc. destruct (Hq q) as [H1 _].
      rewrite <- I1. exact H1.
    + intros q Hqd. apply not_elem_of_app in Hqd as [Hqd Hqp].
      rewrite Hsame by (intros ->; by apply Hqp, list_elem_of_singleton).
      by apply I2.
    + intros q [Hqd|Hqp%list_elem_of_singleton]%elem_of_app.
      * destruct (decide (q = p)) as [->|Hqp].
        -- exists (nanoid k). split; [done|]. split; [done|].
           apply elem_of_union. left. by apply elem_of_singleton.
        -- rewrite Hsame by done. destruct (I3 q Hqd) as (i & ? & ? & ?).
           exists i. split; [done|]. split; [done|].
           apply elem_of_union. by right.
      * subst q. exists (nanoid k). split; [done|]. split; [done|].
        apply elem_of_union. left. by apply elem_of_singleton.
    + assert (forall q, q ∈ done -> q ≠ p ->
                id_at (children e') q ≠ Some (nanoid k)) as Hother.
      { intros q Hqd Hqp. rewrite Hsame by done.
        destruct (I3 q Hqd) as (i & Hi & _ & Hin). rewrite Hi. intros [= ->].
        destruct (I5 _ Hin) as [Hpres|(n & Hn' & Hi')]; [done|].
        by eapply Hinj. }
      intros q q' Hq1 Hq2 Hne'.
      destruct (decide (q = p)) as [->|Hqp], (decide (q' = p)) as [->|Hqp'].
      * done.
      * rewrite Hidp. intros Heq. eapply (Hother q'); [|done|done].
        apply elem_of_app in Hq2 as [|?%list_elem_of_singleton]; done.
      * rewrite Hidp. eapply (Hother q); [|done].
        apply elem_of_app in Hq1 as [|?%list_elem_of_singleton]; done.
      * rewrite !Hsame by done. apply I4; [| |done].
        -- apply elem_of_app in Hq1 as [|?%list_elem_of_singleton]; done.
        -- apply elem_of_app in Hq2 as [|?%list_elem_of_singleton]; done.
    + intros i [Hin%elem_of_singleton|Hin]%elem_of_union.
      * subst i. right. exists k. split; [|done]. rewrite Hk'. cbn. lia.
      * destruct (I5 _ Hin) as [|(n & Hn' & ->)]; [by left|].
        right. exists n. split; [|done]. rewrite Hk'. cbn. lia.
    + rewrite Hk', length_app. cbn. lia.
  - (* the identifier is kept *)
    apply orb_false_iff in Hcond as [Hid Hseen].
    apply no_id_false in Hid as (i & Hi & Hne). rewrite Hi in *. cbn in Hseen.
    apply bool_decide_eq_false in Hseen.
    assert (id_at (children e) p = Some i) as Hidp.
    { unfold id_at. rewrite Hn. done. }
    assert (p ∉ done) as Hpd.
    { intros Hpd. destruct (I3 p Hpd) as (j & Hj & _ & Hin). congruence. }
    exists ({[ i ]} ∪ ids), e. split; [done|].
    split; [done|]. split; [|split; [|split; [|split]]].
    + intros q Hqd. apply not_elem_of_app in Hqd as [Hqd _]. by apply I2.
    + intros q [Hqd|Hqp%list_elem_of_singleton]%elem_of_app.
      * destruct (I3 q Hqd) as (j & ? & ? & ?).
        exists j. split; [done|]. split; [done|].
        apply elem_of_union. by right.
      * subst q. exists i. split; [done|]. split; [done|].
        apply elem_of_union. left. by apply elem_of_singleton.
    + assert (forall q, q ∈ done -> id_at (children e) q ≠ Some i) as Hother.
      { intros q Hqd. destruct (I3 q Hqd) as (j & Hj & _ & Hin).
        rewrite Hj. by intros [= ->]. }
      intros q q' [Hq1|Hq1%list_elem_of_singleton]%elem_of_app
        [Hq2|Hq2%list_elem_of_singleton]%elem_of_app Hne'; subst.
      * by apply I4.
      * rewrite Hidp. by apply Hother.
      * rewrite Hidp. intros Heq. by eapply (Hother q').
      * done.
    + intros j [Hin%elem_of_singleton|Hin]%elem_of_union.
      * subst j. left. eapply id_present. rewrite <- I2; done.
      * by apply I5.
    + rewrite length_app. cbn. lia.
Qed.

(** ** The whole pass *)

Lemma assign_loop nanoid doc0 k0 (P : list path) :
  NoDup (nanoid <$> seq k0 (length P)) ->
  Forall (fun i => i ≠ "" /\ i ∉ present_ids doc0) (nanoid <$> seq k0 (length P)) ->
  Forall (element_at doc0) P ->
  forall P2 P1 ids e,
    P = P1 ++ P2 ->
    enforced nanoid doc0 k0 P1 ids e ->
    exists ids' e',
      foldlM (fix_id nanoid) ids P2 e = Some (ids', e') /\
      enforced nanoid doc0 k0 P ids' e'.
Proof.
  intros Hnd Hfresh Hel. induction P2 as [|p P2 IH]; intros P1 ids e HP Henf.
  - rewrite app_nil_r in HP. subst P1. by exists ids, e.
  - destruct (fix_id_step nanoid doc0 k0 P P1 p ids e Hnd Hfresh)
      as (ids1 & e1 & Hstep & Henf1); [| |done|].
    { rewrite HP, length_app. cbn. lia. }
    { eapply Forall_forall; [exact Hel|]. rewrite HP.
      apply elem_of_app. right. by left. }
    destruct (IH (P1 ++ [p]) ids1 e1) as (ids' & e' & Hloop & Henf');
      [by rewrite <- app_assoc|done|].
    exists ids', e'. split; [|done]. cbn [foldlM].
    by rewrite (T_bind_Some _ _ _ _ _ Hstep).
Qed.

Lemma element_at_same_shape doc doc' p :
  (forall q, isText <$> node_at doc' q = isText <$> node_at doc q) ->
  element_at doc' p <-> element_at doc p.
Proof.
  intros H. unfold element_at. specialize (H p).
  split; intros (Hp & pr & cs & Hn); (split; [done|]); rewrite Hn in H.
  - destruct (node_at doc p) as [[]|]; try done. by eexists _, _.
  - destruct (node_at doc' p) as [[]|]; try done. by eexists _, _.
Qed.

(** C3.  The Identity Enforcer runs exactly when the normalized path is
    the root.  When the identifiers it draws from the generator are
    non-empty, pairwise distinct and not present in the tree, the pass
    does not throw, keeps the shape of the tree, and hands over to the
    wrapped [normalizeNode] a tree in which every element has a non-empty
    id and no two elements have the same id. *)
Theorem identity_enforcer (normalizeNode : path -> T unit)
    (nanoid : nat -> string) e :
  fresh_ids nanoid e ->
  (forall p, p ≠ [] ->
     withIDs_normalizeNode normalizeNode nanoid p e = normalizeNode p e) /\
  exists e1,
    assign_ids nanoid e = Some ((), e1) /\
    withIDs_normalizeNode normalizeNode nanoid [] e = normalizeNode [] e1 /\
    (forall p, element_at (children e1) p <-> element_at (children e) p) /\
    (forall p, element_at (children e1) p ->
       exists i, id_at (children e1) p = Some i /\ i ≠ "") /\
    (forall p q, element_at (children e1) p -> element_at (children e1) q ->
       p ≠ q -> id_at (children e1) p ≠ id_at (children e1) q).
Proof.
  intros [Hnd Hfresh]. split.
  { intros p Hp. unfold withIDs_normalizeNode.
    rewrite bool_decide_eq_true_2; [done|]. destruct p; [done|]. cbn. lia. }
  destruct (assign_loop nanoid (children e) (id_calls e) (blocks e) Hnd Hfresh)
    with (P2 := blocks e) (P1 := @nil path) (ids := (∅ : gset string)) (e := e)
    as (ids' & e1 & Hloop & I1 & I2 & I3 & I4 & I5 & I6).
  { apply Forall_forall. intros p. apply elem_of_blocks. }
  { done. }
  { split; [done|]. split; [done|]. split; [by intros q ?%elem_of_nil|].
    split; [by intros q q' ?%elem_of_nil|].
    split; [by intros i ?%elem_of_empty|]. cbn. lia. }
  assert (assign_ids nanoid e = Some ((), e1)) as Hassign.
  { unfold assign_ids. by rewrite (T_bind_Some _ _ _ _ _ Hloop). }
  assert (forall p, element_at (children e1) p <-> element_at (children e) p)
    as Hshape by (intros p; by apply element_at_same_shape).
  exists e1. split; [done|]. split; [|split; [done|split]].
  - unfold withIDs_normalizeNode. rewrite bool_decide_eq_false_2 by (cbn; lia).
    by rewrite (T_bind_Some _ _ _ _ _ Hassign).
  - intros p Hp%Hshape%elem_of_blocks. destruct (I3 p Hp) as (i & ? & ? & _).
    by exists i.
  - intros p q Hp%Hshape%elem_of_blocks Hq%Hshape%elem_of_blocks.
    by apply I4.
Qed.

End IdentityFacts.

(** ** Concrete runs of the normalizer *)

Section NormalizeRuns.
Import Slate Normalize EditorSpec SlateSamples.

(** C2 as stated fails: normalizing the lone scene to its fixed point
    does not give the expected tree. *)
Lemma lone_scene_not_as_expected :
  exists e',
    normalize_force nesting_editor (Editor_ lone_scene [] [] 0) = Some ((), e') /\
    dirty e' = [] /\
    children e' ≠ lone_scene_expected.
Proof. eexists. split; [by vm_compute|]. split; [done|]. by vm_compute. Qed.

(** C2 (amended).  Normalizing the lone scene
    [{scene, [{hscene "Old"}, {p "hi"}]}] to its fixed point gives
    [{part, name "Old", [{hpart "Old"}, {scene, name "hi",
    [{hscene "hi"}]}]}]: the scene is wrapped in a part and then
    unwrapped at the root, its header becomes the part header, and the
    paragraph becomes the header of a new scene.  That tree is a fixed
    point, and the chain with [withIDs] gives the same tree with
    identifiers. *)
Theorem lone_scene_normalization :
  (exists e',
     normalize_force nesting_editor (Editor_ lone_scene [] [] 0) = Some ((), e') /\
     children e' = lone_scene_normal /\ dirty e' = []) /\
  (exists e',
     normalize_force nesting_editor (Editor_ lone_scene_normal [] [] 0)
       = Some ((), e') /\
     children e' = lone_scene_normal /\ dirty e' = []) /\
  (exists e',
     normalize_force (full_editor ids1) (Editor_ lone_scene [] [] 0)
       = Some ((), e') /\
     map erase_ids (children e') = lone_scene_normal /\ dirty e' = []).
Proof.
  split; [|split]; (eexists; split; [by vm_compute|]; by split).
Qed.

(** Witness of C4 (amended): the second of two folded scenes has no
    header; both are unfolded, and the second is merged into the
    first. *)
Lemma checkBlockHeader_repair_witness :
  let unfolded_scene := Element (Props (Some "scene") None None (Some false)) in
  exists e2 e',
    (_ ← doFold (folded_scene [ el "hscene" [tx "S"]; el "p" [tx "a"] ])
           [0; 1] false;
     doFold (folded_scene [ el "p" [tx "b"] ]) [0; 2] false)
      (Editor_ two_scenes_doc [] [] 0) = Some ((), e2) /\
    with_children [0]
      [ el "hpart" [tx "P"];
        unfolded_scene [ el "hscene" [tx "S"]; el "p" [tx "a"] ];
        unfolded_scene [ el "p" [tx "b"] ] ]
      two_scenes_doc = Some (children e2) /\
    checkBlockHeader (folded_scene [ el "p" [tx "b"] ]) [0; 2] "hscene"
      (Editor_ two_scenes_doc [] [] 0) = Some (false, e') /\
    with_children [0]
      [ el "hpart" [tx "P"];
        unfolded_scene [ el "hscene" [tx "S"]; el "p" [tx "a"]; el "p" [tx "b"] ] ]
      two_scenes_doc = Some (children e').
Proof.
  destruct (checkBlockHeader_repair (Editor_ two_scenes_doc [] [] 0) [0] 2
              (Props (Some "part") None (Some "P") None)
              (el "hpart" [tx "P"] :: two_scenes)
              (Props (Some "scene") None None (Some true)) [ el "p" [tx "b"] ]
              "hscene" eq_refl eq_refl) as (_ & _ & H).
  destruct (H eq_refl (el "p" [tx "b"]) [] eq_refl ltac:(discriminate))
    as (H' & _).
  apply (H' 1 (Props (Some "scene") None None (Some true))
            [ el "hscene" [tx "S"]; el "p" [tx "a"] ]); reflexivity.
Defined.

(** C4 as stated fails: the scene "B" has no header and the sibling
    before it is a scene, but an empty one.  The two are not merged: the
    empty scene is removed, and "B" stays what it was. *)
Lemma checkBlockHeader_empty_previous :
  node_at empty_scene_doc [0; 1] = Some (named "scene" "A" [ tx "" ]) /\
  exists e',
    checkBlockHeader (named "scene" "B" [ el "p" [tx "b"] ]) [0; 2] "hscene"
      (Editor_ empty_scene_doc [] [] 0) = Some (false, e') /\
    children e'
    = [ named "part" "P"
          [ el "hpart" [tx "P"]; named "scene" "B" [ el "p" [tx "b"] ] ] ].
Proof. split; [done|]. eexists. split; [by vm_compute|done]. Qed.

(** C8 as stated fails: the second child of the part is a scene that
    starts with a paragraph.  After normalizing the part the second child
    still has type "scene"; it is its first child that became "hscene". *)
Lemma part_second_child_keeps_type :
  exists e',
    nesting_editor [0] (Editor_ part_scene_p [] [] 0) = Some ((), e') /\
    node_type <$> node_at (children e') [0; 1] = Some (Some "scene") /\
    node_type <$> node_at (children e') [0; 1; 0] = Some (Some "hscene").
Proof. eexists. split; [by vm_compute|]. by split. Qed.

(** Witness of C8 (amended): a part without header and without a
    previous sibling; its header check passes, and the paragraph that
    opens its second child becomes a scene header. *)
Lemma part_checks_header_of_second_child_witness :
  exists e',
    fixNesting_normalizeNode base_normalizeNode [0]
      (Editor_ part_without_header [] [] 0) = Some ((), e') /\
    children e'
    = [ named "part" "A"
          [ el "p" [tx "a"]; el "scene" [ el "hscene" [tx "x"] ] ] ].
Proof.
  destruct (part_checks_header_of_second_child base_normalizeNode
              (Editor_ part_without_header [] [] 0) 0
              (Props (Some "part") None (Some "A") None) (el "p" [tx "a"])
              (el "scene" [ el "p" [tx "x"] ]) []
              eq_refl eq_refl ltac:(right; split; [reflexivity|by left]))
    as [_ H].
  destruct (H (Props (Some "scene") None None None) (el "p" [tx "x"]) []
              eq_refl) as [_ H'].
  apply H'. discriminate.
Defined.

(** Witness of C3: a document with a missing, an empty and a repeated
    identifier. *)
Lemma identity_enforcer_witness :
  let e := Editor_ clashing_ids [] [] 0 in
  (forall p, p ≠ [] ->
     withIDs_normalizeNode nesting_editor ids1 p e = nesting_editor p e) /\
  exists e1,
    assign_ids ids1 e = Some ((), e1) /\
    withIDs_normalizeNode nesting_editor ids1 [] e = nesting_editor [] e1 /\
    (forall p, element_at (children e1) p <-> element_at (children e) p) /\
    (forall p, element_at (children e1) p ->
       exists i, id_at (children e1) p = Some i /\ i ≠ "") /\
    (forall p q, element_at (children e1) p -> element_at (children e1) q ->
       p ≠ q -> id_at (children e1) p ≠ id_at (children e1) q).
Proof.
  apply (identity_enforcer nesting_editor ids1 (Editor_ clashing_ids [] [] 0)).
  split; apply (bool_decide_unpack _); by vm_compute.
Defined.

(** The identifiers after that pass. *)
Lemma identity_enforcer_run :
  exists e1,
    assign_ids ids1 (Editor_ clashing_ids [] [] 0) = Some ((), e1) /\
    children e1 = repaired_ids.
Proof. eexists. split; [by vm_compute|done]. Qed.

End NormalizeRuns.

(* ===================================================================== *)
(** * Theorems: the keyboard handlers                                     *)
(* ===================================================================== *)

Section EditingFacts.
Import Slate EditorSpec Editing EditingSpec.

(** ** [Editor.above] *)

Lemma Path_levels_snoc (p : path) i :
  Path_levels (p ++ [i]) = Path_levels p ++ [p ++ [i]].
Proof.
  unfold Path_levels. rewrite length_app. cbn [length].
  replace (S (length p + 1)) with (S (length p) + 1) by lia.
  rewrite seq_app, map_app. f_equal.
  - apply map_ext_in. intros n Hn%in_seq. rewrite take_app_le; [done|lia].
  - cbn [seq map]. f_equal. rewrite take_ge; [done|]. rewrite length_app.
    cbn. lia.
Qed.

Lemma Node_levels_nil r : Node_levels r [] = Some [(r, [])].
Proof. done. Qed.

Lemma Node_levels_snoc r (p : path) i lv n :
  Node_levels r p = Some lv -> get r (p ++ [i]) = Some n ->
  Node_levels r (p ++ [i]) = Some (lv ++ [(n, p ++ [i])]).
Proof.
  unfold Node_levels. intros Hlv Hn. rewrite Path_levels_snoc.
  apply mapM_Some. apply mapM_Some in Hlv. apply Forall2_app; [done|].
  constructor; [|constructor]. by rewrite Hn.
Qed.

Lemma get_prefix r (p : path) i n :
  get r (p ++ [i]) = Some n -> is_Some (get r p).
Proof. rewrite get_app. destruct (get r p); [by eexists|done]. Qed.

Lemma Node_levels_is_Some r (p : path) :
  is_Some (get r p) -> is_Some (Node_levels r p).
Proof.
  induction p as [|i p IH] using rev_ind; intros [n Hn]; [by eexists|].
  destruct (IH (get_prefix _ _ _ _ Hn)) as [lv Hlv].
  eexists. by eapply Node_levels_snoc.
Qed.

Lemma wanted_dec match_ p0 n q : Decision (wanted match_ p0 n q).
Proof. unfold wanted. apply _. Defined.
#[local] Existing Instance wanted_dec.

Lemma pick_snoc match_ p0 lv n q :
  pick match_ p0 (lv ++ [(n, q)])
  = if decide (wanted match_ p0 n q) then Some (n, q) else pick match_ p0 lv.
Proof.
  unfold pick. rewrite filter_app, reverse_app, filter_app.
  assert (forall x : node * path, reverse [x] = [x]) as Hrev by done.
  destruct (decide (wanted match_ p0 n q)) as [(Hm & Ht & Hq)|W].
  - rewrite filter_cons_True by done.
    rewrite filter_nil, Hrev. rewrite filter_cons_True; [done|].
    cbn. rewrite Ht. unfold Path_equals.
    by rewrite bool_decide_eq_false_2.
  - destruct (decide (match_ n q = true)) as [Hm|Hm].
    + rewrite filter_cons_True by done.
      rewrite filter_nil, Hrev. rewrite filter_cons_False; [done|].
      cbn. intros [Ht Hq%negb_true_iff]%andb_true_iff.
      apply W. split; [done|]. split; [by apply negb_true_iff|].
      unfold Path_equals in Hq. by apply bool_decide_eq_false in Hq.
    + rewrite filter_cons_False by done. by rewrite filter_nil.
Qed.

Lemma prefix_snoc_inv (q p : path) i :
  q `prefix_of` p ++ [i] -> q `prefix_of` p \/ q = p ++ [i].
Proof.
  intros [k Hk]. destruct k as [|x k _] using rev_ind.
  - right. by rewrite app_nil_r in Hk.
  - left. rewrite app_assoc in Hk. apply app_inj_tail in Hk as [-> _].
    by exists k.
Qed.

(** [pick] returns the lowest wanted level, if there is one. *)
Lemma pick_spec match_ p0 r (p : path) lv :
  Node_levels r p = Some lv ->
  match pick match_ p0 lv with
  | Some (n, q) =>
      q `prefix_of` p /\ get r q = Some n /\ wanted match_ p0 n q /\
      forall q' n', q' `prefix_of` p -> get r q' = Some n' ->
                    wanted match_ p0 n' q' -> length q' <= length q
  | None =>
      forall q' n', q' `prefix_of` p -> get r q' = Some n' ->
                    ~ wanted match_ p0 n' q'
  end.
Proof.
  revert lv. induction p as [|i p IH] using rev_ind; intros lv Hlv.
  - rewrite Node_levels_nil in Hlv. injection Hlv as <-.
    change [(r, [])] with ([] ++ [(r, @nil nat)]). rewrite pick_snoc.
    destruct (decide _) as [W|W].
    + split; [done|]. split; [done|]. split; [done|].
      intros q' n' Hq' _ _. apply prefix_nil_inv in Hq' as ->. done.
    + cbn. intros q' n' Hq' Hn'. apply prefix_nil_inv in Hq' as ->.
      cbn in Hn'. by injection Hn' as <-.
  - assert (is_Some (get r (p ++ [i]))) as [n Hn].
    { unfold Node_levels in Hlv. rewrite Path_levels_snoc in Hlv.
      apply mapM_Some in Hlv. apply Forall2_app_inv_l in Hlv
        as (l1 & l2 & _ & H2 & _).
      apply Forall2_cons_inv_l in H2 as (y & ? & Hy & _).
      destruct (get r (p ++ [i])); [by eexists|done]. }
    destruct (Node_levels_is_Some r p (get_prefix _ _ _ _ Hn)) as [lv' Hlv'].
    rewrite (Node_levels_snoc _ _ _ _ _ Hlv' Hn) in Hlv. injection Hlv as <-.
    rewrite pick_snoc. specialize (IH lv' Hlv').
    destruct (decide _) as [W|W].
    + split; [done|]. split; [done|]. split; [done|].
      intros q' n' Hq' _ _. by apply prefix_length.
    + destruct (pick match_ p0 lv') as [[m q]|].
      * destruct IH as (Hq & Hm & Hw & Hlow). split; [|split; [done|split; [done|]]].
        { etrans; [exact Hq|]. by apply prefix_app_r. }
        intros q' n' Hq' Hn' Hw'. apply prefix_snoc_inv in Hq' as [Hq'| ->].
        -- by eapply Hlow.
        -- rewrite Hn in Hn'. by injection Hn' as <-.
      * intros q' n' Hq' Hn' Hw'. apply prefix_snoc_inv in Hq' as [Hq'| ->].
        -- by eapply IH.
        -- rewrite Hn in Hn'. by injection Hn' as <-.
Qed.

Lemma prefix_same_length (q q' p : path) :
  q `prefix_of` p -> q' `prefix_of` p -> length q = length q' -> q = q'.
Proof.
  intros [k ->] [k' Hk'] Hlen.
  apply (f_equal (take (length q))) in Hk'.
  rewrite take_app_length in Hk'. rewrite Hlen, take_app_length in Hk'. done.
Qed.

Lemma Editor_above_eq match_ e sel :
  selection e = Some sel ->
  Editor_above match_ e
  = (lv ← Node_levels (root (children e)) (Editor_path sel);
     Some (pick match_ (Editor_path sel) lv)).
Proof. intros H. unfold Editor_above. by rewrite H. Qed.

(** [Editor.above] finds the nearest wanted node. *)
Lemma Editor_above_nearest match_ e sel n q :
  selection e = Some sel ->
  is_Some (node_at (children e) (Editor_path sel)) ->
  q `prefix_of` Editor_path sel ->
  node_at (children e) q = Some n ->
  wanted match_ (Editor_path sel) n q ->
  (forall q' n', q' `prefix_of` Editor_path sel ->
     node_at (children e) q' = Some n' ->
     wanted match_ (Editor_path sel) n' q' -> length q' <= length q) ->
  Editor_above match_ e = Some (Some (n, q)).
Proof.
  intros Hsel Hv Hq Hn Hw Hlow. rewrite (Editor_above_eq _ _ _ Hsel).
  destruct (Node_levels_is_Some _ _ Hv) as [lv Hlv]. rewrite Hlv. cbn.
  pose proof (pick_spec match_ (Editor_path sel) _ _ _ Hlv) as Hp.
  destruct (pick _ _ lv) as [[m q']|].
  - destruct Hp as (Hq' & Hm & Hw' & Hlow').
    assert (q' = q) as ->.
    { eapply prefix_same_length; [done..|]. apply Nat.le_antisymm.
      - by eapply Hlow.
      - by eapply Hlow'. }
    unfold node_at in Hn. rewrite Hn in Hm. by injection Hm as ->.
  - exfalso. by eapply Hp.
Qed.

Lemma Editor_above_none match_ e :
  (forall sel, selection e = Some sel ->
     is_Some (node_at (children e) (Editor_path sel)) /\
     forall q n, q `prefix_of` Editor_path sel ->
       node_at (children e) q = Some n ->
       ~ wanted match_ (Editor_path sel) n q) ->
  Editor_above match_ e = Some None.
Proof.
  intros H. destruct (selection e) as [sel|] eqn:Hsel.
  - destruct (H sel eq_refl) as [Hv Hno].
    rewrite (Editor_above_eq _ _ _ Hsel).
    destruct (Node_levels_is_Some _ _ Hv) as [lv Hlv]. rewrite Hlv. cbn.
    pose proof (pick_spec match_ (Editor_path sel) _ _ _ Hlv) as Hp.
    destruct (pick _ _ lv) as [[m q']|]; [|done].
    destruct Hp as (Hq' & Hm & Hw' & _). exfalso. by eapply Hno.
  - unfold Editor_above. by rewrite Hsel.
Qed.

(** ** Folded block protection *)






(** ** Operations on the document of the handlers *)

Lemma node_at_snoc doc (pp : path) i pr cs :
  node_at doc pp = Some (Element pr cs) -> node_at doc (pp ++ [i]) = cs !! i.
Proof. unfold node_at. intros H. by rewrite (get_snoc _ _ _ _ H). Qed.

Lemma transform_split_node doc (pp : path) k pr cs n pos props :
  node_at doc pp = Some (Element pr cs) -> cs !! k = Some n ->
  transform (split_node (pp ++ [k]) pos props) (root doc)
  = update pp (fun _ => Some (Element pr
       (take k cs ++ (split_at n pos props).1 :: (split_at n pos props).2
          :: drop (S k) cs))) (root doc).
Proof.
  intros N Hk. cbn. rewrite Path_parent_snoc, last_snoc_path. cbn.
  unfold update_children. rewrite (update_at _ _ _ _ N). cbn. rewrite Hk. cbn.
  by destruct (split_at n pos props).
Qed.

Lemma transform_set_node doc (pp : path) k pr cs n new :
  node_at doc pp = Some (Element pr cs) -> cs !! k = Some n ->
  transform (set_node (pp ++ [k]) new) (root doc)
  = update pp (fun _ => Some (Element pr (<[k := set_props n new]> cs)))
      (root doc).
Proof.
  intros N Hk. cbn. rewrite bool_decide_eq_false_2 by apply snoc_not_nil.
  by rewrite (update_snoc pp k (fun m => Some (set_props m new))
                _ _ _ _ _ N Hk eq_refl).
Qed.

#[local] Arguments transform : simpl never.

Lemma setNodes_at_children e (pp : path) k pr cs n new :
  node_at (children e) pp = Some (Element pr cs) -> cs !! k = Some n ->
  exists doc',
    setNodes_at new (pp ++ [k]) e = Some (Editor_ doc' (selection e)) /\
    with_children pp (<[k := set_props n new]> cs) (children e) = Some doc' /\
    node_at doc' pp = Some (Element pr (<[k := set_props n new]> cs)).
Proof.
  intros N Hk.
  destruct (with_children_spec pp (children e) pr cs
              (<[k := set_props n new]> cs) N) as (doc' & W & N' & U).
  exists doc'. split; [|done]. unfold setNodes_at.
  pose proof (node_at_snoc _ _ k _ _ N) as Nk. rewrite Hk in Nk.
  unfold node_at in Nk. rewrite Nk. cbn.
  rewrite bool_decide_eq_false_2 by apply snoc_not_nil.
  case_bool_decide as Hc.
  - rewrite (set_props_unchanged _ _ Hc), list_insert_id in U by done.
    rewrite (update_same _ _ _ N) in U. injection U as U.
    destruct e; cbn in *. by subst.
  - rewrite (transform_set_node _ _ _ _ _ _ _ N Hk), set_props_changed, U.
    done.
Qed.

Lemma Path_common_same (p : path) : Path_common p p = p.
Proof. induction p as [|i p IH]; [done|]. cbn. by rewrite bool_decide_eq_true_2, IH. Qed.

(** At a caret in a child of the element at [b], the block found by
    [Editor.above] is that element. *)
Lemma Editor_above_block e (b : path) i off block leaf :
  b ≠ [] ->
  selection e = caret (b ++ [i]) off ->
  node_at (children e) b = Some block -> isElement block = true ->
  node_at (children e) (b ++ [i]) = Some leaf ->
  Editor_above Editor_isBlock e = Some (Some (block, b)).
Proof.
  intros Hb Hsel Nb He Nl.
  assert (Editor_path (Range_ (Point_ (b ++ [i]) off) (Point_ (b ++ [i]) off))
          = b ++ [i]) as Hpath by apply Path_common_same.
  eapply Editor_above_nearest; [exact Hsel|..]; rewrite ?Hpath.
  - by eexists.
  - by apply prefix_app_r.
  - done.
  - unfold wanted, Editor_isBlock, Element_isElement. rewrite He.
    rewrite bool_decide_eq_false_2 by done. split; [done|].
    split; [by apply negb_true_iff in He|].
    intros Heq. apply (f_equal length) in Heq. rewrite length_app in Heq.
    cbn in Heq. lia.
  - intros q' n' Hq' _ (_ & _ & Hne).
    apply prefix_snoc_inv in Hq' as [Hq'|]; [|done]. by apply prefix_length.
Qed.

Lemma take_insert_same {A} (l : list A) k x : take k (<[k := x]> l) = take k l.
Proof. revert k. induction l; intros [|k]; cbn; [done..|]. by f_equal. Qed.

Lemma drop_insert_after {A} (l : list A) k x :
  drop (S k) (<[k := x]> l) = drop (S k) l.
Proof. revert k. induction l; intros [|k]; cbn; [done..|]. by rewrite IHl. Qed.

Lemma insert_middle {A} (l1 l2 : list A) x y k :
  length l1 = k -> <[k := y]> (l1 ++ x :: l2) = l1 ++ y :: l2.
Proof. intros <-. induction l1; cbn; [done|]. by f_equal. Qed.

Lemma lookup_middle {A} (l1 l2 : list A) x k :
  length l1 = k -> (l1 ++ x :: l2) !! k = Some x.
Proof. intros <-. by induction l1. Qed.

(** ** Line breaks after styled blocks *)

Lemma splitNodes_always_children e (pp : path) k ppr cs bpr leaves i lpr s off :
  node_at (children e) pp = Some (Element ppr cs) ->
  cs !! k = Some (Element bpr leaves) ->
  leaves !! i = Some (Text lpr s) ->
  let first := Element bpr (take i leaves ++ [Text lpr (str_take off s)]) in
  let second := Element bpr (Text lpr (str_drop off s) :: drop (S i) leaves) in
  let cs' := take k cs ++ first :: second :: drop (S k) cs in
  exists doc',
    splitNodes_always (pp ++ [k]) i off e
      = Some (Editor_ doc' (caret (pp ++ [S k; 0]) 0)) /\
    with_children pp cs' (children e) = Some doc' /\
    node_at doc' pp = Some (Element ppr cs').
Proof.
  intros N Hk Hi first second cs'.
  pose proof (node_at_snoc _ _ k _ _ N) as Nb. rewrite Hk in Nb.
  set (leaves1 := take i leaves ++ Text lpr (str_take off s)
                    :: Text lpr (str_drop off s) :: drop (S i) leaves).
  set (cs1 := <[k := Element bpr leaves1]> cs).
  destruct (with_children_spec pp (children e) ppr cs cs1 N)
    as (doc1 & W1 & N1 & U1).
  destruct (with_children_spec pp (children e) ppr cs cs' N)
    as (doc' & W & N' & U).
  exists doc'. split; [|done].
  unfold splitNodes_always. unfold node_at in Nb. rewrite Nb. cbn.
  rewrite Hi. cbn.
  (* the leaf is split *)
  rewrite (transform_split_node _ (pp ++ [k]) i bpr leaves (Text lpr s) off lpr)
    by done.
  cbn [split_at fst snd]. fold leaves1.
  rewrite update_app, (update_at _ _ _ _ N). cbn. rewrite Hk. cbn.
  fold cs1. rewrite U1. cbn.
  (* the block is split *)
  assert (cs1 !! k = Some (Element bpr leaves1)) as Hk1.
  { unfold cs1. rewrite list_lookup_insert_eq; [done|]. by eapply lookup_lt_Some. }
  rewrite (transform_split_node doc1 pp k ppr cs1 _ (S i) bpr N1 Hk1).
  cbn [split_at fst snd].
  assert (length (take i leaves) = i) as Hlen.
  { rewrite length_take. apply lookup_lt_Some in Hi. lia. }
  assert (take (S i) leaves1 = take i leaves ++ [Text lpr (str_take off s)])
    as ->.
  { unfold leaves1. rewrite take_app_ge by lia. rewrite Hlen.
    replace (S i - i) with 1 by lia. done. }
  assert (drop (S i) leaves1 = Text lpr (str_drop off s) :: drop (S i) leaves)
    as ->.
  { unfold leaves1. rewrite drop_app_ge by lia. rewrite Hlen.
    replace (S i - i) with 1 by lia. done. }
  unfold cs1. rewrite take_insert_same, drop_insert_after.
  rewrite (update_twice _ _ _ _ _ U1). fold first second cs'. rewrite U. cbn.
  rewrite Path_next_snoc. cbn. unfold caret.
  by rewrite <- app_assoc.
Qed.

(** C7 (amended).  A line break at a caret inside a block whose type has
    a successor style splits the block at the caret, and the second half
    gets the successor style instead of the type of the block -- unless
    the block is an empty "synopsis" or "missing" block: that block is
    only reset to "p", nothing is split and the caret stays. *)
Theorem insertBreak_style_after (insertBreak : handler) e
    (pp : path) k ppr cs bpr leaves i lpr s off ty newty :
  node_at (children e) pp = Some (Element ppr cs) ->
  cs !! k = Some (Element bpr leaves) ->
  leaves !! i = Some (Text lpr s) ->
  selection e = caret (pp ++ [k; i]) off ->
  p_type bpr = Some ty ->
  own STYLEAFTER ty = Some newty ->
  let block := Element bpr leaves in
  let first := Element bpr (take i leaves ++ [Text lpr (str_take off s)]) in
  let second :=
    Element (merge_props bpr (Props (Some newty) None None None))
            (Text lpr (str_drop off s) :: drop (S i) leaves) in
  (ty ∈ RESETEMPTY /\ Node_string block = "" ->
   exists doc',
     markup_insertBreak insertBreak e = Some (Editor_ doc' (selection e)) /\
     with_children pp (<[k := retyped "p" block]> cs) (children e) = Some doc') /\
  (~ (ty ∈ RESETEMPTY /\ Node_string block = "") ->
   exists doc',
     markup_insertBreak insertBreak e
       = Some (Editor_ doc' (caret (pp ++ [S k; 0]) 0)) /\
     with_children pp (take k cs ++ first :: second :: drop (S k) cs)
       (children e) = Some doc').
Proof.
  intros N Hk Hi Hsel Hty Hown block first second. split.
  { intros [Hin Hempty].
    pose proof (node_at_snoc _ _ k _ _ N) as Nb. rewrite Hk in Nb.
    pose proof (node_at_snoc _ _ i _ _ Nb) as Nl. cbn in Nl. rewrite Hi in Nl.
    assert (pp ++ [k; i] = (pp ++ [k]) ++ [i]) as Hp by (by rewrite <- app_assoc).
    pose proof Hsel as Hsel'. rewrite Hp in Hsel'.
    pose proof (Editor_above_block e (pp ++ [k]) i off block _
                  (snoc_not_nil _ _) Hsel' Nb eq_refl Nl) as Habove.
    destruct (setNodes_at_children e pp k ppr cs block
                (Props (Some "p") None None None) N Hk)
      as (doc' & Hset & W & _).
    exists doc'. split; [|exact W].
    unfold markup_insertBreak. rewrite Hsel. unfold caret.
    unfold Range_isCollapsed. cbn [anchor focus].
    rewrite bool_decide_eq_true_2 by done. cbn [negb].
    rewrite Habove. cbn [mbind option_bind].
    unfold node_type. cbn [props_of block]. rewrite Hty. cbn [from_option id].
    rewrite (bool_decide_eq_true_2 (Some ty ∈ Some <$> RESETEMPTY))
      by (apply list_elem_of_fmap; by exists ty).
    rewrite (bool_decide_eq_true_2 (Node_string (Element bpr leaves) = ""))
      by exact Hempty.
    cbn [andb]. unfold setNodes_here. rewrite Habove. cbn [mbind option_bind].
    rewrite Hset. unfold caret in Hsel. by rewrite Hsel. }
  intros Hreset. subst block.
  set (block := Element bpr leaves).
  pose proof (node_at_snoc _ _ k _ _ N) as Nb. rewrite Hk in Nb.
  pose proof (node_at_snoc _ _ i _ _ Nb) as Nl. cbn in Nl. rewrite Hi in Nl.
  assert (pp ++ [k; i] = (pp ++ [k]) ++ [i]) as Hp by (by rewrite <- app_assoc).
  rewrite Hp in Hsel.
  pose proof (Editor_above_block e (pp ++ [k]) i off block _
                (snoc_not_nil _ _) Hsel Nb eq_refl Nl) as Habove.
  destruct (splitNodes_always_children e pp k ppr cs bpr leaves i lpr s off
              N Hk Hi) as (doc1 & Hsplit & W1 & N1).
  set (half := Element bpr (Text lpr (str_drop off s) :: drop (S i) leaves)) in *.
  set (cs1 := take k cs ++
              Element bpr (take i leaves ++ [Text lpr (str_take off s)])
              :: half :: drop (S k) cs) in *.
  assert (length (take k cs) = k) as Hlen.
  { rewrite length_take. apply lookup_lt_Some in Hk. lia. }
  assert (cs1 !! S k = Some half) as Hhalf.
  { unfold cs1. rewrite lookup_app_r by lia. rewrite Hlen.
    by replace (S k - k) with 1 by lia. }
  set (e1 := Editor_ doc1 (caret (pp ++ [S k; 0]) 0)) in *.
  destruct (setNodes_at_children e1 pp (S k) ppr cs1 half
              (Props (Some newty) None None None) N1 Hhalf)
    as (doc2 & Hset & W2 & N2).
  exists doc2. split.
  - unfold markup_insertBreak. rewrite Hsel. unfold caret.
    unfold Range_isCollapsed. cbn [anchor focus].
    rewrite bool_decide_eq_true_2 by done. cbn [negb].
    rewrite Habove. cbn [mbind option_bind].
    unfold node_type. cbn [props_of block]. rewrite Hty. cbn [from_option id].
    assert (bool_decide (Some ty ∈ Some <$> RESETEMPTY)
            && bool_decide (Node_string block = "") = false) as ->.
    { apply andb_false_iff. destruct (decide (ty ∈ RESETEMPTY)) as [Hin|Hin].
      - right. apply bool_decide_eq_false. intros Hs. by apply Hreset.
      - left. apply bool_decide_eq_false. intros Hin'. apply Hin.
        apply list_elem_of_fmap in Hin' as (y & [= ->] & Hy). done. }
    assert (js_in ty STYLEAFTER = true) as ->.
    { unfold js_in. rewrite Hown. by rewrite bool_decide_eq_true_2. }
    rewrite Hown. cbn [mbind option_bind pt_path pt_offset].
    rewrite last_snoc_path. cbn [mbind option_bind].
    rewrite Hsplit. cbn [mbind option_bind]. fold e1.
    unfold setNodes_here.
    assert (Editor_above Editor_isBlock e1 = Some (Some (half, pp ++ [S k])))
      as ->.
    { eapply (Editor_above_block e1 (pp ++ [S k]) 0 0 half).
      - apply snoc_not_nil.
      - cbn. unfold caret. by rewrite <- app_assoc.
      - cbn. by rewrite (node_at_snoc _ _ (S k) _ _ N1).
      - done.
      - cbn. rewrite (node_at_snoc _ (pp ++ [S k]) 0 bpr
                        (Text lpr (str_drop off s) :: drop (S i) leaves)); [done|].
        by rewrite (node_at_snoc _ _ (S k) _ _ N1). }
    cbn [mbind option_bind]. rewrite Hset. done.
  - pose proof (with_children_spec pp (children e) ppr cs cs1 N)
      as (d1 & Wd1 & _ & U1).
    assert (d1 = doc1) as -> by congruence.
    unfold with_children in *.
    rewrite (update_children_at pp (fun _ => Some (<[S k:=set_props half
               (Props (Some newty) None None None)]> cs1)) _ _ _ _ N1 eq_refl)
      in W2.
    cbn [children e1] in W2. rewrite (update_twice _ _ _ _ _ U1) in W2.
    rewrite (update_children_at pp (fun _ => Some (take k cs ++ first :: second
               :: drop (S k) cs)) _ _ _ _ N eq_refl).
    rewrite <- W2. do 4 f_equal. unfold cs1.
    rewrite (cons_middle _ (take k cs) (half :: _)), app_assoc.
    rewrite (insert_middle _ _ half _ (S k)) by (rewrite length_app; cbn; lia).
    by rewrite <- app_assoc.
Qed.

End EditingFacts.

(* ===================================================================== *)
(** * Theorems: folding by key, backspace and shortcuts                   *)
(* ===================================================================== *)

(** As for the other handlers, the statements are about the document a
    handler leaves before the normalization its operations trigger. *)

Section KeyFacts.
Import Slate EditorSpec Editing EditingSpec.

(** ** The fold key *)

Lemma Editor_above_at_selection match_ e sel :
  selection e = Some sel -> anchor sel = focus sel ->
  Editor_above_at match_ (anchor sel) e = Editor_above match_ e.
Proof.
  intros Hsel Hc. unfold Editor_above_at, Editor_above. rewrite Hsel.
  unfold Editor_path. rewrite <- Hc. by rewrite Path_common_same.
Qed.

Lemma wanted_container e sel n q :
  selection e = Some sel ->
  q `prefix_of` Editor_path sel -> node_at (children e) q = Some n ->
  wanted (fun n p => Element_isElement n p && is_container n)
         (Editor_path sel) n q
  <-> container_ancestor e n q.
Proof.
  intros Hsel Hq Hn. unfold wanted, Element_isElement,
    container_ancestor, above_selection. split.
  - intros ([[He Hnil%negb_true_iff]%andb_true_iff Hf]%andb_true_iff & Ht & Hne).
    exists sel. repeat split; try done.
    by apply bool_decide_eq_false in Hnil.
  - intros (sel' & Hsel' & Hq' & Hne & Hnil & _ & He & Hf).
    assert (sel' = sel) as -> by congruence.
    split; [|split; [|done]].
    + rewrite He, Hf. cbn. by rewrite bool_decide_eq_false_2.
    + unfold isElement in He. by apply negb_true_iff in He.
Qed.

Lemma start_point_set_props n new p :
  start_point (set_props n new) p = start_point n p.
Proof. by destruct n. Qed.

Lemma end_point_set_props n new p :
  end_point (set_props n new) p = end_point n p.
Proof. by destruct n. Qed.

(** X14.  The fold key.  Without a selection, or with an expanded one, nothing
    happens.  With a caret that no scene and no part contains, the
    handler throws.  Otherwise the nearest scene or part around the caret
    has its folded flag inverted (a missing flag counts as false) and
    nothing else in the document changes; the caret goes to the start of
    the first text of that container, and the handler throws when the
    container does not begin and end with a text. *)
Theorem toggleFold_flips e :
  selection_valid e ->
  ((selection e = None \/
    exists sel, selection e = Some sel /\ anchor sel ≠ focus sel) ->
   toggleFold e = Some e) /\
  ((exists sel, selection e = Some sel /\ anchor sel = focus sel) ->
   ((forall n p, ~ container_ancestor e n p) -> toggleFold e = None) /\
   (forall n p, nearest (container_ancestor e) n p ->
      exists doc',
        with_node p (with_folded (negb (is_folded n)) n) (children e)
          = Some doc' /\
        toggleFold e
        = match start_point n p, end_point n p with
          | Some start, Some _ =>
              Some (Editor_ doc' (Some (Range_ start start)))
          | _, _ => None
          end)).
Proof.
  intros Hv. split.
  { intros [Hnone|(sel & Hsel & Hne)]; unfold toggleFold.
    - by rewrite Hnone.
    - rewrite Hsel. unfold Range_isCollapsed.
      by rewrite bool_decide_eq_false_2. }
  intros (sel & Hsel & Hc). split.
  { intros Hno. unfold toggleFold. rewrite Hsel. unfold Range_isCollapsed.
    rewrite bool_decide_eq_true_2 by done. cbn [negb].
    rewrite (Editor_above_at_selection _ _ _ Hsel Hc).
    rewrite Editor_above_none; [done|].
    intros sel' Hsel'. split; [by apply Hv|].
    intros q n Hq Hn Hw. eapply Hno. by eapply wanted_container. }
  intros n p [Hf Hlow].
  pose proof Hf as (sel' & Hsel' & Hp & Hne & Hnil & Hn & He & Hcont).
  assert (sel' = sel) as -> by congruence.
  assert (Editor_above (fun n p => Element_isElement n p && is_container n) e
          = Some (Some (n, p))) as Habove.
  { eapply Editor_above_nearest; [done|by apply Hv|done|done| |].
    - by eapply wanted_container.
    - intros q' n' Hq' Hn' Hw'. eapply Hlow. by eapply wanted_container. }
  set (n' := with_folded (negb (is_folded n)) n).
  destruct (update_get p _ _ n' Hn) as (r' & Hr' & Hg').
  exists (children_of r'). split.
  { unfold with_node. by rewrite Hr'. }
  unfold toggleFold. rewrite Hsel. unfold Range_isCollapsed.
  rewrite bool_decide_eq_true_2 by done. cbn [negb].
  rewrite (Editor_above_at_selection _ _ _ Hsel Hc), Habove.
  cbn [mbind option_bind].
  assert (doFold n p (negb (is_folded n)) e
          = Some (Editor_ (children_of r') (selection e))) as ->.
  { unfold doFold. fold (is_folded n).
    rewrite bool_decide_eq_false_2 by (by destruct (is_folded n)).
    unfold setNodes_at. unfold node_at in Hn. rewrite Hn. cbn.
    rewrite bool_decide_eq_false_2 by done.
    case_bool_decide as Hch.
    - exfalso. unfold Normalize.changed_props in Hch. cbn in Hch.
      unfold is_folded in Hch.
      destruct (p_folded (props_of n)) as [[]|]; by vm_compute in Hch.
    - unfold transform.
      rewrite (update_at _ _ _ _ Hn), set_props_changed.
      fold (with_folded (negb (is_folded n)) n). fold n'. by rewrite Hr'. }
  cbn [mbind option_bind]. unfold Transforms_select, Editor_range.
  cbn [children]. rewrite <- (update_root _ _ _ _ Hnil Hr'), Hg'.
  cbn [mbind option_bind]. unfold n', with_folded.
  rewrite start_point_set_props, end_point_set_props.
  destruct (start_point n p) as [start|]; [|done]. cbn [mbind option_bind].
  destruct (end_point n p) as [end_|]; [|done]. done.
Qed.

(** ** Folding everything *)

Lemma for_each_app body l1 l2 e :
  for_each body (l1 ++ l2) e = for_each body l1 e ≫= for_each body l2.
Proof.
  revert e. induction l1 as [|[n p] l1 IH]; intros e; cbn; [done|].
  destruct (body n p e); cbn; [apply IH|done].
Qed.

Lemma start_point_parts_folded folded n :
  forall p, start_point (parts_folded folded n) p = start_point n p.
Proof.
  induction n as [pr s|pr cs IH] using node_induction; intros p; [done|].
  destruct cs as [|c cs]; [done|]. cbn.
  apply Forall_cons in IH as [IH _]. apply IH.
Qed.

Lemma end_point_parts_folded folded n :
  forall p, end_point (parts_folded folded n) p = end_point n p.
Proof.
  induction n as [pr s|pr cs IH] using node_induction; intros p; [done|].
  cbn. generalize 0 as i. induction cs as [|c cs IHcs]; intros i; [done|].
  apply Forall_cons in IH as [Hc IH]. cbn [map].
  destruct cs as [|c' cs]; [apply Hc|]. cbn [map] in *. by apply IHcs.
Qed.

Lemma fold_props_other folded pr :
  p_type pr ≠ Some "part" -> fold_props folded pr = pr.
Proof. intros H. unfold fold_props. by rewrite bool_decide_eq_false_2. Qed.

(** One part is folded. *)
Lemma doFold_part folded sel (q : path) r pr cs :
  q ≠ [] -> r = root (children_of r) ->
  get r q = Some (Element pr cs) -> p_type pr = Some "part" ->
  exists r',
    update q (fun _ => Some (Element (fold_props folded pr) cs)) r = Some r' /\
    doFold (Element pr cs) q folded (Editor_ (children_of r) sel)
      = Some (Editor_ (children_of r') sel).
Proof.
  intros Hq Hroot Hn Hty. unfold doFold, fold_props. cbn [props_of].
  rewrite (bool_decide_eq_true_2 _ Hty). cbn [andb].
  case_bool_decide as Hf; cbn [negb].
  - exists r. split; [|done]. by apply update_same.
  - destruct (update_get q _ _
                (Element (merge_props pr (Props None None None (Some folded))) cs)
                Hn) as (r' & Hr' & _).
    exists r'. split; [done|]. unfold setNodes_at. cbn [children].
    rewrite <- Hroot, Hn. cbn [mbind option_bind].
    rewrite bool_decide_eq_false_2 by done.
    case_bool_decide as Hch.
    + exfalso. apply (f_equal p_folded) in Hch.
      unfold Normalize.changed_props in Hch. cbn [p_folded no_props] in Hch.
      case_bool_decide as Hb; [|done]. apply Hf. cbn in Hb. by rewrite <- Hb.
    + unfold transform. rewrite bool_decide_eq_false_2 by done.
      rewrite (update_at _ _ _ _ Hn), set_props_changed. cbn [set_props].
      by rewrite Hr'.
Qed.

(** The children of a node are done one after the other. *)
Lemma fold_children folded sel (q : path) pr' cs :
  Forall (fun n => forall (q : path) r,
            q ≠ [] -> r = root (children_of r) -> get r q = Some n ->
            exists r',
              update q (fun _ => Some (parts_folded folded n)) r = Some r' /\
              for_each (fun n p => doFold n p folded)
                (filter (fun l => Element_isElement l.1 l.2 && is_part_node l.1
                                  = true) (nodes_from q n))
                (Editor_ (children_of r) sel)
              = Some (Editor_ (children_of r') sel)) cs ->
  forall pre r,
    r = root (children_of r) ->
    get r q = Some (Element pr' (pre ++ cs)) ->
    exists r',
      update q (fun _ => Some (Element pr' (pre ++ map (parts_folded folded) cs)))
        r = Some r' /\
      r' = root (children_of r') /\
      for_each (fun n p => doFold n p folded)
        (filter (fun l => Element_isElement l.1 l.2 && is_part_node l.1 = true)
           (nodes_of_children nodes_from q (length pre) cs))
        (Editor_ (children_of r) sel)
      = Some (Editor_ (children_of r') sel).
Proof.
  induction 1 as [|c cs Hc _ IH]; intros pre r Hroot Hn.
  - exists r. cbn. split; [by apply update_same|]. by split.
  - cbn [nodes_of_children]. rewrite filter_app, for_each_app.
    assert (get r (q ++ [length pre]) = Some c) as Hgc.
    { rewrite (get_snoc _ _ _ _ Hn). cbn. by rewrite list_lookup_middle. }
    destruct (Hc (q ++ [length pre]) r (snoc_not_nil _ _) Hroot Hgc)
      as (r1 & Hr1 & Hrun).
    rewrite Hrun. cbn [mbind option_bind].
    assert (r1 = root (children_of r1)) as Hroot1.
    { rewrite Hroot in Hr1. by eapply update_root; [apply snoc_not_nil|]. }
    rewrite (update_snoc q (length pre) _ r pr' (pre ++ c :: cs) c
               (parts_folded folded c) Hn (list_lookup_middle _ _ _ _ eq_refl)
               eq_refl) in Hr1.
    rewrite insert_app_r_alt, Nat.sub_diag in Hr1 by lia. cbn in Hr1.
    assert (get r1 q
            = Some (Element pr' ((pre ++ [parts_folded folded c]) ++ cs)))
      as Hn1.
    { destruct (update_get q r _
                  (Element pr' (pre ++ parts_folded folded c :: cs)) Hn)
        as (r1' & Hr1' & Hg).
      assert (r1' = r1) as -> by congruence.
      by rewrite <- app_assoc. }
    destruct (IH (pre ++ [parts_folded folded c]) r1 Hroot1 Hn1)
      as (r' & Hr' & Hroot' & Hrun').
    exists r'. split; [|split; [done|]].
    + rewrite (update_twice _ _ _ _ _ Hr1) in Hr'.
      rewrite <- Hr'. cbn [map]. by rewrite <- app_assoc.
    + rewrite length_app in Hrun'. cbn in Hrun'.
      by replace (length pre + 1) with (S (length pre)) in Hrun' by lia.
Qed.

(** A whole subtree is done. *)
Lemma fold_subtree folded sel n :
  forall (q : path) r,
    q ≠ [] -> r = root (children_of r) -> get r q = Some n ->
    exists r',
      update q (fun _ => Some (parts_folded folded n)) r = Some r' /\
      for_each (fun n p => doFold n p folded)
        (filter (fun l => Element_isElement l.1 l.2 && is_part_node l.1 = true)
           (nodes_from q n))
        (Editor_ (children_of r) sel)
      = Some (Editor_ (children_of r') sel).
Proof.
  induction n as [pr s|pr cs IH] using node_induction; intros q r Hq Hroot Hn.
  - exists r. split; [by apply update_same|]. cbn [nodes_from].
    by rewrite filter_cons_False, filter_nil by done.
  - cbn [nodes_from parts_folded].
    assert (exists r1,
              update q (fun _ => Some (Element (fold_props folded pr) cs)) r
                = Some r1 /\
              for_each (fun n p => doFold n p folded)
                (filter (fun l => Element_isElement l.1 l.2
                                  && is_part_node l.1 = true)
                   [(Element pr cs, q)])
                (Editor_ (children_of r) sel)
              = Some (Editor_ (children_of r1) sel)) as (r1 & Hr1 & Hrun1).
    { destruct (decide (p_type pr = Some "part")) as [Hty|Hty].
      - destruct (doFold_part folded sel q r pr cs Hq Hroot Hn Hty)
          as (r1 & Hr1 & Hrun).
        exists r1. split; [done|].
        rewrite filter_cons_True, filter_nil.
        + cbn [for_each fst snd]. rewrite Hrun. done.
        + cbn. unfold Element_isElement, is_part_node, node_type. cbn.
          by rewrite bool_decide_eq_false_2, bool_decide_eq_true_2.
      - exists r. rewrite fold_props_other by done.
        split; [by apply update_same|].
        rewrite filter_cons_False, filter_nil; [done|].
        cbn. unfold is_part_node, node_type. cbn.
        rewrite (bool_decide_eq_false_2 _ Hty).
        by rewrite andb_false_r. }
    change ((Element pr cs, q) :: nodes_of_children nodes_from q 0 cs)
      with ([(Element pr cs, q)] ++ nodes_of_children nodes_from q 0 cs).
    rewrite filter_app, for_each_app, Hrun1. cbn [mbind option_bind].
    assert (r1 = root (children_of r1)) as Hroot1.
    { rewrite Hroot in Hr1. by eapply update_root. }
    assert (get r1 q = Some (Element (fold_props folded pr) ([] ++ cs))) as Hn1.
    { destruct (update_get q r _ (Element (fold_props folded pr) cs) Hn)
        as (r1' & Hr1' & Hg).
      by assert (r1' = r1) as -> by congruence. }
    destruct (fold_children folded sel q (fold_props folded pr) cs IH [] r1
                Hroot1 Hn1) as (r' & Hr' & _ & Hrun').
    exists r'. split; [|exact Hrun'].
    rewrite (update_twice _ _ _ _ _ Hr1) in Hr'. exact Hr'.
Qed.

(** X15.  The fold-all keys.  Every part of the document, at whatever depth,
    whose folded flag (a missing one counts as false) is not the wanted
    one gets it; no other property, no other node and no text changes.
    The caret is put at the start of the first text of the document; the
    handler throws when the document is empty or its first node does not
    begin and end with a text. *)
Theorem foldAll_folds_every_part (folded : bool) e :
  foldAll folded e
  = match children e with
    | [] => None
    | first :: _ =>
      match start_point first [0], end_point first [0] with
      | Some start, Some _ =>
          Some (Editor_ (map (parts_folded folded) (children e))
                        (Some (Range_ start start)))
      | _, _ => None
      end
    end.
Proof.
  unfold foldAll, Editor_nodes, Node_nodes. cbn [nodes_from root].
  rewrite filter_cons_False by (by cbn).
  destruct (fold_children folded (selection e) [] no_props (children e))
    with (pre := @nil node) (r := root (children e))
    as (r' & Hr' & Hroot' & Hrun); [|done|done|].
  { apply Forall_forall. intros n _. apply fold_subtree. }
  cbn [length app] in Hrun. cbn [children_of root] in Hrun.
  destruct e as [doc sel]. cbn [children selection] in *.
  rewrite Hrun. cbn [mbind option_bind]. cbn in Hr'. injection Hr' as <-.
  cbn [children_of]. unfold Transforms_select, Editor_range. cbn [children].
  destruct doc as [|first doc]; [done|]. cbn [map get lookup list_lookup].
  cbn. rewrite start_point_parts_folded, end_point_parts_folded.
  destruct (start_point first [0]) as [start|]; [|done]. cbn.
  destruct (end_point first [0]) as [end_|]; done.
Qed.

(** ** Backspace *)

(** X16.  Backspace with the caret in a text of a block that begins with a
    text.  At the very start of a block of type "missing", "comment",
    "synopsis", "hpart" or "hscene" that [elemIsBlock] accepts, the block
    is turned into a "p" and nothing is deleted: the underlying
    delete-backward is not run, and text and caret stay.  Everywhere else
    the handler is the underlying delete-backward. *)
Theorem backspace_resets_style (elemIsBlock : node -> bool)
    (deleteBackward : handler) e
    (pp : path) k ppr cs bpr leaves fpr fs i lpr s off :
  node_at (children e) pp = Some (Element ppr cs) ->
  cs !! k = Some (Element bpr leaves) ->
  leaves !! 0 = Some (Text fpr fs) ->
  leaves !! i = Some (Text lpr s) ->
  selection e = caret (pp ++ [k; i]) off ->
  let block := Element bpr leaves in
  let resets :=
    elemIsBlock block = true /\ i = 0 /\ off = 0 /\ styled block in
  (resets ->
   exists doc',
     markup_deleteBackward elemIsBlock deleteBackward e
       = Some (Editor_ doc' (selection e)) /\
     with_children pp (<[k := retyped "p" block]> cs) (children e)
       = Some doc') /\
  (~ resets ->
   markup_deleteBackward elemIsBlock deleteBackward e = deleteBackward e).
Proof.
  intros N Hk H0 Hi Hsel block resets.
  pose proof (node_at_snoc _ _ k _ _ N) as Nb. rewrite Hk in Nb.
  pose proof (node_at_snoc _ _ i _ _ Nb) as Nl. cbn in Nl. rewrite Hi in Nl.
  assert (pp ++ [k; i] = (pp ++ [k]) ++ [i]) as Hp by (by rewrite <- app_assoc).
  pose proof Hsel as Hsel'. rewrite Hp in Hsel'.
  pose proof (Editor_above_block e (pp ++ [k]) i off block _
                (snoc_not_nil _ _) Hsel' Nb eq_refl Nl) as Habove.
  assert (start_point block (pp ++ [k]) = Some (Point_ ((pp ++ [k]) ++ [0]) 0))
    as Hstart.
  { unfold block. destruct leaves as [|l leaves]; [done|].
    cbn in H0. injection H0 as ->. done. }
  assert (bool_decide (node_type block ∈
            Some <$> ["missing"; "comment"; "synopsis"; "hpart"; "hscene"])
          = true <-> styled block) as Hstyled.
  { rewrite bool_decide_eq_true. unfold styled. split.
    - intros (ty & Hty & Hin)%list_elem_of_fmap. by exists ty.
    - intros (ty & -> & Hin). apply list_elem_of_fmap. by exists ty. }
  assert (markup_deleteBackward elemIsBlock deleteBackward e
          = if negb (elemIsBlock block) then deleteBackward e
            else if negb (bool_decide (Point_ (pp ++ [k; i]) off
                                       = Point_ ((pp ++ [k]) ++ [0]) 0))
            then deleteBackward e
            else if bool_decide (node_type block ∈
                      Some <$> ["missing"; "comment"; "synopsis"; "hpart";
                                "hscene"])
            then setNodes_here (Some (Props (Some "p") None None None)) e
            else deleteBackward e) as ->.
  { unfold markup_deleteBackward. rewrite Hsel. unfold caret.
    unfold Range_isCollapsed. cbn [anchor focus].
    rewrite bool_decide_eq_true_2 by done. cbn [negb].
    rewrite Habove. cbn [mbind option_bind].
    destruct (elemIsBlock block); [|done]. cbn [negb].
    by rewrite Hstart. }
  split.
  - intros (Hb & -> & -> & Hst). rewrite Hb. cbn [negb].
    rewrite bool_decide_eq_true_2 by (by rewrite <- app_assoc). cbn [negb].
    apply Hstyled in Hst. rewrite Hst.
    destruct (setNodes_at_children e pp k ppr cs block
                (Props (Some "p") None None None) N Hk)
      as (doc' & Hset & W & _).
    exists doc'. split; [|exact W].
    unfold setNodes_here. rewrite Habove. cbn [mbind option_bind].
    by rewrite Hset.
  - intros Hnot. destruct (elemIsBlock block) eqn:Hb; [|done]. cbn [negb].
    destruct (decide (Point_ (pp ++ [k; i]) off
                      = Point_ ((pp ++ [k]) ++ [0]) 0)) as [Hpt|Hpt].
    2:{ by rewrite bool_decide_eq_false_2. }
    rewrite bool_decide_eq_true_2 by done. cbn [negb].
    destruct (bool_decide (node_type block ∈ _)) eqn:Hty; [|done].
    exfalso. apply Hnot.
    injection Hpt as Hpath ->. rewrite <- app_assoc in Hpath.
    apply app_inv_head in Hpath. injection Hpath as ->.
    split; [done|]. split; [done|]. split; [done|].
    by apply Hstyled.
Qed.

(** ** Typing a shortcut *)


End KeyFacts.

(** ** Concrete runs of the handlers *)

Section EditingRuns.
Import Slate EditorSpec Editing EditingSpec SlateSamples EditingSamples.



(** What the guarded operations do there: the break only unfolds the
    scene; the text is inserted after unfolding. *)
Lemma protect_folds_run :
  let e := Editor_ (folded_scene_with "p" "text") (in_block 2) in
  let e' := Editor_ (unfolded_scene_with "p" "text") (in_block 2) in
  protect_insertBreak (mark "break") e = Some e' /\
  protect_insertText mark "x" e = mark "x" e' /\
  protect_insertBreak (mark "break") e' = mark "break" e'.
Proof. repeat split; by vm_compute. Qed.

(** C6 fails on the code for the key "constructor": with "constructo" in
    front of the caret, typing "r" deletes that text, leaves the block a
    "p", and the underlying [insertText] is not called; the character is
    lost.  (Every object literal inherits [constructor], so
    ["constructor" in SHORTCUTS] holds.) *)
Theorem typing_constructor_is_swallowed (insertText : string -> handler) :
  js_in "constructor" SHORTCUTS = true /\
  own SHORTCUTS "constructor" = None /\
  markup_insertText insertText "r"
    (Editor_ (scene_with "p" "constructo") (in_block 10))
  = Some (Editor_ (scene_with "p" "") (in_block 0)).
Proof. repeat split; by vm_compute. Qed.

(** The scenario of the specification: typing "** " at the start of an
    empty paragraph. *)
Lemma typing_shortcut_hpart (insertText : string -> handler) :
  markup_insertText insertText " "
    (Editor_ (scene_with "p" "**") (in_block 2))
  = Some (Editor_ (scene_with "hpart" "") (in_block 0)).
Proof. by vm_compute. Qed.

(** A key that is neither a shortcut nor inherited goes to the underlying
    [insertText]. *)
Lemma typing_plain_text :
  markup_insertText mark "c" (Editor_ (scene_with "p" "ab") (in_block 2))
  = mark "c" (Editor_ (scene_with "p" "ab") (in_block 2)).
Proof. by vm_compute. Qed.

(** C7 as stated fails: "synopsis" has a successor style, but a line
    break in an empty synopsis block does not split it.  The block is
    reset to "p" and the scene still has two children. *)
Lemma insertBreak_empty_synopsis :
  own STYLEAFTER "synopsis" = Some "p" /\
  markup_insertBreak (mark "break")
    (Editor_ (scene_with "synopsis" "") (in_block 0))
  = Some (Editor_ (scene_with "p" "") (in_block 0)).
Proof. split; by vm_compute. Qed.

(** Witness of C7 (amended), the scenario of the specification: a line
    break at the end of the hscene block "Ch1" gives the hscene "Ch1"
    followed by a new empty "p". *)
Lemma insertBreak_style_after_witness :
  exists doc',
    markup_insertBreak (mark "break")
      (Editor_ (scene_with "p" "text") (in_header 3))
      = Some (Editor_ doc' (caret [0; 1; 1; 0] 0)) /\
    with_children [0; 1]
      [ el "hscene" [tx "Ch1"]; el "p" [tx ""]; el "p" [tx "text"] ]
      (scene_with "p" "text") = Some doc'.
Proof.
  destruct (insertBreak_style_after (mark "break")
              (Editor_ (scene_with "p" "text") (in_header 3))
              [0; 1] 0 (Props (Some "scene") None (Some "Ch1") None)
              [ el "hscene" [tx "Ch1"]; el "p" [tx "text"] ]
              (Props (Some "hscene") None None None) [tx "Ch1"]
              0 no_props "Ch1" 3 "hscene" "p"
              eq_refl eq_refl eq_refl eq_refl eq_refl eq_refl) as [_ H].
  apply H. intros [Hin _].
  repeat (apply elem_of_cons in Hin as [Hin|Hin]; [discriminate Hin|]).
  by apply elem_of_nil in Hin.
Defined.

End EditingRuns.

(** ** Concrete runs of the fold key and of backspace *)

Section KeyRuns.
Import Slate EditorSpec Editing EditingSpec SlateSamples EditingSamples.

(** The caret is in a paragraph of an unfolded scene. *)
Lemma toggleFold_flips_witness :
  let e := Editor_ (scene_with "p" "text") (in_block 2) in
  ((selection e = None \/
    exists sel, selection e = Some sel /\ anchor sel ≠ focus sel) ->
   toggleFold e = Some e) /\
  ((exists sel, selection e = Some sel /\ anchor sel = focus sel) ->
   ((forall n p, ~ container_ancestor e n p) -> toggleFold e = None) /\
   (forall n p, nearest (container_ancestor e) n p ->
      exists doc',
        with_node p (with_folded (negb (is_folded n)) n) (children e)
          = Some doc' /\
        toggleFold e
        = match start_point n p, end_point n p with
          | Some start, Some _ =>
              Some (Editor_ doc' (Some (Range_ start start)))
          | _, _ => None
          end)).
Proof.
  apply (toggleFold_flips (Editor_ (scene_with "p" "text") (in_block 2))).
  intros sel [= <-]. by eexists.
Defined.

(** There the key folds the scene and puts the caret into its header; a
    second press unfolds it again. *)
Lemma toggleFold_run :
  toggleFold (Editor_ (scene_with "p" "text") (in_block 2))
    = Some (Editor_ (folded_scene_with "p" "text") (in_header 0)) /\
  toggleFold (Editor_ (folded_scene_with "p" "text") (in_header 0))
    = Some (Editor_ (unfolded_scene_with "p" "text") (in_header 0)).
Proof. split; by vm_compute. Qed.

(** With the caret in a paragraph at the top of the document, outside
    every scene and part, the key throws. *)
Lemma toggleFold_outside :
  toggleFold (Editor_ [el "p" [tx "alone"]] (caret [0; 0] 1)) = None.
Proof. by vm_compute. Qed.

(** Folding everything folds the part, not the scene below it, and
    puts the caret into the part header. *)
Lemma foldAll_run :
  foldAll true (Editor_ (scene_with "p" "text") (in_block 2))
  = Some (Editor_
            [ Element (Props (Some "part") None (Some "P") (Some true))
                [ el "hpart" [tx "P"];
                  named "scene" "Ch1"
                    [ el "hscene" [tx "Ch1"]; el "p" [tx "text"] ] ] ]
            (caret [0; 0; 0] 0)).
Proof. by vm_compute. Qed.

(** Backspace at the start of a synopsis block. *)
Lemma backspace_resets_style_witness :
  exists doc',
    markup_deleteBackward (fun _ => true) (mark "back")
      (Editor_ (scene_with "synopsis" "note") (in_block 0))
      = Some (Editor_ doc' (in_block 0)) /\
    with_children [0; 1]
      [ el "hscene" [tx "Ch1"]; el "p" [tx "note"] ]
      (scene_with "synopsis" "note") = Some doc'.
Proof.
  destruct (backspace_resets_style (fun _ => true) (mark "back")
              (Editor_ (scene_with "synopsis" "note") (in_block 0))
              [0; 1] 1 (Props (Some "scene") None (Some "Ch1") None)
              [ el "hscene" [tx "Ch1"]; el "synopsis" [tx "note"] ]
              (Props (Some "synopsis") None None None) [tx "note"]
              no_props "note" 0 no_props "note" 0
              eq_refl eq_refl eq_refl eq_refl eq_refl) as [H _].
  apply H. split; [done|]. split; [done|]. split; [done|].
  exists "synopsis". split; [done|]. by repeat constructor.
Defined.

(** In the middle of the block the underlying operation runs. *)
Lemma backspace_inside_block :
  markup_deleteBackward (fun _ => true) (mark "back")
    (Editor_ (scene_with "synopsis" "note") (in_block 2))
  = mark "back" (Editor_ (scene_with "synopsis" "note") (in_block 2)).
Proof. by vm_compute. Qed.


End KeyRuns.
(* ===================================================================== *)
(** * Theorems: the buffer format and the structural normalizer           *)
(* ===================================================================== *)

Section FormatFacts.
Import Slate Normalize EditorSpec BufferFormat.

(** ** Reading the format *)

Lemma is_leafy_inv n :
  is_leafy n = true -> exists pr lpr s, n = Element pr [Text lpr s].
Proof.
  destruct n as [|pr [|[lpr s|] [|]]]; try done. intros _. by eexists _, _, _.
Qed.

Lemma is_header_inv ty n :
  is_header ty n = true ->
  node_type n = Some ty /\ exists pr lpr s, n = Element pr [Text lpr s].
Proof.
  unfold is_header. intros [H1 H2]%andb_true_iff.
  apply bool_decide_eq_true in H1. split; [done|]. by apply is_leafy_inv.
Qed.

Lemma is_paragraph_inv n :
  is_paragraph n = true ->
  node_type n ≠ Some "hpart" /\ node_type n ≠ Some "hscene" /\
  node_type n ≠ Some "part" /\ node_type n ≠ Some "scene" /\
  exists pr lpr s, n = Element pr [Text lpr s].
Proof.
  unfold is_paragraph. intros [H1 H2]%andb_true_iff.
  apply bool_decide_eq_true in H2.
  repeat split; try (intros E; apply H2; rewrite E;
                     repeat first [by left | right]).
  by apply is_leafy_inv.
Qed.

Lemma is_scene_inv n :
  is_scene n = true ->
  exists pr h paragraphs,
    n = Element pr (h :: paragraphs) /\ p_type pr = Some "scene" /\
    is_header "hscene" h = true /\ p_name pr = Some (Node_string h) /\
    Forall (fun x => is_paragraph x = true) paragraphs.
Proof.
  destruct n as [|pr [|h ps]]; try done. cbn.
  intros [[[H1 H2]%andb_true_iff H3]%andb_true_iff H4]%andb_true_iff.
  exists pr, h, ps. apply bool_decide_eq_true in H1. apply bool_decide_eq_true in H3.
  repeat split; try done. by apply forallb_Forall.
Qed.

Lemma is_part_inv n :
  is_part n = true ->
  exists pr h scenes,
    n = Element pr (h :: scenes) /\ p_type pr = Some "part" /\
    is_header "hpart" h = true /\ p_name pr = Some (Node_string h) /\
    Forall (fun x => is_scene x = true) scenes.
Proof.
  destruct n as [|pr [|h ps]]; try done. cbn.
  intros [[[H1 H2]%andb_true_iff H3]%andb_true_iff H4]%andb_true_iff.
  exists pr, h, ps. apply bool_decide_eq_true in H1. apply bool_decide_eq_true in H3.
  repeat split; try done. by apply forallb_Forall.
Qed.

Lemma well_formed_inv doc :
  well_formed doc = true ->
  doc ≠ [] /\ Forall (fun x => is_part x = true) doc.
Proof.
  unfold well_formed. intros [H1 H2]%andb_true_iff.
  apply negb_true_iff, bool_decide_eq_false in H1. split; [done|].
  by apply forallb_Forall.
Qed.

(** ** What each rule of [withFixNesting] accepts *)

Section Accepted.

Variable normalizeNode : path -> T unit.

Lemma accepted_text e p pr s :
  node_at (children e) p = Some (Text pr s) ->
  fixNesting_normalizeNode normalizeNode p e = normalizeNode p e.
Proof.
  intros N. unfold fixNesting_normalizeNode.
  by rewrite (T_bind_Some _ _ _ _ _ (Editor_node_Some _ _ _ N)).
Qed.

Lemma accepted_root e pr h rest doc :
  children e = Element pr (h :: rest) :: doc ->
  node_type h = Some "hpart" ->
  fixNesting_normalizeNode normalizeNode [] e = normalizeNode [] e.
Proof.
  intros E Hh. unfold fixNesting_normalizeNode.
  rewrite (T_bind_Some _ _ _ _ _ (Editor_node_Some e [] _ eq_refl)).
  cbn [isText root]. rewrite bool_decide_eq_true_2 by done.
  assert (node_at (children e) [0; 0] = Some h) as N.
  { unfold node_at. by rewrite E. }
  rewrite (T_bind_Some _ _ _ _ _ (Editor_node_Some _ _ _ N)).
  by rewrite bool_decide_eq_true_2.
Qed.

Lemma accepted_header e pp pr h rest hty ty :
  node_at (children e) pp = Some (Element pr (h :: rest)) ->
  p_type pr = Some ty -> p_name pr = Some (Node_string h) ->
  isText h = false -> node_type h = Some hty ->
  (hty = "hpart" /\ ty = "part") \/ (hty = "hscene" /\ ty = "scene") ->
  fixNesting_normalizeNode normalizeNode (pp ++ [0]) e
  = normalizeNode (pp ++ [0]) e.
Proof.
  intros N Hty Hname Hel Hh Hcase.
  assert (node_at (children e) (pp ++ [0]) = Some h) as Nh.
  { unfold node_at. by rewrite (get_snoc _ _ _ _ N). }
  unfold fixNesting_normalizeNode.
  rewrite (T_bind_Some _ _ _ _ _ (Editor_node_Some _ _ _ Nh)), Hel.
  rewrite bool_decide_eq_false_2 by apply snoc_not_nil.
  assert (checkParent h (pp ++ [0]) ty e = Some (true, e)) as HP.
  { unfold checkParent.
    rewrite (T_bind_Some _ _ _ _ _ (Editor_parent_Some _ _ _ _ N)).
    by rewrite bool_decide_eq_true_2. }
  assert (checkIsFirst h (pp ++ [0]) ty e = Some (true, e)) as HF.
  { unfold checkIsFirst. by rewrite last_snoc_path. }
  assert (updateParentName h (pp ++ [0]) e = Some (true, e)) as HN.
  { unfold updateParentName.
    rewrite (T_bind_Some _ _ _ _ _ (Editor_parent_Some _ _ _ _ N)).
    by rewrite bool_decide_eq_true_2. }
  destruct Hcase as [[-> ->]|[-> ->]].
  - rewrite bool_decide_eq_true_2 by done.
    rewrite (T_bind_Some _ _ _ _ _ HP). cbn [negb].
    rewrite (T_bind_Some _ _ _ _ _ HF). cbn [negb].
    by rewrite (T_bind_Some _ _ _ _ _ HN).
  - rewrite bool_decide_eq_false_2 by (rewrite Hh; discriminate).
    rewrite bool_decide_eq_true_2 by done.
    rewrite (T_bind_Some _ _ _ _ _ HP). cbn [negb].
    rewrite (T_bind_Some _ _ _ _ _ HF). cbn [negb].
    by rewrite (T_bind_Some _ _ _ _ _ HN).
Qed.

Lemma accepted_part e i pr h scenes :
  children e !! i = Some (Element pr (h :: scenes)) ->
  p_type pr = Some "part" -> node_type h = Some "hpart" ->
  (forall s, scenes !! 0 = Some s ->
     exists spr h2 r, s = Element spr (h2 :: r) /\ node_type h2 = Some "hscene") ->
  fixNesting_normalizeNode normalizeNode [i] e = normalizeNode [i] e.
Proof.
  intros Hi Hty Hh Hs.
  assert (node_at (children e) [i] = Some (Element pr (h :: scenes))) as N.
  { unfold node_at. cbn. by rewrite Hi. }
  unfold fixNesting_normalizeNode.
  rewrite (T_bind_Some _ _ _ _ _ (Editor_node_Some _ _ _ N)).
  cbn [isText]. rewrite bool_decide_eq_false_2 by done.
  rewrite (bool_decide_eq_false_2 (node_type _ = Some "hpart"))
    by (unfold node_type; cbn; by rewrite Hty).
  rewrite (bool_decide_eq_false_2 (node_type _ = Some "hscene"))
    by (unfold node_type; cbn; by rewrite Hty).
  rewrite (bool_decide_eq_true_2 (node_type _ = Some "part")) by done.
  rewrite bool_decide_eq_false_2 by (cbn; lia).
  unfold checkBlockHeader at 1. cbn [children_of].
  rewrite bool_decide_eq_true_2 by done.
  unfold mbind at 1, T_bind, mret at 1, T_ret. cbn [negb children_of].
  destruct scenes as [|s scenes]; [done|].
  destruct (Hs s eq_refl) as (spr & h2 & r & -> & Hh2).
  unfold checkFirstHeader. by rewrite bool_decide_eq_true_2.
Qed.

Lemma accepted_scene e i j pr h paragraphs :
  node_at (children e) [i; j] = Some (Element pr (h :: paragraphs)) ->
  p_type pr = Some "scene" -> node_type h = Some "hscene" ->
  fixNesting_normalizeNode normalizeNode [i; j] e = normalizeNode [i; j] e.
Proof.
  intros N Hty Hh. unfold fixNesting_normalizeNode.
  rewrite (T_bind_Some _ _ _ _ _ (Editor_node_Some _ _ _ N)).
  cbn [isText]. rewrite bool_decide_eq_false_2 by done.
  rewrite (bool_decide_eq_false_2 (node_type _ = Some "hpart"))
    by (unfold node_type; cbn; by rewrite Hty).
  rewrite (bool_decide_eq_false_2 (node_type _ = Some "hscene"))
    by (unfold node_type; cbn; by rewrite Hty).
  rewrite (bool_decide_eq_false_2 (node_type _ = Some "part"))
    by (unfold node_type; cbn; by rewrite Hty).
  rewrite (bool_decide_eq_true_2 (node_type _ = Some "scene")) by done.
  rewrite bool_decide_eq_false_2 by (cbn; lia).
  rewrite bool_decide_eq_false_2 by (cbn; lia).
  unfold checkBlockHeader. cbn [children_of].
  by rewrite bool_decide_eq_true_2.
Qed.

Lemma accepted_paragraph e pp k ppr cs n :
  node_at (children e) pp = Some (Element ppr cs) ->
  p_type ppr = Some "scene" -> cs !! k = Some n -> isText n = false ->
  node_type n ≠ Some "hpart" -> node_type n ≠ Some "hscene" ->
  node_type n ≠ Some "part" -> node_type n ≠ Some "scene" ->
  fixNesting_normalizeNode normalizeNode (pp ++ [k]) e
  = normalizeNode (pp ++ [k]) e.
Proof.
  intros N Hty Hk Hel H1 H2 H3 H4.
  assert (node_at (children e) (pp ++ [k]) = Some n) as Nn.
  { unfold node_at. by rewrite (get_snoc _ _ _ _ N). }
  unfold fixNesting_normalizeNode.
  rewrite (T_bind_Some _ _ _ _ _ (Editor_node_Some _ _ _ Nn)), Hel.
  rewrite bool_decide_eq_false_2 by apply snoc_not_nil.
  rewrite !bool_decide_eq_false_2 by done.
  assert (checkParent n (pp ++ [k]) "scene" e = Some (true, e)) as HP.
  { unfold checkParent.
    rewrite (T_bind_Some _ _ _ _ _ (Editor_parent_Some _ _ _ _ N)).
    by rewrite bool_decide_eq_true_2. }
  by rewrite (T_bind_Some _ _ _ _ _ HP).
Qed.

End Accepted.

(** ** Where the nodes of a well-formed document are *)

Lemma well_formed_at doc p n :
  well_formed doc = true -> node_at doc p = Some n ->
  p = [] \/
  (exists i, p = [i] /\ doc !! i = Some n /\ is_part n = true) \/
  (exists i j, p = [i; j] /\ is_scene n = true) \/
  (exists pp pr rest ty hty,
     p = pp ++ [0] /\ node_at doc pp = Some (Element pr (n :: rest)) /\
     p_type pr = Some ty /\ p_name pr = Some (Node_string n) /\
     is_header hty n = true /\
     ((hty = "hpart" /\ ty = "part") \/ (hty = "hscene" /\ ty = "scene"))) \/
  (exists pp k ppr cs,
     p = pp ++ [k] /\ node_at doc pp = Some (Element ppr cs) /\
     p_type ppr = Some "scene" /\ cs !! k = Some n /\ is_paragraph n = true) \/
  (exists pr s, n = Text pr s).
Proof.
  intros [Hne Hparts]%well_formed_inv Hn.
  destruct p as [|i p]; [by left|]. right.
  unfold node_at in *. cbn in Hn.
  destruct (doc !! i) as [part|] eqn:Hi; [|done]. cbn in Hn.
  pose proof (Forall_lookup_1 _ _ _ _ Hparts Hi) as Hpart.
  destruct p as [|j p].
  { left. exists i. cbn in Hn. injection Hn as <-. by repeat split. }
  right.
  apply is_part_inv in Hpart as (pr & h & scenes & -> & Hty & Hh & Hname & Hsc).
  cbn in Hn. destruct j as [|j].
  - (* the part header and its leaf *)
    cbn in Hn. pose proof Hh as [Hhty (hpr & lpr & s & ->)]%is_header_inv.
    destruct p as [|k p].
    + right. left. injection Hn as <-.
      exists [i], pr, scenes, "part", "hpart". cbn. rewrite Hi.
      repeat split; try done. by left.
    + right. right. right. cbn in Hn. destruct k; [|done]. cbn in Hn.
      destruct p; [|done]. injection Hn as <-. by eexists _, _.
  - cbn in Hn. destruct (scenes !! j) as [scene|] eqn:Hj; [|done]. cbn in Hn.
    pose proof (Forall_lookup_1 _ _ _ _ Hsc Hj) as Hscene.
    destruct p as [|k p].
    { left. exists i, (S j). injection Hn as <-. by split. }
    right.
    apply is_scene_inv in Hscene
      as (spr & sh & paragraphs & -> & Hsty & Hsh & Hsname & Hps).
    cbn in Hn.
    assert (get (root doc) [i; S j] = Some (Element spr (sh :: paragraphs)))
      as Nscene by (cbn; rewrite Hi; cbn; by rewrite Hj).
    destruct k as [|k].
    + cbn in Hn. pose proof Hsh as [Hhty (hpr & lpr & s & ->)]%is_header_inv.
      destruct p as [|l p].
      * left. injection Hn as <-.
        exists [i; S j], spr, paragraphs, "scene", "hscene".
        repeat split; try done. by right.
      * right. right. cbn in Hn. destruct l; [|done]. cbn in Hn.
        destruct p; [|done]. injection Hn as <-. by eexists _, _.
    + cbn in Hn. destruct (paragraphs !! k) as [para|] eqn:Hk; [|done].
      cbn in Hn. pose proof (Forall_lookup_1 _ _ _ _ Hps Hk) as Hpara.
      destruct p as [|l p].
      * right. left. injection Hn as <-.
        exists [i; S j], (S k), spr, (sh :: paragraphs). by repeat split.
      * right. right.
        apply is_paragraph_inv in Hpara as (_ & _ & _ & _ & ppr & lpr & s & ->).
        cbn in Hn. destruct l; [|done]. cbn in Hn.
        destruct p; [|done]. injection Hn as <-. by eexists _, _.
Qed.

(** ** The format is what the structural normalizer accepts *)

Lemma fixNesting_hands_over (normalizeNode : path -> T unit) e p :
  well_formed (children e) = true ->
  is_Some (node_at (children e) p) ->
  fixNesting_normalizeNode normalizeNode p e = normalizeNode p e.
Proof.
  intros Hwf [n Hn].
  destruct (well_formed_at _ _ _ Hwf Hn)
    as [->|[(i & -> & Hi & Hpart)|[(i & j & -> & Hscene)|
        [(pp & pr & rest & ty & hty & -> & Npp & Hty & Hname & Hh & Hcase)|
        [(pp & k & ppr & cs & -> & Npp & Hty & Hk & Hpara)|(pr & s & ->)]]]]].
  - apply well_formed_inv in Hwf as [Hne Hparts].
    destruct (children e) as [|part doc] eqn:E; [done|].
    apply Forall_cons in Hparts as [Hpart _].
    apply is_part_inv in Hpart as (pr & h & scenes & -> & _ & Hh & _).
    apply is_header_inv in Hh as [Hh _].
    by apply (accepted_root normalizeNode e pr h scenes doc).
  - apply is_part_inv in Hpart as (pr & h & scenes & -> & Hty & Hh & _ & Hsc).
    apply is_header_inv in Hh as [Hh _].
    apply (accepted_part normalizeNode e i pr h scenes); try done.
    intros sc Hsc0. pose proof (Forall_lookup_1 _ _ _ _ Hsc Hsc0) as Hscene.
    apply is_scene_inv in Hscene as (spr & h2 & r & -> & _ & Hh2 & _).
    apply is_header_inv in Hh2 as [Hh2 _]. by eexists _, _, _.
  - apply is_scene_inv in Hscene as (pr & h & ps & -> & Hty & Hh & _).
    apply is_header_inv in Hh as [Hh _].
    by apply (accepted_scene normalizeNode e i j pr h ps).
  - apply is_header_inv in Hh as [Hh (hpr & lpr & s & ->)].
    by apply (accepted_header normalizeNode e pp pr
                (Element hpr [Text lpr s]) rest hty ty).
  - apply is_paragraph_inv in Hpara as (H1 & H2 & H3 & H4 & npr & lpr & s & ->).
    by apply (accepted_paragraph normalizeNode e pp k ppr cs
                (Element npr [Text lpr s]) Npp).
  - by apply (accepted_text normalizeNode e p pr s).
Qed.


(** ** Slate's own normalization finds nothing either *)

Lemma normalize_children_elements e p pr cs0 cs n :
  node_at (children e) p = Some (Element pr cs0) ->
  Forall (fun c => isText c = false) cs ->
  normalize_children p false cs n e = Some ((), e).
Proof.
  intros N Hcs. revert n. induction Hcs as [|c cs Hc Hcs IH]; intros n; [done|].
  cbn [normalize_children].
  rewrite (T_bind_Some _ _ _ _ _ (Editor_node_Some _ _ _ N)). cbn [isText].
  rewrite Hc. cbn. unfold isElement. rewrite Hc. cbn. apply IH.
Qed.

Lemma base_normalizeNode_well_formed e p :
  well_formed (children e) = true ->
  is_Some (node_at (children e) p) ->
  base_normalizeNode p e = Some ((), e).
Proof.
  intros Hwf [n Hn]. unfold base_normalizeNode.
  rewrite (T_bind_Some _ _ _ _ _ (Editor_node_Some _ _ _ Hn)).
  destruct (well_formed_at _ _ _ Hwf Hn)
    as [->|[(i & -> & Hi & Hpart)|[(i & j & -> & Hscene)|
        [(pp & pr & rest & ty & hty & -> & Npp & Hty & Hname & Hh & Hcase)|
        [(pp & k & ppr & cs & -> & Npp & Hty & Hk & Hpara)|(pr & s & ->)]]]]].
  - injection Hn as <-. cbn.
    apply (normalize_children_elements e [] no_props (children e)); [done|].
    apply well_formed_inv in Hwf as [_ Hparts].
    eapply Forall_impl; [exact Hparts|]. intros x Hx.
    by apply is_part_inv in Hx as (? & ? & ? & -> & _).
  - apply is_part_inv in Hpart as (pr & h & scenes & -> & _ & Hh & _ & Hsc).
    apply is_header_inv in Hh as [_ (hpr & lpr & s & ->)].
    rewrite (bool_decide_eq_false_2 (_ :: _ = [])) by done.
    rewrite andb_false_r, bool_decide_eq_false_2 by done. cbn [isText].
    apply (normalize_children_elements e [i] pr _ _ 0 Hn).
    apply Forall_cons. split; [done|].
    eapply Forall_impl; [exact Hsc|]. intros x Hx.
    by apply is_scene_inv in Hx as (? & ? & ? & -> & _).
  - apply is_scene_inv in Hscene as (pr & h & ps & -> & _ & Hh & _ & Hps).
    apply is_header_inv in Hh as [_ (hpr & lpr & s & ->)].
    rewrite (bool_decide_eq_false_2 (_ :: _ = [])) by done.
    rewrite andb_false_r, bool_decide_eq_false_2 by done. cbn [isText].
    apply (normalize_children_elements e [i; j] pr _ _ 0 Hn).
    apply Forall_cons. split; [done|].
    eapply Forall_impl; [exact Hps|]. intros x Hx.
    by apply is_paragraph_inv in Hx as (_ & _ & _ & _ & ? & ? & ? & ->).
  - apply is_header_inv in Hh as [_ (hpr & lpr & s & ->)].
    rewrite (bool_decide_eq_false_2 (_ :: _ = [])) by done.
    rewrite andb_false_r, bool_decide_eq_false_2 by apply snoc_not_nil.
    cbn [isText normalize_children].
    by rewrite (T_bind_Some _ _ _ _ _ (Editor_node_Some _ _ _ Hn)).
  - apply is_paragraph_inv in Hpara as (_ & _ & _ & _ & npr & lpr & s & ->).
    rewrite (bool_decide_eq_false_2 (_ :: _ = [])) by done.
    rewrite andb_false_r, bool_decide_eq_false_2 by apply snoc_not_nil.
    cbn [isText normalize_children].
    by rewrite (T_bind_Some _ _ _ _ _ (Editor_node_Some _ _ _ Hn)).
  - done.
Qed.

(** ** The dirty-path loop on a document nothing changes *)

Lemma normalize_loop_unchanged (f : path -> T unit) doc rs k :
  (forall p d, is_Some (node_at doc p) ->
     f p (Editor_ doc d rs k) = Some ((), Editor_ doc d rs k)) ->
  forall d fuel, length d <= fuel ->
    normalize_loop f fuel (Editor_ doc d rs k) = Some ((), Editor_ doc [] rs k).
Proof.
  intros Hf d. induction d as [|x d IH] using rev_ind; intros fuel Hlen.
  - by destruct fuel.
  - rewrite length_app in Hlen. cbn in Hlen.
    destruct fuel as [|fuel]; [lia|].
    cbn [normalize_loop dirty children refs id_calls].
    rewrite reverse_snoc, reverse_involutive.
    destruct (get (root doc) x) as [n|] eqn:Hx.
    + rewrite Hf by (by exists n). apply IH. lia.
    + apply IH. lia.
Qed.

(** X5.  In a well-formed document [withFixNesting] finds nothing to repair:
    at every node it hands over to the [normalizeNode] it wraps, and over
    Slate's default [normalizeNode] the editor is left as it is. *)
Theorem well_formed_accepted (normalizeNode : path -> T unit) e p :
  well_formed (children e) = true ->
  is_Some (node_at (children e) p) ->
  fixNesting_normalizeNode normalizeNode p e = normalizeNode p e /\
  nesting_editor p e = Some ((), e).
Proof.
  intros Hwf Hp. split; [by apply fixNesting_hands_over|].
  unfold nesting_editor. rewrite fixNesting_hands_over by done.
  by apply base_normalizeNode_well_formed.
Qed.

(** A well-formed document is a fixed point of normalization: a forced
    [Editor.normalize] of the chain [withFixNesting] over Slate's default
    visits every node, changes nothing and leaves no dirty path. *)
Lemma well_formed_is_normal e :
  well_formed (children e) = true ->
  normalize_force nesting_editor e
  = Some ((), Editor_ (children e) [] (refs e) (id_calls e)).
Proof.
  intros Hwf. unfold normalize_force.
  apply normalize_loop_unchanged; [|lia].
  intros p d Hp. unfold nesting_editor.
  rewrite fixNesting_hands_over by done.
  by apply base_normalizeNode_well_formed.
Qed.

(** ** Identifiers that are in order are kept *)

Lemma fix_id_kept nanoid ids p e n i :
  node_at (children e) p = Some n ->
  p_id (props_of n) = Some i -> i ≠ "" -> i ∉ ids ->
  fix_id nanoid ids p e = Some ({[ i ]} ∪ ids, e).
Proof.
  intros N Hi Hne Hin. unfold fix_id.
  rewrite (T_bind_Some _ _ _ _ _ (Editor_node_Some _ _ _ N)).
  assert (no_id n = false) as -> by (apply no_id_false; by exists i).
  rewrite Hi. cbn. by rewrite bool_decide_eq_false_2.
Qed.

Lemma assign_kept nanoid e (B : list (node * path)) :
  Forall (fun b => node_at (children e) b.2 = Some b.1) B ->
  NoDup (map (fun b => p_id (props_of b.1)) B) ->
  Forall (fun b => no_id b.1 = false) B ->
  forall ids : gset string,
    (forall b i, b ∈ B -> p_id (props_of b.1) = Some i -> i ∉ ids) ->
    exists ids', foldlM (fix_id nanoid) ids (map snd B) e = Some (ids', e).
Proof.
  induction B as [|[n p] B IH]; intros HB Hnd Hid ids Hfresh; [by eexists|].
  apply Forall_cons in HB as [Hn HB]. apply Forall_cons in Hid as [Hi Hid].
  cbn in Hnd. apply NoDup_cons in Hnd as [Hnin Hnd]. cbn in Hn, Hi.
  apply no_id_false in Hi as (i & Hi & Hne).
  destruct (IH HB Hnd Hid ({[ i ]} ∪ ids)) as [ids' Hloop].
  { intros b j Hb Hj [Hin%elem_of_singleton|Hin]%elem_of_union.
    - subst j. apply Hnin. cbn. rewrite Hi, <- Hj.
      apply list_elem_of_fmap. by exists b.
    - eapply (Hfresh b j); [by right|done|done]. }
  exists ids'. cbn [map foldlM snd].
  rewrite (T_bind_Some _ _ _ _ _ (fix_id_kept nanoid ids p e n i Hn Hi Hne
             (Hfresh (n, p) i ltac:(by left) Hi))).
  exact Hloop.
Qed.

Lemma assign_ids_unchanged (nanoid : nat -> string) e :
  valid_ids (children e) -> assign_ids nanoid e = Some ((), e).
Proof.
  intros [Hnd Hid]. unfold assign_ids.
  destruct (assign_kept nanoid e (elements (children e))) with (ids := (∅ : gset string))
    as [ids' Hloop]; try done.
  - apply Forall_forall. intros [n p] Hb.
    apply list_elem_of_filter in Hb as [_ Hb]. by apply elem_of_Node_nodes.
  - change (blocks e) with (map snd (elements (children e))).
    by rewrite (T_bind_Some _ _ _ _ _ Hloop).
Qed.

(** X6.  The identity enforcer leaves a document alone whose elements all have
    an identifier and no two the same: its loop sets nothing and
    generates no identifier, so at every path its [normalizeNode] is the
    [normalizeNode] it wraps. *)
Theorem valid_ids_kept (normalizeNode : path -> T unit)
    (nanoid : nat -> string) e :
  valid_ids (children e) ->
  assign_ids nanoid e = Some ((), e) /\
  forall p, withIDs_normalizeNode normalizeNode nanoid p e = normalizeNode p e.
Proof.
  intros Hids. split; [by apply assign_ids_unchanged|].
  intros p. unfold withIDs_normalizeNode. case_bool_decide; [done|].
  by rewrite (T_bind_Some _ _ _ _ _ (assign_ids_unchanged nanoid e Hids)).
Qed.

(** X7.  A well-formed document with identifiers in order is a fixed point of
    the whole normalization chain of [getEditor] ([withIDs] over
    [withFixNesting] over Slate's default): a forced [Editor.normalize]
    changes nothing, generates no identifier and leaves no dirty path. *)
Theorem well_formed_is_fixed_point (nanoid : nat -> string) e :
  well_formed (children e) = true -> valid_ids (children e) ->
  normalize_force (full_editor nanoid) e
  = Some ((), Editor_ (children e) [] (refs e) (id_calls e)).
Proof.
  intros Hwf Hids. unfold normalize_force.
  apply normalize_loop_unchanged; [|lia].
  intros p d Hp. unfold full_editor, withIDs_normalizeNode.
  assert (nesting_editor p (Editor_ (children e) d (refs e) (id_calls e))
          = Some ((), Editor_ (children e) d (refs e) (id_calls e))) as Hn.
  { unfold nesting_editor. rewrite fixNesting_hands_over by done.
    by apply base_normalizeNode_well_formed. }
  case_bool_decide; [done|].
  by rewrite (T_bind_Some _ _ _ _ _
                (assign_ids_unchanged nanoid (Editor_ (children e) d _ _) Hids)).
Qed.

End FormatFacts.
(* ===================================================================== *)
(** * Theorems: the repairs of the structural normalizer                  *)
(* ===================================================================== *)

Section RepairFacts.
Import Slate Normalize EditorSpec.

(** The repairs are stated over the transforms of [Normalize].  On their
    way [wrapNodes] and [splitNodes] compute a range or a point of the
    node they are given, and throw for a node that does not begin or end
    with a text: the lemmas carry what each transform needs as a
    hypothesis. *)

(** ** Updates that follow one another *)

Lemma update_none (p : path) r : update p (fun _ => None) r = None.
Proof.
  revert r. induction p as [|i p IH]; intros r; [done|].
  cbn. destruct r as [|pr c]; [done|]. destruct (c !! i) as [m|]; [|done].
  cbn. by rewrite IH.
Qed.

Lemma update_after (p : path) g r r1 n1 :
  update p (fun _ => Some n1) r = Some r1 ->
  update p g r1 = update p (fun _ => g n1) r.
Proof.
  intros H.
  assert (get r1 p = Some n1) as Hg.
  { clear g. revert r r1 H. induction p as [|i p IH]; intros r r1 H; cbn in *.
    - congruence.
    - destruct r as [|pr c]; [done|]. destruct (c !! i) as [m|] eqn:E; [|done].
      cbn in H. destruct (update p _ m) as [m'|] eqn:Em; [|done].
      cbn in H. injection H as <-. cbn.
      rewrite list_lookup_insert_eq by (by eapply lookup_lt_Some). cbn.
      by eapply IH. }
  rewrite (update_at _ _ _ _ Hg). destruct (g n1) as [n2|].
  - by apply update_twice with (n1 := n1).
  - by rewrite !update_none.
Qed.

(** ** Wrapping a node *)

Lemma Path_transform_move_into_next (pp : path) k :
  Path_transform (pp ++ [k]) (move_node (pp ++ [k]) (pp ++ [S k; 0]))
  = Some (pp ++ [k; 0]).
Proof.
  unfold Path_transform. rewrite bool_decide_eq_false_2 by apply snoc_not_nil.
  unfold Path_equals at 1.
  rewrite bool_decide_eq_false_2.
  2:{ intros H. apply (f_equal length) in H. rewrite !length_app in H.
      cbn in H. lia. }
  unfold Path_equals. rewrite (bool_decide_eq_true_2 (_ = _)) by done.
  rewrite orb_true_r.
  assert (Path_endsBefore (pp ++ [k]) (pp ++ [S k; 0]) = true) as ->.
  { unfold Path_endsBefore. rewrite last_snoc_path, length_app. cbn.
    replace (length pp + 1 - 1) with (length pp) by lia. unfold path.
    rewrite lookup_app_r by lia. rewrite Nat.sub_diag. cbn.
    rewrite take_app_length, removelast_snoc.
    rewrite !bool_decide_eq_true_2; [done|lia|done]. }
  rewrite bool_decide_eq_true_2 by (rewrite !length_app; cbn; lia).
  cbn [andb]. rewrite drop_all, app_nil_r. f_equal.
  unfold at_index, path. rewrite length_app. cbn.
  replace (length pp + 1 - 1) with (length pp) by lia.
  rewrite (alter_app_r_alt pred pp [S k; 0] (length pp)) by lia.
  by rewrite Nat.sub_diag.
Qed.

Lemma wrapNodes_children e pp k pr cs n element :
  node_at (children e) pp = Some (Element pr cs) -> cs !! k = Some n ->
  has_start_text n = true -> has_end_text n = true ->
  exists e', wrapNodes element (pp ++ [k]) e = Some ((), e') /\
             children_replaced e pp pr (<[k := Element element [n]]> cs) e'.
Proof.
  intros N Hk Hst Hen.
  assert (k < length cs) as Hlt by (by eapply lookup_lt_Some).
  assert (node_at (children e) (pp ++ [k]) = Some n) as Nn.
  { unfold node_at. by rewrite (get_snoc _ _ _ _ N). }
  set (cs1 := take (S k) cs ++ Element element [] :: drop (S k) cs).
  (* the empty wrapper goes in after the node *)
  destruct (apply_children_replaced
              (insert_node (pp ++ [S k]) (Element element [])) e pp pr cs
              (fun _ => Some (Element pr cs1)) cs1 N) as (e1 & A1 & R1); [|done|].
  { cbn. rewrite Path_parent_snoc, last_snoc_path. cbn.
    apply (update_children_at pp _ _ pr cs cs1 N).
    unfold insert_at. by rewrite bool_decide_eq_true_2 by lia. }
  pose proof R1 as (_ & N1 & _).
  assert (cs1 !! k = Some n) as Hk1.
  { unfold cs1. rewrite lookup_app_l by (rewrite length_take; lia).
    rewrite lookup_take_lt by lia. done. }
  assert (node_at (children e1) (pp ++ [k]) = Some n) as Nn1.
  { unfold node_at. by rewrite (get_snoc _ _ _ _ N1). }
  (* the node moves into the wrapper *)
  set (c2 := delete k cs1).
  assert (c2 = take k cs ++ Element element [] :: drop (S k) cs) as Hc2.
  { unfold c2, cs1. rewrite delete_take_drop.
    rewrite take_app_le by (rewrite length_take; lia).
    rewrite take_take, Nat.min_l by lia.
    by rewrite drop_app_length' by (rewrite length_take; lia). }
  destruct (apply_children_replaced
              (move_node (pp ++ [k]) (pp ++ [S k; 0])) e1 pp pr cs1
              (fun _ => Some (Element pr (<[k := Element element [n]]> cs)))
              (<[k := Element element [n]]> cs) N1) as (e2 & A2 & R2); [|done|].
  { cbn [transform].
    assert (Path_isAncestor (pp ++ [k]) (pp ++ [S k; 0]) = false) as ->.
    { unfold Path_isAncestor. apply andb_false_iff. right.
      apply bool_decide_eq_false. rewrite length_app. cbn.
      replace (pp ++ [S k; 0]) with ((pp ++ [S k]) ++ [0])
        by (by rewrite <- app_assoc).
      rewrite take_app_length' by (rewrite length_app; cbn; lia).
      intros H. apply app_inv_head in H. by injection H; lia. }
    unfold node_at in Nn1. rewrite Nn1. cbn.
    rewrite Path_parent_snoc, last_snoc_path. cbn.
    destruct (with_children_spec pp (children e1) pr cs1 c2 N1)
      as (d2 & _ & _ & U2).
    rewrite (update_children_at pp _ _ pr cs1 c2 N1 eq_refl), U2. cbn.
    rewrite Path_transform_move_into_next. cbn.
    replace (pp ++ [k; 0]) with ((pp ++ [k]) ++ [0])
      by (by rewrite <- app_assoc).
    rewrite Path_parent_snoc, last_snoc_path. cbn.
    unfold update_children. rewrite update_app.
    rewrite (update_after _ _ _ _ _ U2).
    match goal with
    | |- update _ (fun _ => ?X) _ = _ =>
        assert (X = Some (Element pr (<[k := Element element [n]]> cs)))
          as ->; [|done]
    end.
    cbn. rewrite Hc2.
    rewrite lookup_app_r by (rewrite length_take; lia).
    rewrite length_take, Nat.min_l, Nat.sub_diag by lia. cbn.
    replace (insert_at 0 n []) with (Some [n]) by done. cbn.
    rewrite insert_app_r_alt by (rewrite length_take; lia).
    rewrite length_take, Nat.min_l, Nat.sub_diag by lia. cbn.
    by rewrite (insert_take_drop cs k) by done. }
  exists e2. split.
  - unfold wrapNodes.
    rewrite (T_bind_Some _ _ _ _ _ (Editor_node_Some _ _ _ Nn)).
    rewrite bool_decide_eq_false_2 by apply snoc_not_nil.
    rewrite (T_bind_Some _ _ _ _ _ (Editor_range_Some _ _ _ Nn Hst Hen)).
    rewrite Path_next_snoc.
    rewrite (T_bind_Some (lift_option (Some (pp ++ [S k]))) _ e _ e eq_refl).
    rewrite (T_bind_Some (insertNodes _ _) _ _ _ _ A1).
    unfold moveNodes.
    rewrite (T_bind_Some _ _ _ _ _ (Editor_node_Some _ _ _ Nn1)).
    rewrite bool_decide_eq_false_2 by apply snoc_not_nil.
    by rewrite <- app_assoc.
  - by eapply children_replaced_trans.
Qed.

Lemma checkParent_children e pp k pr cs n ty :
  node_at (children e) pp = Some (Element pr cs) -> cs !! k = Some n ->
  has_start_text n = true -> has_end_text n = true ->
  p_type pr ≠ Some ty ->
  exists e', checkParent n (pp ++ [k]) ty e = Some (false, e') /\
             children_replaced e pp pr (<[k := Element (type_props ty) [n]]> cs) e'.
Proof.
  intros N Hk Hst Hen Hty.
  destruct (wrapNodes_children e pp k pr cs n (type_props ty) N Hk Hst Hen)
    as (e' & W & R).
  exists e'. split; [|done]. unfold checkParent.
  rewrite (T_bind_Some _ _ _ _ _ (Editor_parent_Some _ _ _ _ N)).
  rewrite bool_decide_eq_false_2 by done.
  by rewrite (T_bind_Some _ _ _ _ _ W).
Qed.

(** A parent of another type: [checkParent] is [wrapNodes], and stops the
    rule. *)
Lemma checkParent_wraps e pp k pr cs n ty (rest : T unit) :
  node_at (children e) pp = Some (Element pr cs) -> p_type pr ≠ Some ty ->
  (b ← checkParent n (pp ++ [k]) ty; if negb b then mret () else rest) e
  = wrapNodes (type_props ty) (pp ++ [k]) e.
Proof.
  intros N Hty. unfold checkParent.
  unfold mbind at 1 2, T_bind.
  rewrite (Editor_parent_Some _ _ _ _ N).
  rewrite bool_decide_eq_false_2 by done.
  unfold mbind, T_bind.
  by destruct (wrapNodes _ _ e) as [[[] e']|].
Qed.

(** The rule hands a misplaced node to [wrapNodes]. *)
Lemma misplaced_node_wrapNodes (normalizeNode : path -> T unit)
    e pp k pr cs n ty :
  node_at (children e) pp = Some (Element pr cs) -> cs !! k = Some n ->
  isText n = false ->
  (node_type n = Some "hpart" /\ ty = "part" /\ p_type pr ≠ Some "part") \/
  (node_type n ≠ Some "hpart" /\ node_type n ≠ Some "part" /\
   node_type n ≠ Some "scene" /\ ty = "scene" /\ p_type pr ≠ Some "scene") \/
  (node_type n = Some "scene" /\ ty = "part" /\ pp = []) ->
  fixNesting_normalizeNode normalizeNode (pp ++ [k]) e
  = wrapNodes (type_props ty) (pp ++ [k]) e.
Proof.
  intros N Hk Hel Hcase.
  assert (node_at (children e) (pp ++ [k]) = Some n) as Nn.
  { unfold node_at. by rewrite (get_snoc _ _ _ _ N). }
  unfold fixNesting_normalizeNode.
  rewrite (T_bind_Some _ _ _ _ _ (Editor_node_Some _ _ _ Nn)), Hel.
  rewrite bool_decide_eq_false_2 by apply snoc_not_nil.
  destruct Hcase as [(Hn & -> & Hp)|[(H1 & H2 & H3 & -> & Hp)|(Hn & -> & ->)]].
  - rewrite bool_decide_eq_true_2 by done.
    by rewrite (checkParent_wraps e pp k pr cs n "part" _ N Hp).
  - rewrite (bool_decide_eq_false_2 (node_type n = Some "hpart")) by done.
    destruct (decide (node_type n = Some "hscene")) as [Hh|Hh].
    + rewrite bool_decide_eq_true_2 by done.
      by rewrite (checkParent_wraps e pp k pr cs n "scene" _ N Hp).
    + rewrite !bool_decide_eq_false_2 by done.
      by rewrite (checkParent_wraps e pp k pr cs n "scene" _ N Hp).
  - rewrite (bool_decide_eq_false_2 (node_type n = Some "hpart"))
      by (rewrite Hn; discriminate).
    rewrite (bool_decide_eq_false_2 (node_type n = Some "hscene"))
      by (rewrite Hn; discriminate).
    rewrite (bool_decide_eq_false_2 (node_type n = Some "part"))
      by (rewrite Hn; discriminate).
    rewrite (bool_decide_eq_true_2 (node_type n = Some "scene")) by done.
    by rewrite bool_decide_eq_true_2 by (cbn; lia).
Qed.

(** X8.  A node that is not where the format wants it is wrapped, in place,
    in a new container that has a type and nothing else (no id, no
    name): a part header outside a part in a "part", a scene header or a
    paragraph outside a scene in a "scene", and a scene at the top of the
    document in a "part".  The wrapped [normalizeNode] is not run.  This
    holds for a node that begins and ends with a text; for any other
    node (an element without children, say) the rule throws. *)
Theorem misplaced_node_is_wrapped (normalizeNode : path -> T unit)
    e pp k pr cs n ty :
  node_at (children e) pp = Some (Element pr cs) -> cs !! k = Some n ->
  isText n = false ->
  (node_type n = Some "hpart" /\ ty = "part" /\ p_type pr ≠ Some "part") \/
  (node_type n ≠ Some "hpart" /\ node_type n ≠ Some "part" /\
   node_type n ≠ Some "scene" /\ ty = "scene" /\ p_type pr ≠ Some "scene") \/
  (node_type n = Some "scene" /\ ty = "part" /\ pp = []) ->
  if has_start_text n && has_end_text n then
    exists e',
      fixNesting_normalizeNode normalizeNode (pp ++ [k]) e = Some ((), e') /\
      with_children pp (<[k := Element (type_props ty) [n]]> cs) (children e)
        = Some (children e')
  else fixNesting_normalizeNode normalizeNode (pp ++ [k]) e = None.
Proof.
  intros N Hk Hel Hcase.
  assert (node_at (children e) (pp ++ [k]) = Some n) as Nn.
  { unfold node_at. by rewrite (get_snoc _ _ _ _ N). }
  rewrite (misplaced_node_wrapNodes normalizeNode e pp k pr cs n ty
             N Hk Hel Hcase).
  destruct (has_start_text n && has_end_text n) eqn:Htext.
  - apply andb_true_iff in Htext as [Hst Hen].
    destruct (wrapNodes_children e pp k pr cs n (type_props ty) N Hk Hst Hen)
      as (e' & W & R & _).
    by exists e'.
  - unfold wrapNodes.
    rewrite (T_bind_Some _ _ _ _ _ (Editor_node_Some _ _ _ Nn)).
    rewrite bool_decide_eq_false_2 by apply snoc_not_nil.
    unfold mbind at 1, T_bind.
    by rewrite (Editor_range_None _ _ _ Nn Htext).
Qed.

(** ** A header in the middle of a container *)

Lemma children_replaced_up e pp j pr cs bpr bcs bcs' e' :
  node_at (children e) pp = Some (Element pr cs) ->
  cs !! j = Some (Element bpr bcs) ->
  children_replaced e (pp ++ [j]) bpr bcs' e' ->
  children_replaced e pp pr (<[j := Element bpr bcs']> cs) e'.
Proof.
  intros N Hj (W & _ & I).
  destruct (with_children_spec pp (children e) pr cs
              (<[j := Element bpr bcs']> cs) N) as (doc' & W' & N' & U').
  assert (doc' = children e') as ->.
  { unfold with_children, update_children in W.
    rewrite (update_snoc pp j _ _ pr cs (Element bpr bcs) (Element bpr bcs')
               N Hj eq_refl) in W.
    rewrite U' in W. cbn in W. by injection W. }
  by split.
Qed.

Lemma splitNodes_children e gp j gpr gcs bpr bcs i x :
  node_at (children e) gp = Some (Element gpr gcs) ->
  gcs !! j = Some (Element bpr bcs) -> bcs !! i = Some x ->
  has_start_text x = true -> has_end_text (Element bpr bcs) = true ->
  exists e', splitNodes (gp ++ [j; i]) e = Some ((), e') /\
    children_replaced e gp gpr
      (take j gcs ++ Element bpr (take i bcs) :: Element bpr (drop i bcs)
         :: drop (S j) gcs) e'.
Proof.
  intros N Hj Hi Hst Hen.
  assert (node_at (children e) (gp ++ [j]) = Some (Element bpr bcs)) as Nb.
  { unfold node_at. by rewrite (get_snoc _ _ _ _ N). }
  assert (gp ++ [j; i] = (gp ++ [j]) ++ [i]) as Hp by (by rewrite <- app_assoc).
  assert (node_at (children e) (gp ++ [j; i]) = Some x) as Nx.
  { rewrite Hp. unfold node_at. by rewrite (get_snoc _ _ _ _ Nb). }
  unfold splitNodes.
  rewrite (T_bind_Some _ _ _ _ _ (Editor_start_Some _ _ _ Nx Hst)).
  rewrite Hp, (T_bind_Some _ _ _ _ _ (Editor_parent_Some _ _ _ _ Nb)).
  rewrite last_snoc_path.
  rewrite (T_bind_Some (lift_option (Some i)) _ e _ e eq_refl).
  rewrite bool_decide_eq_false_2 by apply snoc_not_nil.
  rewrite (T_bind_Some _ _ _ _ _ (Editor_end_Some _ _ _ Nb Hen)).
  eapply apply_children_replaced; [exact N| |].
  - cbn. rewrite Path_parent_snoc, last_snoc_path. cbn. reflexivity.
  - cbn. rewrite Hj. reflexivity.
Qed.

Lemma Path_transform_move_up (gp : path) j k t :
  Path_transform (gp ++ [j; k]) (move_node (gp ++ [j; k]) (gp ++ [t]))
  = Some (gp ++ [t]).
Proof.
  unfold Path_transform.
  rewrite bool_decide_eq_false_2 by (by destruct gp).
  unfold Path_equals at 1. rewrite bool_decide_eq_false_2.
  2:{ intros H. apply (f_equal length) in H. rewrite !length_app in H.
      cbn in H. lia. }
  unfold Path_equals. rewrite (bool_decide_eq_true_2 (_ = _)) by done.
  rewrite orb_true_r.
  rewrite (bool_decide_eq_false_2 (_ < _)) by (rewrite !length_app; cbn; lia).
  rewrite andb_false_r, drop_all. by rewrite app_nil_r.
Qed.

Lemma moveNodes_up_children e gp j gpr gcs bpr bcs k n :
  node_at (children e) gp = Some (Element gpr gcs) ->
  gcs !! j = Some (Element bpr bcs) -> bcs !! k = Some n ->
  exists e', moveNodes (gp ++ [j; k]) (gp ++ [S j]) e = Some ((), e') /\
    children_replaced e gp gpr
      (take j gcs ++ Element bpr (delete k bcs) :: n :: drop (S j) gcs) e'.
Proof.
  intros N Hj Hk.
  assert (j < length gcs) as Hlt by (by eapply lookup_lt_Some).
  assert (node_at (children e) (gp ++ [j]) = Some (Element bpr bcs)) as Nb.
  { unfold node_at. by rewrite (get_snoc _ _ _ _ N). }
  assert (gp ++ [j; k] = (gp ++ [j]) ++ [k]) as Hp by (by rewrite <- app_assoc).
  assert (node_at (children e) (gp ++ [j; k]) = Some n) as Nn.
  { rewrite Hp. unfold node_at. by rewrite (get_snoc _ _ _ _ Nb). }
  unfold moveNodes.
  rewrite (T_bind_Some _ _ _ _ _ (Editor_node_Some _ _ _ Nn)).
  rewrite bool_decide_eq_false_2 by (by destruct gp).
  eapply apply_children_replaced
    with (F := fun _ => Some (Element gpr
                 (take j gcs ++ Element bpr (delete k bcs) :: n
                    :: drop (S j) gcs))); [exact N| |done].
  cbn [transform].
  assert (Path_isAncestor (gp ++ [j; k]) (gp ++ [S j]) = false) as ->.
  { unfold Path_isAncestor. apply andb_false_iff. left.
    apply bool_decide_eq_false. rewrite !length_app. cbn. lia. }
  unfold node_at in Nn. rewrite Nn. cbn.
  rewrite Path_transform_move_up. cbn.
  rewrite Hp. rewrite Path_parent_snoc, last_snoc_path. cbn.
  rewrite Path_parent_snoc, last_snoc_path. cbn.
  set (gcs1 := <[j := Element bpr (delete k bcs)]> gcs).
  destruct (with_children_spec gp (children e) gpr gcs gcs1 N)
    as (d1 & _ & _ & U1).
  assert (update_children (gp ++ [j]) (fun c => Some (delete k c))
            (root (children e)) = Some (root d1)) as ->.
  { unfold update_children.
    by rewrite (update_snoc gp j _ _ gpr gcs (Element bpr bcs)
                  (Element bpr (delete k bcs)) N Hj eq_refl). }
  cbn. unfold update_children. rewrite (update_after _ _ _ _ _ U1).
  match goal with
  | |- update _ (fun _ => ?X) _ = _ =>
      assert (X = Some (Element gpr
                (take j gcs ++ Element bpr (delete k bcs) :: n
                   :: drop (S j) gcs))) as ->; [|done]
  end.
  unfold insert_at, gcs1.
  assert (S j <= length (<[j:=Element bpr (delete k bcs)]> gcs)) as Hle
    by (rewrite length_insert; lia).
  rewrite bool_decide_eq_true_2 by exact Hle. cbn.
  do 2 f_equal. rewrite (insert_take_drop gcs j) by done.
  assert (length (take j gcs) = j) as Hlen by (rewrite length_take; lia).
  rewrite (take_S_r (take j gcs ++ _) j (Element bpr (delete k bcs)))
    by (by apply list_lookup_middle).
  rewrite take_app_length' by done.
  rewrite <- app_assoc. cbn. do 3 f_equal.
  rewrite cons_middle, app_assoc.
  by rewrite drop_app_length' by (rewrite length_app; cbn; lia).
Qed.

Lemma moveNodes_front_children e gp j gpr gcs bpr bcs k n :
  node_at (children e) gp = Some (Element gpr gcs) ->
  gcs !! j = Some (Element bpr bcs) -> bcs !! k = Some n ->
  exists e', moveNodes (gp ++ [j; k]) (gp ++ [j]) e = Some ((), e') /\
    children_replaced e gp gpr
      (take j gcs ++ n :: Element bpr (delete k bcs) :: drop (S j) gcs) e'.
Proof.
  intros N Hj Hk.
  assert (j < length gcs) as Hlt by (by eapply lookup_lt_Some).
  assert (node_at (children e) (gp ++ [j]) = Some (Element bpr bcs)) as Nb.
  { unfold node_at. by rewrite (get_snoc _ _ _ _ N). }
  assert (gp ++ [j; k] = (gp ++ [j]) ++ [k]) as Hp by (by rewrite <- app_assoc).
  assert (node_at (children e) (gp ++ [j; k]) = Some n) as Nn.
  { rewrite Hp. unfold node_at. by rewrite (get_snoc _ _ _ _ Nb). }
  unfold moveNodes.
  rewrite (T_bind_Some _ _ _ _ _ (Editor_node_Some _ _ _ Nn)).
  rewrite bool_decide_eq_false_2 by (by destruct gp).
  eapply apply_children_replaced
    with (F := fun _ => Some (Element gpr
                 (take j gcs ++ n :: Element bpr (delete k bcs)
                    :: drop (S j) gcs))); [exact N| |done].
  cbn [transform].
  assert (Path_isAncestor (gp ++ [j; k]) (gp ++ [j]) = false) as ->.
  { unfold Path_isAncestor. apply andb_false_iff. left.
    apply bool_decide_eq_false. rewrite !length_app. cbn. lia. }
  unfold node_at in Nn. rewrite Nn. cbn.
  rewrite Path_transform_move_up. cbn.
  rewrite Hp. rewrite Path_parent_snoc, last_snoc_path. cbn.
  rewrite Path_parent_snoc, last_snoc_path. cbn.
  set (gcs1 := <[j := Element bpr (delete k bcs)]> gcs).
  destruct (with_children_spec gp (children e) gpr gcs gcs1 N)
    as (d1 & _ & _ & U1).
  assert (update_children (gp ++ [j]) (fun c => Some (delete k c))
            (root (children e)) = Some (root d1)) as ->.
  { unfold update_children.
    by rewrite (update_snoc gp j _ _ gpr gcs (Element bpr bcs)
                  (Element bpr (delete k bcs)) N Hj eq_refl). }
  cbn. unfold update_children. rewrite (update_after _ _ _ _ _ U1).
  match goal with
  | |- update _ (fun _ => ?X) _ = _ =>
      assert (X = Some (Element gpr
                (take j gcs ++ n :: Element bpr (delete k bcs)
                   :: drop (S j) gcs))) as ->; [|done]
  end.
  unfold insert_at, gcs1.
  assert (j <= length (<[j:=Element bpr (delete k bcs)]> gcs)) as Hle
    by (rewrite length_insert; lia).
  rewrite bool_decide_eq_true_2 by exact Hle. cbn.
  do 2 f_equal. rewrite (insert_take_drop gcs j) by done.
  assert (length (take j gcs) = j) as Hlen by (rewrite length_take; lia).
  rewrite take_app_length' by done.
  by rewrite drop_app_length' by done.
Qed.

Lemma liftNodes_is_lift_one e p n :
  node_at (children e) p = Some n ->
  liftNodes p e
  = lift_one p (Editor_ (children e) (dirty e)
                  (<[length (refs e) := None]> (refs e ++ [Some p]))
                  (id_calls e)).
Proof.
  intros N. unfold liftNodes.
  rewrite (T_bind_Some _ _ _ _ _ (Editor_node_Some _ _ _ N)).
  unfold mbind, T_bind, pathRef, unref. cbn.
  by rewrite list_lookup_middle.
Qed.

Lemma lift_one_children e gp j gpr gcs bpr bcs k n :
  node_at (children e) gp = Some (Element gpr gcs) ->
  gcs !! j = Some (Element bpr bcs) -> bcs !! k = Some n ->
  liftable bpr bcs k = true ->
  exists e', lift_one (gp ++ [j; k]) e = Some ((), e') /\
    children_replaced e gp gpr
      (take j gcs ++ lifted_out bpr bcs k n ++ drop (S j) gcs) e'.
Proof.
  intros N Hj Hk Hlift. unfold lifted_out. rewrite <- app_assoc. cbn [app].
  set (half := EditorSpec.half bpr).
  assert (j < length gcs) as Hjlt by (by eapply lookup_lt_Some).
  assert (k < length bcs) as Hklt by (by eapply lookup_lt_Some).
  assert (node_at (children e) (gp ++ [j]) = Some (Element bpr bcs)) as Nb.
  { unfold node_at. by rewrite (get_snoc _ _ _ _ N). }
  assert (gp ++ [j; k] = (gp ++ [j]) ++ [k]) as Hp by (by rewrite <- app_assoc).
  assert (length (take j gcs) = j) as Hlenj by (rewrite length_take; lia).
  unfold lift_one.
  rewrite bool_decide_eq_false_2 by (rewrite length_app; cbn; lia).
  rewrite Hp, (T_bind_Some _ _ _ _ _ (Editor_parent_Some _ _ _ _ Nb)).
  rewrite last_snoc_path.
  rewrite (T_bind_Some (lift_option (Some k)) _ e _ e eq_refl).
  cbn [children_of]. rewrite Path_next_snoc, <- Hp.
  case_bool_decide as Hone; [|case_bool_decide as Hzero;
                               [|case_bool_decide as Hlast]].
  - (* the only child: it takes the place of its parent *)
    assert (k = 0) as -> by lia.
    destruct bcs as [|x [|??]]; try done. cbn in Hk. injection Hk as ->.
    rewrite (T_bind_Some (lift_option (Some (gp ++ [S j]))) _ e _ e eq_refl).
    destruct (moveNodes_up_children e gp j gpr gcs bpr [n] 0 n N Hj eq_refl)
      as (e1 & M & R1).
    rewrite (T_bind_Some _ _ _ _ _ M). pose proof R1 as (_ & N1 & _).
    destruct (removeNodes_children e1 gp j gpr _ (Element bpr []) N1)
      as (e2 & D & R2).
    { by apply list_lookup_middle. }
    exists e2. split; [done|].
    pose proof (children_replaced_trans _ _ _ _ _ _ _ R1 R2) as R.
    replace (take j gcs ++ half (take 0 [n]) ++ n :: half (drop 1 [n])
               ++ drop (S j) gcs)
      with (delete j (take j gcs ++ Element bpr (delete 0 [n]) :: n
                        :: drop (S j) gcs)); [done|].
    rewrite <- Hlenj at 1. by rewrite delete_middle.
  - (* the first child goes in front of its parent *)
    subst k.
    destruct (moveNodes_front_children e gp j gpr gcs bpr bcs 0 n N Hj Hk)
      as (e1 & M & R1).
    exists e1. split; [done|].
    destruct bcs as [|x [|y bcs]]; try done;
      cbn in Hk; injection Hk as ->; exact R1.
  - (* the last child goes behind its parent *)
    rewrite (T_bind_Some (lift_option (Some (gp ++ [S j]))) _ e _ e eq_refl).
    destruct (moveNodes_up_children e gp j gpr gcs bpr bcs k n N Hj Hk)
      as (e1 & M & R1).
    exists e1. split; [done|].
    assert (drop (S k) bcs = []) as -> by (apply drop_ge; lia).
    assert (delete k bcs = take k bcs) as Hdel.
    { rewrite delete_take_drop, (drop_ge bcs (S k)) by lia.
      by rewrite app_nil_r. }
    rewrite Hdel in R1.
    assert (half (take k bcs) = [Element bpr (take k bcs)]) as ->.
    { unfold half, EditorSpec.half. destruct bcs as [|x bcs]; [done|].
      destruct k; [done|]. done. }
    exact R1.
  - (* a child in the middle: the parent is split behind it first *)
    replace (Path_next (gp ++ [j; k])) with (Some (gp ++ [j; S k]))
      by (rewrite Hp, Path_next_snoc; by rewrite <- app_assoc).
    rewrite (T_bind_Some (lift_option (Some (gp ++ [j; S k]))) _ e _ e eq_refl).
    rewrite (T_bind_Some (lift_option (Some (gp ++ [S j]))) _ e _ e eq_refl).
    assert (is_Some (bcs !! S k)) as [x Hx] by (apply lookup_lt_is_Some; lia).
    unfold liftable in Hlift.
    rewrite (bool_decide_eq_false_2 (k = 0)) in Hlift by done.
    rewrite (bool_decide_eq_false_2 (S k = length bcs)) in Hlift by lia.
    rewrite Hx in Hlift. cbn [orb from_option] in Hlift.
    apply andb_true_iff in Hlift as [Hst Hen].
    destruct (splitNodes_children e gp j gpr gcs bpr bcs (S k) x N Hj Hx
                Hst Hen) as (e1 & S1 & R1).
    rewrite (T_bind_Some _ _ _ _ _ S1). pose proof R1 as (_ & N1 & _).
    destruct (moveNodes_up_children e1 gp j gpr _ bpr (take (S k) bcs) k n N1)
      as (e2 & M & R2).
    { by apply list_lookup_middle. }
    { rewrite lookup_take_lt by lia. done. }
    exists e2. split; [done|].
    pose proof (children_replaced_trans _ _ _ _ _ _ _ R1 R2) as R.
    replace (take j gcs ++ half (take k bcs) ++ n :: half (drop (S k) bcs)
               ++ drop (S j) gcs)
      with (take j (take j gcs ++ Element bpr (take (S k) bcs)
                      :: Element bpr (drop (S k) bcs) :: drop (S j) gcs)
            ++ Element bpr (delete k (take (S k) bcs)) :: n
            :: drop (S j) (take j gcs ++ Element bpr (take (S k) bcs)
                 :: Element bpr (drop (S k) bcs) :: drop (S j) gcs));
      [done|].
    rewrite take_app_length' by done.
    rewrite (cons_middle (Element bpr (take (S k) bcs))), app_assoc.
    rewrite drop_app_length' by (rewrite length_app; cbn; lia).
    assert (delete k (take (S k) bcs) = take k bcs) as ->.
    { rewrite (take_S_r _ _ _ Hk).
      rewrite <- (length_take_le bcs k) at 1 by lia.
      by rewrite delete_middle, app_nil_r. }
    f_equal.
    assert (half (take k bcs) = [Element bpr (take k bcs)]) as ->.
    { unfold half, EditorSpec.half. destruct bcs as [|y bcs]; [done|]. destruct k; done. }
    assert (half (drop (S k) bcs) = [Element bpr (drop (S k) bcs)]) as ->.
    { unfold half, EditorSpec.half. destruct (drop (S k) bcs) eqn:E; [|done].
      apply (f_equal length) in E. rewrite length_drop in E. cbn in E. lia. }
    done.
Qed.

Lemma liftNodes_children e gp j gpr gcs bpr bcs k n :
  node_at (children e) gp = Some (Element gpr gcs) ->
  gcs !! j = Some (Element bpr bcs) -> bcs !! k = Some n ->
  liftable bpr bcs k = true ->
  exists e', liftNodes (gp ++ [j; k]) e = Some ((), e') /\
    children_replaced e gp gpr
      (take j gcs ++ lifted_out bpr bcs k n ++ drop (S j) gcs) e'.
Proof.
  intros N Hj Hk Hlift.
  assert (node_at (children e) (gp ++ [j; k]) = Some n) as Nn.
  { replace (gp ++ [j; k]) with ((gp ++ [j]) ++ [k])
      by (by rewrite <- app_assoc).
    unfold node_at. rewrite (get_snoc _ _ k (Element bpr bcs)); [done|].
    by rewrite (get_snoc _ _ _ _ N). }
  rewrite (liftNodes_is_lift_one _ _ _ Nn).
  set (e0 := Editor_ _ _ _ _).
  destruct (lift_one_children e0 gp j gpr gcs bpr bcs k n N Hj Hk Hlift)
    as (e' & L & R).
  by exists e'.
Qed.

(** Without what the split needs, the lift throws. *)
Lemma liftNodes_throws e gp j gpr gcs bpr bcs k n :
  node_at (children e) gp = Some (Element gpr gcs) ->
  gcs !! j = Some (Element bpr bcs) -> bcs !! k = Some n ->
  liftable bpr bcs k = false ->
  liftNodes (gp ++ [j; k]) e = None.
Proof.
  intros N Hj Hk Hlift.
  assert (k < length bcs) as Hklt by (by eapply lookup_lt_Some).
  assert (gp ++ [j; k] = (gp ++ [j]) ++ [k]) as Hp by (by rewrite <- app_assoc).
  assert (node_at (children e) (gp ++ [j; k]) = Some n) as Nn.
  { rewrite Hp. unfold node_at. rewrite (get_snoc _ _ k (Element bpr bcs)); [done|].
    by rewrite (get_snoc _ _ _ _ N). }
  rewrite (liftNodes_is_lift_one _ _ _ Nn).
  set (e0 := Editor_ _ _ _ _).
  assert (node_at (children e0) (gp ++ [j]) = Some (Element bpr bcs)) as Nb.
  { unfold node_at. by rewrite (get_snoc _ _ _ _ N). }
  unfold liftable in Hlift.
  destruct (decide (k = 0)) as [->|Hk0];
    [by rewrite bool_decide_eq_true_2 in Hlift|].
  destruct (decide (S k = length bcs)) as [Hl|Hl].
  { rewrite (bool_decide_eq_true_2 (S k = _)) in Hlift by done.
    by rewrite orb_true_r in Hlift. }
  rewrite !bool_decide_eq_false_2 in Hlift by done. cbn [orb] in Hlift.
  assert (is_Some (bcs !! S k)) as [x Hx] by (apply lookup_lt_is_Some; lia).
  rewrite Hx in Hlift. cbn [from_option] in Hlift.
  assert (node_at (children e0) (gp ++ [j; S k]) = Some x) as Nx.
  { replace (gp ++ [j; S k]) with ((gp ++ [j]) ++ [S k])
      by (by rewrite <- app_assoc).
    unfold node_at. by rewrite (get_snoc _ _ _ _ Nb). }
  unfold lift_one.
  rewrite bool_decide_eq_false_2 by (rewrite length_app; cbn; lia).
  rewrite Hp, (T_bind_Some _ _ _ _ _ (Editor_parent_Some _ _ _ _ Nb)).
  rewrite last_snoc_path.
  rewrite (T_bind_Some (lift_option (Some k)) _ e0 _ e0 eq_refl).
  cbn [children_of]. rewrite !Path_next_snoc.
  rewrite (bool_decide_eq_false_2 (length bcs = 1)) by lia.
  rewrite (bool_decide_eq_false_2 (k = 0)) by done.
  rewrite (bool_decide_eq_false_2 (k = length bcs - 1)) by lia.
  rewrite (T_bind_Some (lift_option (Some ((gp ++ [j]) ++ [S k]))) _ e0 _ e0
             eq_refl).
  rewrite (T_bind_Some (lift_option (Some (gp ++ [S j]))) _ e0 _ e0 eq_refl).
  assert (splitNodes ((gp ++ [j]) ++ [S k]) e0 = None) as HS.
  { rewrite <- app_assoc. cbn [app]. unfold splitNodes.
    destruct (has_start_text x) eqn:Hst.
    - rewrite (T_bind_Some _ _ _ _ _ (Editor_start_Some _ _ _ Nx Hst)).
      replace (gp ++ [j; S k]) with ((gp ++ [j]) ++ [S k])
        by (by rewrite <- app_assoc).
      rewrite (T_bind_Some _ _ _ _ _ (Editor_parent_Some _ _ _ _ Nb)).
      rewrite last_snoc_path.
      rewrite (T_bind_Some (lift_option (Some (S k))) _ e0 _ e0 eq_refl).
      rewrite bool_decide_eq_false_2 by apply snoc_not_nil.
      cbn [andb] in Hlift.
      unfold mbind at 1, T_bind. unfold Editor_end.
      rewrite (T_bind_Some _ _ _ _ _ (Editor_node_Some _ _ _ Nb)).
      by rewrite Hlift.
    - unfold mbind at 1, T_bind. unfold Editor_start.
      rewrite (T_bind_Some _ _ _ _ _ (Editor_node_Some _ _ _ Nx)).
      by rewrite Hst. }
  unfold mbind at 1, T_bind. by rewrite HS.
Qed.

(** X9.  A part below the top of the document, and a scene below the second
    level, is lifted one level up: it leaves its parent, which is split
    around it.  What was before it stays in the parent; what was after it
    goes into a copy of the parent (same properties, same id) behind it;
    a side without children leaves no container.  The wrapped
    [normalizeNode] is not run.  This holds when the parent is
    [liftable] at the node: the node is the first or the last child of
    its parent, or the next child begins with a text and the parent ends
    with one.  When it is not, the rule throws. *)
Theorem nested_container_is_lifted (normalizeNode : path -> T unit)
    e gp j gpr gcs bpr bcs k n :
  node_at (children e) gp = Some (Element gpr gcs) ->
  gcs !! j = Some (Element bpr bcs) -> bcs !! k = Some n ->
  isText n = false ->
  node_type n = Some "part" \/ (node_type n = Some "scene" /\ gp ≠ []) ->
  if liftable bpr bcs k then
    exists e',
      fixNesting_normalizeNode normalizeNode (gp ++ [j; k]) e
        = Some ((), e') /\
      with_children gp
        (take j gcs ++ lifted_out bpr bcs k n ++ drop (S j) gcs)
        (children e) = Some (children e')
  else fixNesting_normalizeNode normalizeNode (gp ++ [j; k]) e = None.
Proof.
  intros N Hj Hk Hel Hcase.
  assert (node_at (children e) (gp ++ [j; k]) = Some n) as Nn.
  { replace (gp ++ [j; k]) with ((gp ++ [j]) ++ [k])
      by (by rewrite <- app_assoc).
    unfold node_at. rewrite (get_snoc _ _ k (Element bpr bcs)); [done|].
    by rewrite (get_snoc _ _ _ _ N). }
  assert (fixNesting_normalizeNode normalizeNode (gp ++ [j; k]) e
          = liftNodes (gp ++ [j; k]) e) as ->.
  { unfold fixNesting_normalizeNode.
    rewrite (T_bind_Some _ _ _ _ _ (Editor_node_Some _ _ _ Nn)), Hel.
    rewrite bool_decide_eq_false_2 by (by destruct gp).
    destruct Hcase as [Hty|[Hty Hgp]].
    - rewrite (bool_decide_eq_false_2 (node_type n = Some "hpart"))
        by (rewrite Hty; discriminate).
      rewrite (bool_decide_eq_false_2 (node_type n = Some "hscene"))
        by (rewrite Hty; discriminate).
      rewrite (bool_decide_eq_true_2 (node_type n = Some "part")) by done.
      by rewrite bool_decide_eq_true_2 by (rewrite length_app; cbn; lia).
    - rewrite (bool_decide_eq_false_2 (node_type n = Some "hpart"))
        by (rewrite Hty; discriminate).
      rewrite (bool_decide_eq_false_2 (node_type n = Some "hscene"))
        by (rewrite Hty; discriminate).
      rewrite (bool_decide_eq_false_2 (node_type n = Some "part"))
        by (rewrite Hty; discriminate).
      rewrite (bool_decide_eq_true_2 (node_type n = Some "scene")) by done.
      assert (2 < length (gp ++ [j; k])) as Hlen.
      { rewrite length_app. cbn. destruct gp; [done|]. cbn. lia. }
      rewrite bool_decide_eq_false_2 by lia.
      by rewrite bool_decide_eq_true_2 by done. }
  destruct (liftable bpr bcs k) eqn:Hlift.
  - destruct (liftNodes_children e gp j gpr gcs bpr bcs k n N Hj Hk Hlift)
      as (e' & L & W & _).
    by exists e'.
  - by eapply liftNodes_throws.
Qed.

Lemma has_end_text_last pr cs :
  has_end_text (Element pr cs) = from_option has_end_text false (last cs).
Proof.
  cbn [has_end_text]. induction cs as [|c cs IH]; [done|].
  destruct cs as [|c' cs]; [done|]. exact IH.
Qed.

Lemma liftable_insert pr cs k w :
  liftable pr (<[k := w]> cs) k = liftable pr cs k.
Proof.
  unfold liftable. rewrite length_insert.
  destruct (bool_decide (k = 0) || bool_decide (S k = length cs)) eqn:E;
    [done|].
  apply orb_false_iff in E as [E0 El].
  apply bool_decide_eq_false in E0. apply bool_decide_eq_false in El.
  rewrite list_lookup_insert_ne by lia. f_equal.
  rewrite !has_end_text_last, !last_lookup, length_insert.
  by rewrite list_lookup_insert_ne by lia.
Qed.

(** X10.  A header that is not the first child of its container starts a new
    container there: the header is wrapped in a new container of the
    same type (a type and nothing else), which leaves the old one.  The
    children before the header stay; the children after it go into a
    copy of the old container behind the new one (none, no copy).  The
    wrapped [normalizeNode] is not run.  This holds for a header that
    begins and ends with a text, in a container that is [liftable] at
    the header: the header is its last child, or the child after the
    header begins with a text and the container ends with one.  A header
    that does not begin and end with a text makes the rule throw. *)
Theorem header_starts_new_container (normalizeNode : path -> T unit)
    e gp j gpr gcs bpr cs k h hty ty :
  node_at (children e) gp = Some (Element gpr gcs) ->
  gcs !! j = Some (Element bpr cs) -> cs !! S k = Some h ->
  isText h = false -> node_type h = Some hty -> p_type bpr = Some ty ->
  (hty = "hpart" /\ ty = "part") \/ (hty = "hscene" /\ ty = "scene") ->
  (has_start_text h && has_end_text h = false ->
   fixNesting_normalizeNode normalizeNode (gp ++ [j; S k]) e = None) /\
  (has_start_text h = true -> has_end_text h = true ->
   liftable bpr cs (S k) = true ->
  exists e',
    fixNesting_normalizeNode normalizeNode (gp ++ [j; S k]) e
      = Some ((), e') /\
    with_children gp
      (take j gcs
       ++ Element bpr (take (S k) cs) :: Element (type_props ty) [h]
          :: half bpr (drop (S (S k)) cs)
       ++ drop (S j) gcs)
      (children e) = Some (children e')).
Proof.
  intros N Hj Hk Hel Hh Hty Hcase.
  assert (node_at (children e) (gp ++ [j]) = Some (Element bpr cs)) as Nb.
  { unfold node_at. by rewrite (get_snoc _ _ _ _ N). }
  assert (gp ++ [j; S k] = (gp ++ [j]) ++ [S k]) as Hp
    by (by rewrite <- app_assoc).
  assert (node_at (children e) (gp ++ [j; S k]) = Some h) as Nh.
  { rewrite Hp. unfold node_at. by rewrite (get_snoc _ _ _ _ Nb). }
  assert (S k < length cs) as Hlt by (by eapply lookup_lt_Some).
  (* the parent is of the right type *)
  assert (checkParent h (gp ++ [j; S k]) ty e = Some (true, e)) as HP.
  { unfold checkParent.
    rewrite Hp, (T_bind_Some _ _ _ _ _ (Editor_parent_Some _ _ _ _ Nb)).
    by rewrite bool_decide_eq_true_2. }
  (* the rule up to the wrap *)
  assert (fixNesting_normalizeNode normalizeNode (gp ++ [j; S k]) e
          = (b ← checkIsFirst h (gp ++ [j; S k]) ty;
             if negb b then mret ()
             else b ← updateParentName h (gp ++ [j; S k]);
                  if negb b then mret ()
                  else normalizeNode (gp ++ [j; S k])) e) as ->.
  { unfold fixNesting_normalizeNode.
    rewrite (T_bind_Some _ _ _ _ _ (Editor_node_Some _ _ _ Nh)), Hel.
    rewrite bool_decide_eq_false_2 by (by destruct gp).
    destruct Hcase as [[-> ->]|[-> ->]].
    + rewrite bool_decide_eq_true_2 by done.
      by rewrite (T_bind_Some _ _ _ _ _ HP).
    + rewrite bool_decide_eq_false_2 by (rewrite Hh; discriminate).
      rewrite bool_decide_eq_true_2 by done.
      by rewrite (T_bind_Some _ _ _ _ _ HP). }
  split.
  { (* a header without text *)
    intros Htext.
    assert (wrapNodes (type_props ty) (gp ++ [j; S k]) e = None) as HW.
    { unfold wrapNodes.
      rewrite (T_bind_Some _ _ _ _ _ (Editor_node_Some _ _ _ Nh)).
      rewrite bool_decide_eq_false_2 by (by destruct gp).
      unfold mbind at 1, T_bind.
      by rewrite (Editor_range_None _ _ _ Nh Htext). }
    unfold checkIsFirst.
    replace (last (gp ++ [j; S k])) with (Some (S k))
      by (by rewrite Hp, last_snoc_path).
    by do 2 apply T_bind_None. }
  intros Hst Hen Hlift.
  (* the header is wrapped, and the wrapper lifted *)
  set (W := Element (type_props ty) [h]).
  destruct (wrapNodes_children e (gp ++ [j]) (S k) bpr cs h (type_props ty)
              Nb Hk Hst Hen) as (e1 & W1 & R1).
  pose proof (children_replaced_up e gp j gpr gcs bpr cs _ e1 N Hj R1) as R1'.
  pose proof R1' as (_ & N1 & _).
  destruct (liftNodes_children e1 gp j gpr _ bpr (<[S k := W]> cs) (S k) W N1)
    as (e2 & L & R2).
  { apply list_lookup_insert_eq. by eapply lookup_lt_Some. }
  { by apply list_lookup_insert_eq. }
  { by rewrite liftable_insert. }
  pose proof (children_replaced_trans _ _ _ _ _ _ _ R1' R2) as (Wd & _).
  assert (checkIsFirst h (gp ++ [j; S k]) ty e = Some (false, e2)) as HF.
  { unfold checkIsFirst.
    replace (last (gp ++ [j; S k])) with (Some (S k))
      by (by rewrite Hp, last_snoc_path).
    rewrite Hp, (T_bind_Some _ _ _ _ _ W1), <- Hp.
    by rewrite (T_bind_Some _ _ _ _ _ L). }
  exists e2. split.
  - by rewrite (T_bind_Some _ _ _ _ _ HF).
  - rewrite <- Wd. f_equal.
    rewrite take_insert_same, drop_insert_after. f_equal.
    unfold lifted_out. rewrite take_insert_same, drop_insert_after.
    rewrite <- app_assoc. cbn [app]. f_equal.
    unfold half at 1. destruct cs as [|c cs]; [done|]. done.
Qed.

(** ** The first block of the document *)

(** X11.  The rule for the editor node looks at the first block of the first
    top-level node.  Without such a block it throws.  A part header there
    is accepted; any other block that is not a scene is turned into a
    part header, whatever it was, and the wrapped [normalizeNode] is not
    run. *)
Theorem first_block_becomes_part_header (normalizeNode : path -> T unit) e :
  (node_at (children e) [0; 0] = None ->
     fixNesting_normalizeNode normalizeNode [] e = None) /\
  (forall first, node_at (children e) [0; 0] = Some first ->
     node_type first = Some "hpart" ->
     fixNesting_normalizeNode normalizeNode [] e = normalizeNode [] e) /\
  (forall first, node_at (children e) [0; 0] = Some first ->
     node_type first ≠ Some "hpart" -> node_type first ≠ Some "scene" ->
     exists e',
       fixNesting_normalizeNode normalizeNode [] e = Some ((), e') /\
       with_node [0; 0] (retyped "hpart" first) (children e)
         = Some (children e')).
Proof.
  assert (fixNesting_normalizeNode normalizeNode [] e
            = (first ← Editor_node [0; 0];
               if bool_decide (node_type first = Some "hpart")
               then normalizeNode []
               else
                 _ ← (if bool_decide (node_type first = Some "scene")
                      then unwrapNodes [0; 0] else mret ());
                 setNodes (type_props "hpart") [0; 0]) e) as Hroot.
  { unfold fixNesting_normalizeNode.
    by rewrite (T_bind_Some _ _ _ _ _ (Editor_node_Some e [] _ eq_refl)). }
  split; [|split].
  - intros Hnone. rewrite Hroot. unfold mbind, T_bind, Editor_node.
    unfold node_at in Hnone. by rewrite Hnone.
  - intros first N Hh. rewrite Hroot.
    rewrite (T_bind_Some _ _ _ _ _ (Editor_node_Some _ _ _ N)).
    by rewrite bool_decide_eq_true_2.
  - intros first N Hh Hs. rewrite Hroot.
    rewrite (T_bind_Some _ _ _ _ _ (Editor_node_Some _ _ _ N)).
    rewrite !bool_decide_eq_false_2 by done.
    destruct (setNodes_node e [0; 0] first (type_props "hpart") N ltac:(done))
      as (e' & r' & Hset & Hr' & Hc' & _).
    exists e'. split.
    + by rewrite (T_bind_Some (mret ()) _ e () e eq_refl).
    + unfold with_node, retyped. fold (type_props "hpart").
      rewrite Hr'. cbn. by rewrite Hc'.
Qed.

(** ** The first scene of a part *)

(** X12.  A part at the top of the document that starts with its part header
    and has a second child.  When that child is a text or has no
    children, the rule throws.  When the first child of that child is a
    scene header, the wrapped [normalizeNode] runs.  Otherwise the first
    child of that child is turned into a scene header, whatever it was,
    nothing else changes, and the wrapped [normalizeNode] is not run. *)
Theorem first_scene_gets_header (normalizeNode : path -> T unit) e
    j pr h second rest :
  node_at (children e) [j] = Some (Element pr (h :: second :: rest)) ->
  p_type pr = Some "part" ->
  node_type h = Some "hpart" ->
  (children_of second = [] ->
     fixNesting_normalizeNode normalizeNode [j] e = None) /\
  (forall spr first more, second = Element spr (first :: more) ->
     node_type first = Some "hscene" ->
     fixNesting_normalizeNode normalizeNode [j] e = normalizeNode [j] e) /\
  (forall spr first more, second = Element spr (first :: more) ->
     node_type first ≠ Some "hscene" ->
     exists e',
       fixNesting_normalizeNode normalizeNode [j] e = Some ((), e') /\
       with_node [j; 1; 0] (retyped "hscene" first) (children e)
         = Some (children e')).
Proof.
  intros N Hty Hh.
  assert (fixNesting_normalizeNode normalizeNode [j] e
          = (b ← checkFirstHeader second [j; 1] "hscene";
             if negb b then mret () else normalizeNode [j]) e) as Hpart.
  { unfold fixNesting_normalizeNode.
    rewrite (T_bind_Some _ _ _ _ _ (Editor_node_Some _ _ _ N)).
    cbn [isText]. rewrite bool_decide_eq_false_2 by done.
    assert (node_type (Element pr (h :: second :: rest)) = Some "part")
      as Hnt by exact Hty.
    rewrite Hnt.
    rewrite !(bool_decide_eq_false_2 (Some "part" = _)) by done.
    rewrite (bool_decide_eq_true_2 (Some "part" = Some "part")) by done.
    rewrite (bool_decide_eq_false_2 (1 < length [j])) by (cbn; lia).
    assert (checkBlockHeader (Element pr (h :: second :: rest)) [j] "hpart" e
            = Some (true, e)) as Hb.
    { unfold checkBlockHeader. cbn [children_of].
      by rewrite bool_decide_eq_true_2. }
    rewrite (T_bind_Some _ _ _ _ _ Hb). cbn [negb children_of]. done. }
  rewrite Hpart. split; [|split].
  - intros Hnil. unfold mbind, T_bind, checkFirstHeader.
    destruct second as [|spr [|first more]]; done.
  - intros spr first more -> Hf. unfold mbind at 1, T_bind, checkFirstHeader.
    by rewrite bool_decide_eq_true_2.
  - intros spr first more -> Hf.
    assert (node_at (children e) [j; 1; 0] = Some first) as Nf.
    { change [j; 1; 0] with (([j] ++ [1]) ++ [0]).
      rewrite (node_at_snoc _ ([j] ++ [1]) 0 spr (first :: more)); [done|].
      by rewrite (node_at_snoc _ [j] 1 _ _ N). }
    destruct (setNodes_node e [j; 1; 0] first (type_props "hscene") Nf
                ltac:(done)) as (e' & r' & Hset & Hr' & Hc' & _).
    exists e'. split.
    + unfold checkFirstHeader. rewrite bool_decide_eq_false_2 by done.
      unfold mbind at 1, T_bind. unfold mbind at 1, T_bind.
      change ([j; 1] ++ [0]) with [j; 1; 0]. by rewrite Hset.
    + unfold with_node, retyped. fold (type_props "hscene").
      rewrite Hr'. cbn. by rewrite Hc'.
Qed.

(** ** Names follow headers *)

(** X13.  [updateParentName] on a header [h] below the container at [pp]:
    afterwards the container's [name] is the text of the header, and
    nothing else in the document differs.  The result is [true], and the
    editor untouched, exactly when the name was that text already. *)
Theorem updateParentName_sets_name e pp k pr cs h :
  pp ≠ [] ->
  node_at (children e) pp = Some (Element pr cs) ->
  let named := set_props (Element pr cs)
                 (Props None None (Some (Node_string h)) None) in
  exists b e',
    updateParentName h (pp ++ [k]) e = Some (b, e') /\
    with_node pp named (children e) = Some (children e') /\
    node_at (children e') pp = Some named /\
    (b = true <-> p_name pr = Some (Node_string h)) /\
    (b = true -> e' = e).
Proof.
  intros Hpp N named. unfold updateParentName.
  rewrite (T_bind_Some _ _ _ _ _ (Editor_parent_Some _ _ _ _ N)).
  cbn [props_of]. case_bool_decide as Hname.
  - exists true, e. split; [done|].
    assert (named = Element pr cs) as ->.
    { unfold named. cbn. f_equal. destruct pr; cbn in *. by rewrite Hname. }
    split; [|by repeat split].
    unfold with_node. unfold node_at in N. by rewrite (update_same _ _ _ N).
  - destruct (setNodes_node e pp _ (Props None None (Some (Node_string h)) None)
                N Hpp) as (e' & r' & Hset & Hr' & Hc' & _).
    exists false, e'. split; [by rewrite (T_bind_Some _ _ _ _ _ Hset)|].
    fold named in Hr'. split; [|split; [|by split]].
    + unfold with_node. rewrite Hr'. cbn. by rewrite Hc'.
    + destruct (update_get pp _ _ named N) as (r'' & Hr'' & Hg).
      assert (r'' = r') as -> by congruence.
      unfold node_at. rewrite Hc'.
      by rewrite <- (update_root _ _ _ _ Hpp Hr').
Qed.

End RepairFacts.
(** ** Concrete runs of the repairs *)

Section RepairRuns.
Import Slate Normalize EditorSpec BufferFormat SlateSamples.

(** The scene of [tidy_doc] is accepted as it is. *)
Lemma well_formed_accepted_witness :
  fixNesting_normalizeNode base_normalizeNode [0; 1] (Editor_ tidy_doc [] [] 0)
  = base_normalizeNode [0; 1] (Editor_ tidy_doc [] [] 0) /\
  nesting_editor [0; 1] (Editor_ tidy_doc [] [] 0)
  = Some ((), Editor_ tidy_doc [] [] 0).
Proof.
  apply (well_formed_accepted base_normalizeNode (Editor_ tidy_doc [] [] 0)
           [0; 1]); [reflexivity|by eexists].
Defined.

(** The identifiers of [tidy_doc] are in order. *)
Lemma valid_ids_kept_witness :
  assign_ids ids1 (Editor_ tidy_doc [] [] 0)
  = Some ((), Editor_ tidy_doc [] [] 0) /\
  forall p, withIDs_normalizeNode nesting_editor ids1 p
              (Editor_ tidy_doc [] [] 0)
            = nesting_editor p (Editor_ tidy_doc [] [] 0).
Proof.
  apply (valid_ids_kept nesting_editor ids1 (Editor_ tidy_doc [] [] 0)).
  split; apply (bool_decide_unpack _); by vm_compute.
Defined.

Lemma well_formed_is_fixed_point_witness :
  normalize_force (full_editor ids1) (Editor_ tidy_doc [[0]] [] 3)
  = Some ((), Editor_ tidy_doc [] [] 3).
Proof.
  apply (well_formed_is_fixed_point ids1 (Editor_ tidy_doc [[0]] [] 3));
    [reflexivity|].
  split; apply (bool_decide_unpack _); by vm_compute.
Defined.

(** The name of the lone scene becomes "Old". *)
Lemma updateParentName_sets_name_witness :
  exists b e',
    updateParentName (el "hscene" [tx "Old"]) [0; 0]
      (Editor_ lone_scene [] [] 0) = Some (b, e') /\
    node_at (children e') [0]
      = Some (named "scene" "Old"
                [ el "hscene" [tx "Old"]; el "p" [tx "hi"] ]) /\
    b = false.
Proof.
  destruct (updateParentName_sets_name (Editor_ lone_scene [] [] 0) [0] 0
              (Props (Some "scene") None None None)
              [ el "hscene" [tx "Old"]; el "p" [tx "hi"] ]
              (el "hscene" [tx "Old"]) ltac:(done) eq_refl)
    as (b & e' & E & _ & N & Hb & _).
  exists b, e'. split; [exact E|]. split; [exact N|].
  destruct b; [|done]. by destruct (proj1 Hb eq_refl).
Defined.

(** The stray paragraph ends in a new scene. *)
Lemma misplaced_node_is_wrapped_witness :
  exists e',
    fixNesting_normalizeNode base_normalizeNode [0; 1]
      (Editor_ stray_paragraph [] [] 0) = Some ((), e') /\
    with_children [0]
      [ el "hpart" [tx "P"]; el "scene" [ el "p" [tx "x"] ] ]
      stray_paragraph = Some (children e').
Proof.
  refine (misplaced_node_is_wrapped base_normalizeNode
            (Editor_ stray_paragraph [] [] 0) [0] 1
            (Props (Some "part") None (Some "P") None)
            [ el "hpart" [tx "P"]; el "p" [tx "x"] ] (el "p" [tx "x"]) "scene"
            eq_refl eq_refl eq_refl _).
  right. left. by repeat split.
Defined.

(** The part inside the scene comes out of it, and the scene is split
    around it. *)
Lemma nested_container_is_lifted_witness :
  exists e',
    fixNesting_normalizeNode base_normalizeNode [0; 1; 1]
      (Editor_ nested_part [] [] 0) = Some ((), e') /\
    with_children [0]
      [ el "hpart" [tx "P"];
        named "scene" "A" [ el "hscene" [tx "A"] ];
        named "part" "Q" [ el "hpart" [tx "Q"] ];
        named "scene" "A" [ el "p" [tx "a"] ] ]
      nested_part = Some (children e').
Proof.
  refine (nested_container_is_lifted base_normalizeNode
           (Editor_ nested_part [] [] 0) [0] 1
           (Props (Some "part") None (Some "P") None)
           [ el "hpart" [tx "P"];
             named "scene" "A"
               [ el "hscene" [tx "A"];
                 named "part" "Q" [ el "hpart" [tx "Q"] ];
                 el "p" [tx "a"] ] ]
           (Props (Some "scene") None (Some "A") None)
           [ el "hscene" [tx "A"];
             named "part" "Q" [ el "hpart" [tx "Q"] ];
             el "p" [tx "a"] ]
           1 (named "part" "Q" [ el "hpart" [tx "Q"] ])
           eq_refl eq_refl eq_refl eq_refl _).
  by left.
Defined.

(** The second header starts a second scene, which takes the paragraph
    behind it only after further rounds: first the old scene is split. *)
Lemma header_starts_new_container_witness :
  exists e',
    fixNesting_normalizeNode base_normalizeNode [0; 1; 2]
      (Editor_ two_headers [] [] 0) = Some ((), e') /\
    with_children [0]
      [ el "hpart" [tx "P"];
        named "scene" "A" [ el "hscene" [tx "A"]; el "p" [tx "a"] ];
        el "scene" [ el "hscene" [tx "B"] ];
        named "scene" "A" [ el "p" [tx "b"] ] ]
      two_headers = Some (children e').
Proof.
  destruct (header_starts_new_container base_normalizeNode
              (Editor_ two_headers [] [] 0) [0] 1
              (Props (Some "part") None (Some "P") None)
              [ el "hpart" [tx "P"];
                named "scene" "A"
                  [ el "hscene" [tx "A"]; el "p" [tx "a"];
                    el "hscene" [tx "B"]; el "p" [tx "b"] ] ]
              (Props (Some "scene") None (Some "A") None)
              [ el "hscene" [tx "A"]; el "p" [tx "a"];
                el "hscene" [tx "B"]; el "p" [tx "b"] ]
              1 (el "hscene" [tx "B"]) "hscene" "scene"
              eq_refl eq_refl eq_refl eq_refl eq_refl eq_refl
              ltac:(by right)) as [_ H].
  apply H; reflexivity.
Defined.

(** The paragraph that opens the document becomes the part header. *)
Lemma first_block_becomes_part_header_witness :
  exists e',
    fixNesting_normalizeNode base_normalizeNode []
      (Editor_ headless [] [] 0) = Some ((), e') /\
    with_node [0; 0] (el "hpart" [tx "x"]) headless = Some (children e').
Proof.
  destruct (first_block_becomes_part_header base_normalizeNode
              (Editor_ headless [] [] 0)) as (_ & _ & H).
  apply (H (el "p" [tx "x"])); [reflexivity|discriminate..].
Defined.

(** The paragraph that opens the first scene of a part becomes the
    scene header. *)
Lemma first_scene_gets_header_witness :
  exists e',
    fixNesting_normalizeNode base_normalizeNode [0]
      (Editor_ part_scene_p [] [] 0) = Some ((), e') /\
    with_node [0; 1; 0] (el "hscene" [tx "x"]) part_scene_p
      = Some (children e').
Proof.
  destruct (first_scene_gets_header base_normalizeNode
              (Editor_ part_scene_p [] [] 0) 0
              (Props (Some "part") None (Some "A") None)
              (el "hpart" [tx "A"]) (el "scene" [ el "p" [tx "x"] ]) []
              eq_refl eq_refl eq_refl) as (_ & _ & H).
  apply (H (Props (Some "scene") None None None) (el "p" [tx "x"]) []);
    [reflexivity|discriminate].
Defined.

(** What normalization makes of the scene with two headers in the end:
    two scenes, each named after its header. *)
Lemma two_headers_normalized :
  exists e',
    normalize_force nesting_editor (Editor_ two_headers [] [] 0)
      = Some ((), e') /\
    children e'
    = [ named "part" "P"
          [ el "hpart" [tx "P"];
            named "scene" "A" [ el "hscene" [tx "A"]; el "p" [tx "a"] ];
            named "scene" "B" [ el "hscene" [tx "B"]; el "p" [tx "b"] ] ] ].
Proof. eexists. split; [by vm_compute|done]. Qed.

End RepairRuns.
(* ===================================================================== *)
(** * Theorems: more on the Doc <-> Slate bridge                          *)
(* ===================================================================== *)

Section BridgeMore.
Import Bridge BridgeSpec BridgeImage.

Variable wcElem : node -> counts.
Variable nanoid : nat -> string.

(** ** Doc --> Slate *)

(** [f] maps [x] to some [y] related to [x] by [R], generating [cost x]
    identifiers and counting no words. *)
Lemma mapM_costs {A B} (R : A -> B -> Prop) (cost : A -> nat) (f : A -> M B) l :
  Forall (fun x => forall st, exists y st',
            f x st = inr (y, st') /\ R x y /\
            wc_calls st' = wc_calls st /\
            id_calls st' = id_calls st + cost x) l ->
  forall st, exists ys st',
    mapM f l st = inr (ys, st') /\ Forall2 R l ys /\
    wc_calls st' = wc_calls st /\
    id_calls st' = id_calls st + sum_list (map cost l).
Proof.
  induction 1 as [|x l Hx Hl IH]; intros st.
  - exists [], st. repeat split; [constructor|cbn; lia].
  - destruct (Hx st) as (y & st1 & E1 & R1 & W1 & I1).
    destruct (IH st1) as (ys & st2 & E2 & R2 & W2 & I2).
    exists (y :: ys), st2. split; [|split; [|split]].
    + cbn [mapM]. rewrite (bind_inr _ _ _ _ _ E1).
      by rewrite (bind_inr _ _ _ _ _ E2).
    + by constructor.
    + congruence.
    + cbn. lia.
Qed.

Lemma array_map_costs (R : node -> node -> Prop) (cost : node -> nat) f
    (a : array) :
  Forall (fun x => forall st, exists y st',
            f x st = inr (y, st') /\ R x y /\
            wc_calls st' = wc_calls st /\
            id_calls st' = id_calls st + cost x) a.2 ->
  forall st, exists b st',
    array_map f a st = inr (b, st') /\ Forall2 R a.2 b.2 /\
    wc_calls st' = wc_calls st /\
    id_calls st' = id_calls st + sum_list (map cost a.2).
Proof.
  intros H st. destruct (mapM_costs R cost f _ H st) as (ys & st1 & E & HR & W & I).
  eexists (_, ys), _. split; [|split; [|split]].
  - unfold array_map. rewrite (bind_inr _ _ _ _ _ E). reflexivity.
  - done.
  - done.
  - done.
Qed.

#[local] Arguments array_map : simpl never.

Lemma elem2edit_image e st :
  exists y st', elem2edit e st = inr (y, st') /\ image_of_elem e y /\
                wc_calls st' = wc_calls st /\
                id_calls st' = id_calls st + 0.
Proof.
  unfold elem2edit. destruct (decide (n_type e = Some "br")) as [Hbr|Hbr].
  - eexists _, _. split; [reflexivity|]. split; [|cbn; split; [done|lia]].
    right. split; [done|]. by eexists.
  - exists e, st. split; [done|]. split; [by left|]. split; [done|lia].
Qed.

Lemma scene2edit_image sc st :
  has_children sc ->
  exists y st', scene2edit nanoid sc st = inr (y, st') /\ image_of_scene sc y /\
                wc_calls st' = wc_calls st /\
                id_calls st' = id_calls st + 1.
Proof.
  intros [[c es] Hc]. unfold scene2edit, new_header, new_leaf.
  set (st1 := State (S (S (S (S (S (next st)))))) (wc_calls st)
                    (S (id_calls st))).
  destruct (array_map_costs image_of_elem (fun _ => 0) elem2edit (c, es))
    with (st := st1) as ([r ys] & st2 & E & HR & W & I).
  { apply Forall_forall. intros e _ st'. apply elem2edit_image. }
  cbn [snd] in *.
  eexists _, _. split; [|split; [|split]].
  - unfold mbind, M_bind, mret, M_ret, alloc, call_nanoid, defined.
    cbn. rewrite Hc. cbn. fold st1. rewrite E. reflexivity.
  - eexists _, _, _, ys. split; [reflexivity|]. split.
    + by eexists _, _, _, _.
    + unfold node_children. by rewrite Hc.
  - cbn in *. congruence.
  - cbn in *. rewrite I.
    assert (sum_list (map (fun _ : node => 0) es) = 0) as ->
      by (clear; induction es; cbn; lia).
    lia.
Qed.

Lemma part2edit_image p st :
  has_children p -> Forall has_children (node_children p) ->
  exists y st', part2edit nanoid p st = inr (y, st') /\ image_of_part p y /\
                wc_calls st' = wc_calls st /\
                id_calls st' = id_calls st + (1 + length (node_children p)).
Proof.
  intros [[c ss] Hc] Hss. unfold node_children in *. rewrite Hc in *.
  unfold part2edit, new_header, new_leaf.
  set (st1 := State (S (S (S (S (S (next st)))))) (wc_calls st)
                    (S (id_calls st))).
  destruct (array_map_costs image_of_scene (fun _ => 1) (scene2edit nanoid)
              (c, ss)) with (st := st1) as ([r ys] & st2 & E & HR & W & I).
  { eapply Forall_impl; [exact Hss|]. intros sc Hsc st'.
    by apply scene2edit_image. }
  cbn [snd] in *.
  eexists _, _. split; [|split; [|split]].
  - unfold mbind, M_bind, mret, M_ret, alloc, call_nanoid, defined.
    cbn. rewrite Hc. cbn. fold st1. rewrite E. reflexivity.
  - eexists _, _, _, ys. split; [reflexivity|]. split.
    + by eexists _, _, _, _.
    + unfold node_children. by rewrite Hc.
  - cbn in *. congruence.
  - cbn in *. rewrite I.
    assert (sum_list (map (fun _ : node => 1) ss) = length ss) as ->
      by (clear; induction ss; cbn; lia).
    lia.
Qed.

(** X1.  [section2edit] on a section whose parts and scenes have their
    children: it does not throw; the buffer holds one editable part per
    persisted part, each with a new "hpart" header in front of the images
    of its scenes, each of these with a new "hscene" header in front of
    its paragraphs; the paragraphs are the persisted objects themselves,
    except "br" nodes, which are copied as "p".  One identifier is
    generated per header, and no words are counted. *)
Theorem section2edit_image s st :
  complete s ->
  exists buffer st',
    section2edit nanoid s st = inr (buffer, st') /\
    Forall2 image_of_part (section_parts s) buffer.2 /\
    wc_calls st' = wc_calls st /\
    id_calls st' = id_calls st + headers s.
Proof.
  intros [[[a ps] Hparts] Hps]. unfold section_parts, headers in *.
  unfold section_parts in *. rewrite Hparts in *.
  destruct (array_map_costs image_of_part
              (fun p => 1 + length (node_children p)) (part2edit nanoid) (a, ps))
    with (st := st) as (b & st1 & E & HR & W & I).
  { eapply Forall_impl; [exact Hps|]. intros p [Hp Hsc] st'.
    by apply part2edit_image. }
  cbn [snd] in *.
  exists b, st1. split; [|split; [|split]].
  - unfold section2edit. rewrite Hparts. cbn [defined].
    unfold mbind at 1, M_bind, mret at 1, M_ret. exact E.
  - done.
  - cbn in *. congruence.
  - cbn in *. rewrite I. clear. induction ps as [|p ps IH]; cbn; [lia|].
    rewrite length_app. lia.
Qed.

(** ** Slate --> Doc: what was not edited is not rebuilt *)

Lemma bind_inr_inv {A B} (m : M A) (k : A -> M B) st r :
  (m ≫= k) st = inr r -> exists a st1, m st = inr (a, st1) /\ k a st1 = inr r.
Proof.
  unfold mbind, M_bind. destruct (m st) as [|[a st1]]; [done|].
  intros H. by exists a, st1.
Qed.

Lemma mapM_lookup {A B} (f : A -> M B) l st ys st' k x :
  mapM f l st = inr (ys, st') -> l !! k = Some x ->
  exists st1 st2 y, f x st1 = inr (y, st2) /\ ys !! k = Some y.
Proof.
  revert st ys k. induction l as [|z l IH]; intros st ys k E Hk; [done|].
  cbn [mapM] in E.
  apply bind_inr_inv in E as (y & st1 & Ez & E).
  apply bind_inr_inv in E as (ys' & st2 & El & E).
  injection E as <- <-. destruct k as [|k].
  - cbn in Hk. injection Hk as <-. by exists st, st1, y.
  - cbn in Hk. destruct (IH _ _ _ El Hk) as (s1 & s2 & y' & ? & ?).
    by exists s1, s2, y'.
Qed.

(** X2.  Committing a buffer against a persisted section: wherever the buffer
    holds the editable image of a part of the section (any header in
    front of the images of its scenes, each of these any header in front
    of the persisted paragraphs themselves), the committed part at that
    place is the persisted part itself, whatever the other parts of the
    buffer are. *)
Theorem unchanged_part_is_reused s (buffer updated : array) st st' k p y :
  persisted s -> p ∈ section_parts s ->
  edit_of_part p y -> buffer.2 !! k = Some y ->
  array_map (edit2part wcElem (LMap (section2lookup s))) buffer st
    = inr (updated, st') ->
  updated.2 !! k = Some p.
Proof.
  intros Hs Hp Hy Hk E. unfold array_map in E.
  apply bind_inr_inv in E as (ys & st1 & Em & E).
  injection E as <- _. cbn [snd].
  destruct (mapM_lookup _ _ _ _ _ _ _ Em Hk) as (s1 & s2 & r & Er & Hr).
  pose proof Hs as (_ & Hparts & _).
  destruct (edit2part_back wcElem (section2lookup s) p y Hy) with (st := s1)
    as (x & s3 & Ex & -> & _).
  - by eapply Forall_forall in Hparts.
  - apply Forall_forall. intros n Hn. apply section_nodes_indexed; [done|].
    by eapply part_nodes_subset.
  - congruence.
Qed.

End BridgeMore.
(* ===================================================================== *)
(** * Theorems: committing twice                                          *)
(* ===================================================================== *)

Section CommitFacts.
Import Bridge BridgeSpec BridgeImage.

Variable wcElem : node -> counts.

#[local] Arguments array_map : simpl never.

(** ** The objects of a section *)

Lemma bridge_node_ind (P : node -> Prop) :
  (forall n, Forall P (node_children n) -> P n) -> forall n, P n.
Proof.
  intros H. fix IH 1. intros [a ty i nm fo w tx ch]. apply H.
  unfold node_children. cbn. destruct ch as [[c l]|]; [|constructor].
  induction l as [|x l IHl]; constructor; [apply IH|exact IHl].
Qed.

Lemma nodes_below_self n : n ∈ nodes_below n.
Proof. destruct n. cbn. by left. Qed.

Lemma nodes_below_unfold n :
  nodes_below n = n :: concat (map nodes_below (node_children n)).
Proof. destruct n as [a ty i nm fo w tx [[c l]|]]; reflexivity. Qed.

Lemma nodes_below_child p x y :
  x ∈ nodes_below p -> y ∈ node_children x -> y ∈ nodes_below p.
Proof.
  revert x y. induction p as [p IH] using bridge_node_ind. intros x y Hx Hy.
  rewrite nodes_below_unfold in *. apply elem_of_cons in Hx as [->|Hx].
  - right. apply list_elem_of_In, in_concat. exists (nodes_below y). split.
    + apply in_map. by apply list_elem_of_In.
    + apply list_elem_of_In, nodes_below_self.
  - right. apply list_elem_of_In, in_concat in Hx as (l & Hl & Hx).
    apply in_map_iff in Hl as (c & <- & Hc).
    apply list_elem_of_In, in_concat. exists (nodes_below c). split.
    + by apply in_map.
    + apply list_elem_of_In. eapply Forall_forall in IH;
        [|by apply list_elem_of_In]. eapply IH; [|exact Hy].
      by apply list_elem_of_In.
Qed.

Lemma heap_nodes_child s x y :
  x ∈ heap_nodes s -> y ∈ node_children x -> y ∈ heap_nodes s.
Proof.
  unfold heap_nodes. intros Hx Hy.
  apply list_elem_of_In, in_concat in Hx as (l & Hl & Hx).
  apply in_map_iff in Hl as (p & <- & Hp).
  apply list_elem_of_In, in_concat. exists (nodes_below p).
  split; [by apply in_map|].
  apply list_elem_of_In. eapply nodes_below_child; [|exact Hy].
  by apply list_elem_of_In.
Qed.

Lemma section_nodes_heap s x : x ∈ section_nodes s -> x ∈ heap_nodes s.
Proof.
  unfold section_nodes, heap_nodes, section_parts.
  destruct (s_parts s) as [[a ps]|]; [|by intros ?%elem_of_nil].
  intros Hx. apply list_elem_of_In, in_concat in Hx as (l & Hl & Hx).
  apply in_map_iff in Hl as (p & <- & Hp).
  assert (forall z, z ∈ nodes_below p ->
                    z ∈ concat (map nodes_below ps)) as Hin.
  { intros z Hz. apply list_elem_of_In, in_concat. exists (nodes_below p).
    split; [by apply in_map|by apply list_elem_of_In]. }
  apply Hin. apply list_elem_of_In in Hx. unfold part_nodes in Hx.
  apply elem_of_cons in Hx as [->|Hx]; [apply nodes_below_self|].
  apply list_elem_of_In, in_concat in Hx as (l & Hl & Hx).
  apply in_map_iff in Hl as (sc & <- & Hsc).
  apply list_elem_of_In in Hx, Hsc. unfold scene_nodes in Hx.
  assert (sc ∈ nodes_below p) as Hscp
    by (eapply nodes_below_child; [apply nodes_below_self|done]).
  apply elem_of_cons in Hx as [->|Hx]; [done|].
  by eapply nodes_below_child.
Qed.

(** The lookup of a section holds nodes of the section under their own
    ids. *)
Lemma foldl_insert_from (l : list node) (m : gmap (option string) node) k v :
  foldl (fun m n => <[n_id n := n]> m) m l !! k = Some v ->
  (v ∈ l /\ n_id v = k) \/ m !! k = Some v.
Proof.
  revert m. induction l as [|x l IH]; intros m H; [by right|].
  cbn [foldl] in H. apply IH in H as [[Hin Hid]|H].
  - left. split; [by right|done].
  - destruct (decide (n_id x = k)) as [<-|Hne].
    + rewrite lookup_insert_eq in H. injection H as <-. left. split; [by left|done].
    + rewrite lookup_insert_ne in H by done. by right.
Qed.

Lemma section2lookup_from s k v :
  section2lookup s !! k = Some v -> v ∈ section_nodes s /\ n_id v = k.
Proof.
  unfold section2lookup. intros [H|H]%foldl_insert_from; [done|].
  by rewrite lookup_empty in H.
Qed.

Lemma NoDup_addr_inj (l : list node) x y :
  NoDup (map n_addr l) -> x ∈ l -> y ∈ l -> n_addr x = n_addr y -> x = y.
Proof.
  intros Hnd [i Hi]%list_elem_of_lookup_1 [j Hj]%list_elem_of_lookup_1 Heq.
  assert (map n_addr l !! i = Some (n_addr x)) as Hi'
    by (by rewrite list_lookup_fmap, Hi).
  assert (map n_addr l !! j = Some (n_addr x)) as Hj'
    by (rewrite list_lookup_fmap, Hj; cbn; by rewrite Heq).
  pose proof (NoDup_lookup _ _ _ _ Hnd Hi' Hj'). subst j. congruence.
Qed.

(** What the comparison of two arrays with different addresses says
    about their elements. *)
Lemma forallb_imap_addr (l l' : list node) k :
  forallb (fun '(index, elem) =>
     match l' !! index with
     | Some x => same_node elem x
     | None => false
     end) (imap (fun i => pair (k + i)) l) = true ->
  forall i x, l !! i = Some x ->
    exists y, l' !! (k + i) = Some y /\ n_addr x = n_addr y.
Proof.
  revert k. induction l as [|z l IH]; intros k H i x Hi; [done|].
  cbn [imap forallb] in H. apply andb_true_iff in H as [Hz H].
  destruct i as [|i].
  - cbn in Hi. injection Hi as <-.
    destruct (l' !! (k + 0)) as [y|]; [|done].
    exists y. split; [done|]. by apply bool_decide_eq_true in Hz.
  - cbn in Hi. replace (k + S i) with (S k + i) by lia.
    apply (IH (S k)); [|done].
    erewrite imap_ext; [exact H|]. intros j w _. cbn. f_equal. lia.
Qed.

(** ** Comparisons do not depend on the state *)

Lemma cmpList_pure a b st v st' :
  cmpList a b st = inr (v, st') ->
  st' = st /\ forall st2, cmpList a b st2 = inr (v, st2).
Proof.
  destruct a as [a|], b as [b|]; cbn; try done; intros [= <- <-]; by split.
Qed.

Lemma cmpNamedGroup_pure e orig st v st' :
  cmpNamedGroup e orig st = inr (v, st') ->
  st' = st /\ forall st2, cmpNamedGroup e orig st2 = inr (v, st2).
Proof.
  unfold cmpNamedGroup, cmpChildren.
  destruct (cmpTypeName e orig && bool_decide (n_folded e = n_folded orig)).
  - apply cmpList_pure.
  - intros [= <- <-]. by split.
Qed.

Lemma first_text_pure n st v st' :
  first_text n st = inr (v, st') ->
  st' = st /\ forall st2, first_text n st2 = inr (v, st2).
Proof.
  unfold first_text. destruct (n_children n) as [[c [|x l]]|]; cbn; try done.
  intros [= <- <-]. by split.
Qed.

(** ** What a commit returns for one node *)

Lemma rebuild_copy e st :
  rebuild wcElem e st
  = inr (copy_of wcElem e (next st),
         State (S (next st)) (S (wc_calls st)) (id_calls st)).
Proof. reflexivity. Qed.

(** Either the lookup entry passes the checks, which it then does
    whatever the state, or the node is rebuilt. *)
Lemma checkClean_cases e m st r st' :
  checkClean wcElem e (LMap m) st = inr (r, st') ->
  (m !! n_id e = Some r /\ st' = st /\ reused_for wcElem e r) \/
  rebuild wcElem e st = inr (r, st').
Proof.
  unfold checkClean. destruct (m !! n_id e) as [orig|] eqn:Hm; [|by right].
  destruct (same_node e orig) eqn:Hs.
  { intros [= <- <-]. left. repeat split.
    intros m2 st2 H2. unfold checkClean. by rewrite H2, Hs. }
  destruct (cmpType e orig) eqn:Hc; [|by right].
  destruct (decide (n_type e = Some "part" \/ n_type e = Some "scene"))
    as [Hg|Hg].
  { intros H. apply bind_inr_inv in H as (b & s1 & Hb & H).
    apply cmpNamedGroup_pure in Hb as [-> Hb].
    destruct b; [|by right]. injection H as <- <-. left. repeat split.
    intros m2 st2 H2. unfold checkClean. rewrite H2, Hs, Hc.
    rewrite decide_True by done. by rewrite (bind_inr _ _ _ _ _ (Hb st2)). }
  destruct (decide (n_type e = Some "br")) as [Hbr|Hbr].
  { intros [= <- <-]. left. repeat split.
    intros m2 st2 H2. unfold checkClean. rewrite H2, Hs, Hc.
    rewrite decide_False by done. by rewrite decide_True. }
  intros H. apply bind_inr_inv in H as (t1 & s1 & H1 & H).
  apply first_text_pure in H1 as [-> H1].
  apply bind_inr_inv in H as (t2 & s2 & H2 & H).
  apply first_text_pure in H2 as [-> H2].
  case_bool_decide as Ht; [|by right]. injection H as <- <-.
  left. repeat split.
  intros m2 st2 Hm2. unfold checkClean. rewrite Hm2, Hs, Hc.
  rewrite !decide_False by done.
  rewrite (bind_inr _ _ _ _ _ (H1 st2)), (bind_inr _ _ _ _ _ (H2 st2)).
  by rewrite bool_decide_eq_true_2.
Qed.

(** A copy passes the checks against the node it is a copy of. *)
Lemma copy_reused_for e a :
  node_children e ≠ [] -> reused_for wcElem e (copy_of wcElem e a).
Proof.
  intros Hne m st Hm. unfold checkClean. rewrite Hm.
  destruct (same_node e _); [done|].
  unfold cmpType. cbn [copy_of n_id n_type].
  rewrite !bool_decide_eq_true_2 by done. cbn [andb].
  destruct (decide (n_type e = Some "part" \/ n_type e = Some "scene")).
  { unfold cmpNamedGroup, cmpTypeName, cmpType, cmpChildren.
    cbn [copy_of n_id n_type n_name n_folded n_children].
    rewrite !bool_decide_eq_true_2 by done. cbn [andb].
    unfold node_children in Hne.
    destruct (n_children e) as [[c l]|]; [|done].
    unfold mbind, M_bind, cmpList, mret, M_ret.
    by rewrite bool_decide_eq_true_2. }
  destruct (decide (n_type e = Some "br")); [done|].
  unfold first_text. cbn [copy_of n_children].
  unfold node_children in Hne. destruct (n_children e) as [[c [|x l]]|]; try done.
  cbn. unfold mbind, M_bind, mret, M_ret. cbn.
  by rewrite bool_decide_eq_true_2.
Qed.

(** The node a commit returns for a paragraph is returned again by any
    later commit whose lookup has it. *)
Lemma checkClean_reused_for e m st r st' :
  node_children e ≠ [] ->
  checkClean wcElem e (LMap m) st = inr (r, st') ->
  reused_for wcElem e r.
Proof.
  intros Hne H. apply checkClean_cases in H as [(_ & _ & H)|H]; [done|].
  rewrite rebuild_copy in H. injection H as <- _. by apply copy_reused_for.
Qed.

(** ** Parts and scenes *)

(** The object [edit2part] and [edit2scene] build before [checkClean]. *)
Lemma group_copy_reused ty y a1 c1 a2 c2 ps a :
  ty = "part" \/ ty = "scene" ->
  reused_for wcElem
    (Node a2 (Some ty) (n_id y) (n_name y) (n_folded y) None None
          (Some (c2, ps)))
    (copy_of wcElem
       (Node a1 (Some ty) (n_id y) (n_name y) (n_folded y) None None
             (Some (c1, ps))) a).
Proof.
  intros Hty m st Hm. unfold checkClean. cbn [n_id] in *. rewrite Hm.
  destruct (same_node _ _); [done|].
  unfold cmpType. cbn [copy_of n_id n_type].
  rewrite !bool_decide_eq_true_2 by done. cbn [andb].
  rewrite decide_True by (destruct Hty as [-> | ->]; auto).
  unfold cmpNamedGroup, cmpTypeName, cmpType, cmpChildren.
  cbn [copy_of n_id n_type n_name n_folded n_children].
  rewrite !bool_decide_eq_true_2 by done. cbn [andb].
  by rewrite (bind_inr _ _ _ _ _ (cmpList_same_elems _ _ _ _)).
Qed.

Lemma group_reused ty y a1 c1 ps m st r st' :
  ty = "part" \/ ty = "scene" ->
  checkClean wcElem
    (Node a1 (Some ty) (n_id y) (n_name y) (n_folded y) None None
          (Some (c1, ps))) (LMap m) st = inr (r, st') ->
  (forall orig, m !! n_id y = Some orig ->
     n_addr orig ≠ a1 /\ array_addr orig ≠ Some c1) ->
  forall a2 c2,
    reused_for wcElem
      (Node a2 (Some ty) (n_id y) (n_name y) (n_folded y) None None
            (Some (c2, ps))) r.
Proof.
  intros Hty H Hfresh a2 c2.
  assert (rebuild wcElem
            (Node a1 (Some ty) (n_id y) (n_name y) (n_folded y) None None
                  (Some (c1, ps))) st = inr (r, st') ->
          reused_for wcElem
            (Node a2 (Some ty) (n_id y) (n_name y) (n_folded y) None None
                  (Some (c2, ps))) r) as Hcopy.
  { rewrite rebuild_copy. intros [= <- _]. by apply group_copy_reused. }
  unfold checkClean in H. cbn [n_id] in H.
  destruct (m !! n_id y) as [orig|] eqn:Hm; [|by apply Hcopy].
  destruct (Hfresh orig eq_refl) as [Ha Hc].
  unfold same_node in H. cbn [n_addr n_type] in H.
  rewrite bool_decide_eq_false_2 in H by (intros Heq; by apply Ha).
  destruct (cmpType _ orig) eqn:Hct; [|by apply Hcopy].
  rewrite decide_True in H by (destruct Hty as [-> | ->]; auto).
  apply bind_inr_inv in H as (b & s1 & Hb & H).
  pose proof (cmpNamedGroup_pure _ _ _ _ _ Hb) as [-> _].
  destruct b; [|by apply Hcopy]. injection H as <- <-.
  (* the persisted node passed the checks *)
  unfold cmpNamedGroup, cmpChildren in Hb. cbn [n_folded n_children] in Hb.
  destruct (cmpTypeName _ orig && bool_decide (n_folded y = n_folded orig))
    eqn:Hn; [|done].
  destruct (n_children orig) as [[co os]|] eqn:Hco; [|done].
  cbn in Hb. injection Hb as Hb.
  rewrite bool_decide_eq_false_2 in Hb
    by (intros ->; apply Hc; unfold array_addr; by rewrite Hco).
  intros m2 st2 Hm2. unfold checkClean. cbn [n_id] in *. rewrite Hm2.
  destruct (same_node _ orig); [done|].
  assert (cmpType
            (Node a2 (Some ty) (n_id y) (n_name y) (n_folded y) None None
                  (Some (c2, ps))) orig = true) as -> by exact Hct.
  cbn [n_type]. rewrite decide_True by (destruct Hty as [-> | ->]; auto).
  unfold cmpNamedGroup, cmpChildren. cbn [n_folded n_children].
  assert (cmpTypeName
            (Node a2 (Some ty) (n_id y) (n_name y) (n_folded y) None None
                  (Some (c2, ps))) orig
          && bool_decide (n_folded y = n_folded orig) = true) as -> by exact Hn.
  rewrite Hco. unfold mbind, M_bind, cmpList, mret, M_ret. cbn [fst snd].
  rewrite Hb. by destruct (bool_decide (c2 = co)).
Qed.

(** ** The first commit *)

Section FirstCommit.

Variable s : section.
Variable N : addr.
Hypothesis Hold :
  Forall (fun x => n_addr x < N /\ forall c, array_addr x = Some c -> c < N)
         (heap_nodes s).
Hypothesis Hinj : NoDup (map n_addr (heap_nodes s)).

Lemma checkClean_first e st r st' :
  N <= next st ->
  checkClean wcElem e (LMap (section2lookup s)) st = inr (r, st') ->
  N <= next st' /\ n_id r = n_id e /\ settled N s r.
Proof.
  intros HN H. apply checkClean_cases in H as [(Hm & -> & _)|H].
  - apply section2lookup_from in Hm as [Hin Hid].
    split; [done|]. split; [done|]. left. by apply section_nodes_heap.
  - rewrite rebuild_copy in H. injection H as <- <-. cbn.
    split; [lia|]. split; [done|]. by right.
Qed.

Lemma paragraphs_first es :
  forall st rs st',
    N <= next st ->
    mapM (fun p => edit2paragraph wcElem p (LMap (section2lookup s))) es st
      = inr (rs, st') ->
    N <= next st' /\
    Forall2 (fun e r => n_id r = n_id e /\ settled N s r /\
                        (node_children e ≠ [] -> reused_for wcElem e r)) es rs.
Proof.
  induction es as [|e es IH]; intros st rs st' HN H.
  - injection H as <- <-. by split.
  - cbn [mapM] in H. apply bind_inr_inv in H as (r & st1 & Hr & H).
    apply bind_inr_inv in H as (rs' & st2 & Hrs & H). injection H as <- <-.
    unfold edit2paragraph in Hr.
    destruct (checkClean_first _ _ _ _ HN Hr) as (HN1 & Hid & Hset).
    destruct (IH _ _ _ HN1 Hrs) as [HN2 HF].
    split; [done|]. constructor; [|done].
    split; [done|]. split; [done|]. intros He.
    by eapply checkClean_reused_for.
Qed.

Lemma group_first ty y a1 c1 ps st r st' :
  ty = "part" \/ ty = "scene" ->
  N <= a1 -> N <= c1 -> N <= next st -> Forall (settled N s) ps ->
  checkClean wcElem
    (Node a1 (Some ty) (n_id y) (n_name y) (n_folded y) None None
          (Some (c1, ps))) (LMap (section2lookup s)) st = inr (r, st') ->
  N <= next st' /\ n_id r = n_id y /\ settled N s r /\
  node_children r = ps /\
  forall a2 c2,
    reused_for wcElem
      (Node a2 (Some ty) (n_id y) (n_name y) (n_folded y) None None
            (Some (c2, ps))) r.
Proof.
  intros Hty Ha Hc HN Hps H.
  destruct (checkClean_first _ _ _ _ HN H) as (HN' & Hid & Hset).
  assert (forall orig, section2lookup s !! n_id y = Some orig ->
            orig ∈ heap_nodes s /\ n_addr orig ≠ a1 /\
            array_addr orig ≠ Some c1) as Hfresh.
  { intros orig Hm. apply section2lookup_from in Hm as [Hin _].
    apply section_nodes_heap in Hin. split; [done|].
    eapply Forall_forall in Hold; [|exact Hin]. destruct Hold as [H1 H2].
    split; [lia|]. intros Hc'. apply H2 in Hc'. lia. }
  split; [done|]. split; [done|]. split; [done|]. split.
  2:{ eapply group_reused; [done|exact H|]. intros orig Hm.
      by destruct (Hfresh orig Hm) as (_ & ? & ?). }
  pose proof H as H'. apply checkClean_cases in H' as [(Hm & -> & _)|H'].
  2:{ rewrite rebuild_copy in H'. by injection H' as <- _. }
  (* the persisted node passed the checks: its children are [ps] *)
  cbn [n_id] in Hm. destruct (Hfresh r Hm) as (Hin & Hra & Hrc).
  unfold checkClean in H. cbn [n_id] in H. rewrite Hm in H.
  unfold same_node in H. cbn [n_addr n_type] in H.
  rewrite bool_decide_eq_false_2 in H by (intros Heq; by apply Hra).
  assert (forall e, rebuild wcElem e st ≠ inr (r, st)) as Hnot.
  { intros e. rewrite rebuild_copy. intros [= _ Hst]. destruct st.
    cbn in Hst. injection Hst. lia. }
  destruct (cmpType _ r); [|by apply Hnot in H].
  rewrite decide_True in H by (destruct Hty as [-> | ->]; auto).
  apply bind_inr_inv in H as (b & s1 & Hb & H).
  pose proof (cmpNamedGroup_pure _ _ _ _ _ Hb) as [-> _].
  destruct b; [|by apply Hnot in H].
  unfold cmpNamedGroup, cmpChildren in Hb. cbn [n_folded n_children] in Hb.
  destruct (cmpTypeName _ r && bool_decide (n_folded y = n_folded r));
    [|done].
  unfold node_children.
  destruct (n_children r) as [[co os]|] eqn:Hco; [|done].
  cbn in Hb. injection Hb as Hb.
  rewrite bool_decide_eq_false_2 in Hb
    by (intros ->; apply Hrc; unfold array_addr; by rewrite Hco).
  case_bool_decide as Hlen; [|done]. cbn [negb] in Hb.
  pose proof (forallb_imap_addr ps os 0 Hb) as Hpt.
  symmetry. apply list_eq_same_length with (length os); [done|done|].
  intros i x z Hi Hx Hz.
  destruct (Hpt i x Hx) as (z' & Hz' & Haddr). cbn in Hz'.
  assert (z' = z) as -> by congruence.
  assert (z ∈ heap_nodes s) as Hzin.
  { eapply heap_nodes_child; [exact Hin|]. unfold node_children.
    rewrite Hco. by eapply list_elem_of_lookup_2. }
  eapply Forall_lookup_1 in Hps; [|exact Hx]. destruct Hps as [Hxin|Hx'].
  - by eapply NoDup_addr_inj.
  - eapply Forall_forall in Hold; [|exact Hzin]. destruct Hold as [H1 _]. lia.
Qed.

(** What the first commit returns for a scene: a settled node with the
    id of the scene, over the nodes returned for its paragraphs, which
    any later commit returns again. *)
Lemma edit2scene_first y st r st' :
  N <= next st ->
  edit2scene wcElem (LMap (section2lookup s)) y st = inr (r, st') ->
  N <= next st' /\ settled N s r /\
  map n_id (scene_nodes r) = map n_id (buffer_scene_nodes y) /\
  (Forall (fun e => node_children e ≠ []) (tail (node_children y)) ->
   replays (edit2scene wcElem) (scene_nodes r) y r).
Proof.
  intros HN H. unfold edit2scene in H.
  destruct (n_children y) as [[c cs]|] eqn:Hc; [|done]. cbn [defined] in H.
  apply bind_inr_inv in H as (ch & s0 & Hd & H). injection Hd as <- <-.
  apply bind_inr_inv in H as (pg & s1 & Hr & H). injection Hr as <- <-.
  apply bind_inr_inv in H as (a & s2 & Ha & H). injection Ha as <- <-.
  apply bind_inr_inv in H as (ps & s3 & Hps & H).
  unfold array_map in Hps.
  apply bind_inr_inv in Hps as (rs & s4 & Hrs & Hps).
  apply bind_inr_inv in Hps as (c1 & s5 & Hc1 & Hps).
  injection Hc1 as <- <-. injection Hps as <- <-. cbn [snd] in Hrs.
  eapply paragraphs_first in Hrs as [HN4 HF]; [|cbn; lia].
  eapply (group_first "scene") in H as (HN' & Hid & Hset & Hch & Hre);
    [|by right|cbn; lia|cbn; lia|cbn; lia|].
  2:{ eapply Forall2_Forall_r; [exact HF|].
      apply Forall_forall. by intros ? _ ? (_ & ? & _). }
  split; [done|]. split; [done|]. split.
  { unfold scene_nodes, buffer_scene_nodes, node_children at 2.
    rewrite Hch, Hc. cbn. f_equal; [done|].
    clear -HF. induction HF as [|e x es xs (Hx & _) _ IH]; [done|].
    cbn. by rewrite Hx, IH. }
  intros Hne m2 Hidx st2. unfold node_children in Hne. rewrite Hc in Hne.
  unfold scene_nodes in Hidx. rewrite Hch in Hidx.
  apply Forall_cons in Hidx as [Hr Hidx].
  assert (forall stx, mapM (fun p => edit2paragraph wcElem p (LMap m2))
                        (tail cs) stx = inr (rs, stx)) as Hmap.
  { clear -HF Hidx Hne. induction HF as [|e x es xs (Hx & _ & Hre) _ IH];
      intros stx; [done|].
    apply Forall_cons in Hidx as [Hxi Hidx].
    apply Forall_cons in Hne as [He Hne]. cbn [mapM].
    unfold edit2paragraph at 1.
    rewrite (bind_inr _ _ _ _ _ (Hre He m2 stx ltac:(by rewrite <- Hx))).
    by rewrite (bind_inr _ _ _ _ _ (IH Hne Hidx stx)). }
  assert (forall x stx,
            array_map (fun p => edit2paragraph wcElem p (LMap m2))
              (x, tail cs) stx
            = inr ((next stx, rs),
                   State (S (next stx)) (wc_calls stx) (id_calls stx)))
    as Harr.
  { intros x stx. unfold array_map. cbn [snd].
    by rewrite (bind_inr _ _ _ _ _ (Hmap stx)). }
  eexists. unfold edit2scene. rewrite Hc.
  rewrite (bind_inr (defined _ (Some (c, cs))) _ st2 _ _ eq_refl).
  rewrite (bind_inr (array_rest (c, cs)) _ st2 _ _ eq_refl).
  rewrite (bind_inr alloc _ _ _ _ eq_refl).
  rewrite (bind_inr _ _ _ _ _ (Harr _ _)).
  rewrite (Hre _ _ m2 _ ltac:(cbn [n_id]; by rewrite <- Hid)).
  split; [reflexivity|done].
Qed.

Lemma scenes_first scs :
  forall st rs st',
    N <= next st ->
    mapM (edit2scene wcElem (LMap (section2lookup s))) scs st = inr (rs, st') ->
    N <= next st' /\
    Forall2 (fun sc r =>
               settled N s r /\
               map n_id (scene_nodes r) = map n_id (buffer_scene_nodes sc) /\
               (Forall (fun e => node_children e ≠ [])
                       (tail (node_children sc)) ->
                replays (edit2scene wcElem) (scene_nodes r) sc r)) scs rs.
Proof.
  induction scs as [|sc scs IH]; intros st rs st' HN H.
  - injection H as <- <-. by split.
  - cbn [mapM] in H. apply bind_inr_inv in H as (r & st1 & Hr & H).
    apply bind_inr_inv in H as (rs' & st2 & Hrs & H). injection H as <- <-.
    destruct (edit2scene_first _ _ _ _ HN Hr) as (HN1 & Hset & Hid & Hre).
    destruct (IH _ _ _ HN1 Hrs) as [HN2 HF].
    split; [done|]. by constructor.
Qed.

Lemma edit2part_first y st r st' :
  N <= next st ->
  edit2part wcElem (LMap (section2lookup s)) y st = inr (r, st') ->
  N <= next st' /\ settled N s r /\
  map n_id (part_nodes r) = map n_id (buffer_part_nodes y) /\
  (Forall (fun sc => Forall (fun e => node_children e ≠ [])
                            (tail (node_children sc)))
          (tail (node_children y)) ->
   replays (edit2part wcElem) (part_nodes r) y r).
Proof.
  intros HN H. unfold edit2part in H.
  destruct (n_children y) as [[c cs]|] eqn:Hc; [|done]. cbn [defined] in H.
  assert (node_children y = cs) as Hy by (unfold node_children; by rewrite Hc).
  apply bind_inr_inv in H as (ch & s0 & Hd & H). injection Hd as <- <-.
  apply bind_inr_inv in H as (pg & s1 & Hr & H). injection Hr as <- <-.
  apply bind_inr_inv in H as (a & s2 & Ha & H). injection Ha as <- <-.
  apply bind_inr_inv in H as (ps & s3 & Hps & H).
  unfold array_map in Hps.
  apply bind_inr_inv in Hps as (rs & s4 & Hrs & Hps).
  apply bind_inr_inv in Hps as (c1 & s5 & Hc1 & Hps).
  injection Hc1 as <- <-. injection Hps as <- <-. cbn [snd] in Hrs.
  eapply scenes_first in Hrs as [HN4 HF]; [|cbn; lia].
  eapply (group_first "part") in H as (HN' & Hid & Hset & Hch & Hre);
    [|by left|cbn; lia|cbn; lia|cbn; lia|].
  2:{ eapply Forall2_Forall_r; [exact HF|].
      apply Forall_forall. by intros ? _ ? (? & _). }
  split; [done|]. split; [done|]. split.
  { unfold part_nodes, buffer_part_nodes. rewrite Hy, Hch.
    cbn [map]. f_equal; [done|].
    clear -HF. induction HF as [|e x es xs (_ & Hx & _) _ IH]; [done|].
    cbn [map concat]. by rewrite !map_app, Hx, IH. }
  intros Hne m2 Hidx st2. rewrite Hy in Hne.
  unfold part_nodes in Hidx. rewrite Hch in Hidx.
  apply Forall_cons in Hidx as [Hr Hidx].
  assert (forall stx, exists stx',
            mapM (edit2scene wcElem (LMap m2)) (tail cs) stx = inr (rs, stx')
            /\ wc_calls stx' = wc_calls stx) as Hmap.
  { clear -HF Hidx Hne. induction HF as [|e x es xs (_ & _ & Hre) _ IH];
      intros stx; [by eexists|].
    cbn [map concat] in Hidx. apply Forall_app in Hidx as [Hxi Hidx].
    apply Forall_cons in Hne as [He Hne].
    destruct (Hre He m2 Hxi stx) as (st1 & E1 & W1).
    destruct (IH Hne Hidx st1) as (st2 & E2 & W2).
    exists st2. split; [|congruence]. cbn [mapM].
    rewrite (bind_inr _ _ _ _ _ E1). by rewrite (bind_inr _ _ _ _ _ E2). }
  unfold edit2part. rewrite Hc.
  rewrite (bind_inr (defined _ (Some (c, cs))) _ st2 _ _ eq_refl).
  rewrite (bind_inr (array_rest (c, cs)) _ st2 _ _ eq_refl).
  rewrite (bind_inr alloc _ _ _ _ eq_refl).
  destruct (Hmap (State (S (S (next st2))) (wc_calls st2) (id_calls st2)))
    as (st3 & E & W).
  assert (array_map (edit2scene wcElem (LMap m2)) (next st2, tail cs)
            (State (S (S (next st2))) (wc_calls st2) (id_calls st2))
          = inr ((next st3, rs),
                 State (S (next st3)) (wc_calls st3) (id_calls st3))) as Harr.
  { unfold array_map. cbn [snd]. by rewrite (bind_inr _ _ _ _ _ E). }
  eexists. rewrite (bind_inr _ _ _ _ _ Harr).
  rewrite (Hre _ _ m2 _ ltac:(cbn [n_id]; by rewrite <- Hid)).
  split; [reflexivity|done].
Qed.

Lemma parts_first ys :
  forall st rs st',
    N <= next st ->
    mapM (edit2part wcElem (LMap (section2lookup s))) ys st = inr (rs, st') ->
    N <= next st' /\
    Forall2 (fun y r =>
               settled N s r /\
               map n_id (part_nodes r) = map n_id (buffer_part_nodes y) /\
               (Forall (fun sc => Forall (fun e => node_children e ≠ [])
                                         (tail (node_children sc)))
                       (tail (node_children y)) ->
                replays (edit2part wcElem) (part_nodes r) y r)) ys rs.
Proof.
  induction ys as [|y ys IH]; intros st rs st' HN H.
  - injection H as <- <-. by split.
  - cbn [mapM] in H. apply bind_inr_inv in H as (r & st1 & Hr & H).
    apply bind_inr_inv in H as (rs' & st2 & Hrs & H). injection H as <- <-.
    destruct (edit2part_first _ _ _ _ HN Hr) as (HN1 & Hset & Hid & Hre).
    destruct (IH _ _ _ HN1 Hrs) as [HN2 HF].
    split; [done|]. by constructor.
Qed.

(** *** A node that is kept has cost nothing *)

Lemma settled_old r : settled N s r -> n_addr r < N -> r ∈ heap_nodes s.
Proof. intros [H|H] Hlt; [done|lia]. Qed.

Lemma heap_old r : r ∈ heap_nodes s -> n_addr r < N.
Proof. intros H. eapply Forall_forall in Hold; [|exact H]. by destruct Hold. Qed.

Lemma checkClean_quiet e m st r st' :
  N <= next st ->
  checkClean wcElem e (LMap m) st = inr (r, st') ->
  n_addr r < N -> st' = st.
Proof.
  intros HN H Hr. apply checkClean_cases in H as [(_ & -> & _)|H]; [done|].
  rewrite rebuild_copy in H. injection H as <- _. cbn in Hr. lia.
Qed.

Lemma paragraphs_quiet es :
  forall st rs st',
    N <= next st ->
    mapM (fun p => edit2paragraph wcElem p (LMap (section2lookup s))) es st
      = inr (rs, st') ->
    Forall (fun r => n_addr r < N) rs -> st' = st.
Proof.
  induction es as [|e es IH]; intros st rs st' HN H Hrs.
  - by injection H as <- <-.
  - cbn [mapM] in H. apply bind_inr_inv in H as (r & st1 & Hr & H).
    apply bind_inr_inv in H as (rs' & st2 & Hrs' & H). injection H as <- <-.
    apply Forall_cons in Hrs as [Hr1 Hrs]. unfold edit2paragraph in Hr.
    pose proof (checkClean_quiet _ _ _ _ _ HN Hr Hr1) as ->.
    by eapply IH.
Qed.

Lemma children_old r :
  r ∈ heap_nodes s -> Forall (fun x => n_addr x < N) (node_children r).
Proof.
  intros Hr. apply Forall_forall. intros x Hx.
  apply heap_old. by eapply heap_nodes_child.
Qed.

Lemma edit2scene_quiet y st r st' :
  N <= next st ->
  edit2scene wcElem (LMap (section2lookup s)) y st = inr (r, st') ->
  n_addr r < N -> wc_calls st' = wc_calls st.
Proof.
  intros HN H Hold'. unfold edit2scene in H.
  destruct (n_children y) as [[c cs]|] eqn:Hc; [|done]. cbn [defined] in H.
  apply bind_inr_inv in H as (ch & s0 & Hd & H). injection Hd as <- <-.
  apply bind_inr_inv in H as (pg & s1 & Hr & H). injection Hr as <- <-.
  apply bind_inr_inv in H as (a & s2 & Ha & H). injection Ha as <- <-.
  apply bind_inr_inv in H as (ps & s3 & Hps & H).
  unfold array_map in Hps.
  apply bind_inr_inv in Hps as (rs & s4 & Hrs & Hps).
  apply bind_inr_inv in Hps as (c1 & s5 & Hc1 & Hps).
  injection Hc1 as <- <-. injection Hps as <- <-. cbn [snd] in Hrs.
  pose proof Hrs as Hrs'.
  eapply paragraphs_first in Hrs' as [HN4 HF]; [|cbn; lia].
  pose proof H as H'.
  eapply (group_first "scene") in H' as (HN' & Hid & Hset & Hch & Hre);
    [|by right|cbn; lia|cbn; lia|cbn; lia|].
  2:{ eapply Forall2_Forall_r; [exact HF|].
      apply Forall_forall. by intros ? _ ? (_ & ? & _). }
  apply checkClean_quiet in H; [|cbn; lia|done]. subst st'.
  apply paragraphs_quiet in Hrs; [|cbn; lia|].
  2:{ rewrite <- Hch. by apply children_old, settled_old. }
  subst s4. done.
Qed.

Lemma scenes_quiet scs :
  forall st rs st',
    N <= next st ->
    mapM (edit2scene wcElem (LMap (section2lookup s))) scs st = inr (rs, st') ->
    Forall (fun r => n_addr r < N) rs -> wc_calls st' = wc_calls st.
Proof.
  induction scs as [|sc scs IH]; intros st rs st' HN H Hrs.
  - by injection H as <- <-.
  - cbn [mapM] in H. apply bind_inr_inv in H as (r & st1 & Hr & H).
    apply bind_inr_inv in H as (rs' & st2 & Hrs' & H). injection H as <- <-.
    apply Forall_cons in Hrs as [Hr1 Hrs].
    destruct (edit2scene_first _ _ _ _ HN Hr) as (HN1 & _).
    rewrite (IH _ _ _ HN1 Hrs' Hrs).
    by eapply edit2scene_quiet.
Qed.

Lemma edit2part_quiet y st r st' :
  N <= next st ->
  edit2part wcElem (LMap (section2lookup s)) y st = inr (r, st') ->
  n_addr r < N -> wc_calls st' = wc_calls st.
Proof.
  intros HN H Hold'. unfold edit2part in H.
  destruct (n_children y) as [[c cs]|] eqn:Hc; [|done]. cbn [defined] in H.
  apply bind_inr_inv in H as (ch & s0 & Hd & H). injection Hd as <- <-.
  apply bind_inr_inv in H as (pg & s1 & Hr & H). injection Hr as <- <-.
  apply bind_inr_inv in H as (a & s2 & Ha & H). injection Ha as <- <-.
  apply bind_inr_inv in H as (ps & s3 & Hps & H).
  unfold array_map in Hps.
  apply bind_inr_inv in Hps as (rs & s4 & Hrs & Hps).
  apply bind_inr_inv in Hps as (c1 & s5 & Hc1 & Hps).
  injection Hc1 as <- <-. injection Hps as <- <-. cbn [snd] in Hrs.
  pose proof Hrs as Hrs'.
  eapply scenes_first in Hrs' as [HN4 HF]; [|cbn; lia].
  pose proof H as H'.
  eapply (group_first "part") in H' as (HN' & Hid & Hset & Hch & Hre);
    [|by left|cbn; lia|cbn; lia|cbn; lia|].
  2:{ eapply Forall2_Forall_r; [exact HF|].
      apply Forall_forall. by intros ? _ ? (? & _). }
  apply checkClean_quiet in H; [|cbn; lia|done]. subst st'.
  eapply scenes_quiet in Hrs; [|cbn; lia|].
  2:{ rewrite <- Hch. by apply children_old, settled_old. }
  done.
Qed.

Lemma parts_quiet ys :
  forall st rs st',
    N <= next st ->
    mapM (edit2part wcElem (LMap (section2lookup s))) ys st = inr (rs, st') ->
    Forall (fun r => n_addr r < N) rs -> wc_calls st' = wc_calls st.
Proof.
  induction ys as [|y ys IH]; intros st rs st' HN H Hrs.
  - by injection H as <- <-.
  - cbn [mapM] in H. apply bind_inr_inv in H as (r & st1 & Hr & H).
    apply bind_inr_inv in H as (rs' & st2 & Hrs' & H). injection H as <- <-.
    apply Forall_cons in Hrs as [Hr1 Hrs].
    destruct (edit2part_first _ _ _ _ HN Hr) as (HN1 & _).
    rewrite (IH _ _ _ HN1 Hrs' Hrs).
    by eapply edit2part_quiet.
Qed.

End FirstCommit.

(** *** Word counts only grow *)

Lemma checkClean_mono e lk st r st' :
  checkClean wcElem e lk st = inr (r, st') -> wc_calls st <= wc_calls st'.
Proof.
  destruct lk as [m|]; [|done]. intros H.
  apply checkClean_cases in H as [(_ & -> & _)|H]; [done|].
  rewrite rebuild_copy in H. injection H as _ <-. cbn. lia.
Qed.

Lemma mapM_mono {A B} (f : A -> M B) l :
  (forall x st r st', f x st = inr (r, st') -> wc_calls st <= wc_calls st') ->
  forall st rs st', mapM f l st = inr (rs, st') -> wc_calls st <= wc_calls st'.
Proof.
  intros Hf. induction l as [|x l IH]; intros st rs st' H.
  - by injection H as <- <-.
  - cbn [mapM] in H. apply bind_inr_inv in H as (r & st1 & Hr & H).
    apply bind_inr_inv in H as (rs' & st2 & Hrs & H). injection H as <- <-.
    apply Hf in Hr. apply IH in Hrs. lia.
Qed.

Lemma array_map_mono (f : node -> M node) (a : array) :
  (forall x st r st', f x st = inr (r, st') -> wc_calls st <= wc_calls st') ->
  forall st rs st',
    array_map f a st = inr (rs, st') -> wc_calls st <= wc_calls st'.
Proof.
  intros Hf st rs st' H. unfold array_map in H.
  apply bind_inr_inv in H as (ys & s1 & Hys & H).
  apply bind_inr_inv in H as (c & s2 & Hc & H).
  injection Hc as <- <-. injection H as <- <-.
  by apply (mapM_mono _ _ Hf) in Hys.
Qed.

Lemma edit2scene_mono lk y st r st' :
  edit2scene wcElem lk y st = inr (r, st') -> wc_calls st <= wc_calls st'.
Proof.
  intros H. unfold edit2scene in H.
  apply bind_inr_inv in H as (ch & s0 & Hd & H).
  destruct (n_children y) as [ch'|]; [|done]. injection Hd as <- <-.
  apply bind_inr_inv in H as (pg & s1 & Hr & H). injection Hr as <- <-.
  apply bind_inr_inv in H as (a & s2 & Ha & H). injection Ha as <- <-.
  apply bind_inr_inv in H as (ps & s3 & Hps & H).
  apply array_map_mono in Hps.
  2:{ intros ????. unfold edit2paragraph. apply checkClean_mono. }
  apply checkClean_mono in H. cbn in *. lia.
Qed.

Lemma edit2part_mono lk y st r st' :
  edit2part wcElem lk y st = inr (r, st') -> wc_calls st <= wc_calls st'.
Proof.
  intros H. unfold edit2part in H.
  apply bind_inr_inv in H as (ch & s0 & Hd & H).
  destruct (n_children y) as [ch'|]; [|done]. injection Hd as <- <-.
  apply bind_inr_inv in H as (pg & s1 & Hr & H). injection Hr as <- <-.
  apply bind_inr_inv in H as (a & s2 & Ha & H). injection Ha as <- <-.
  apply bind_inr_inv in H as (ps & s3 & Hps & H).
  apply array_map_mono in Hps; [|apply edit2scene_mono].
  apply checkClean_mono in H. cbn in *. lia.
Qed.

Lemma committable_paragraphs (b : array) :
  Forall (fun e => node_children e ≠ []) (buffer_paragraphs b) ->
  Forall (fun y =>
            Forall (fun sc => Forall (fun e => node_children e ≠ [])
                                     (tail (node_children sc)))
                   (tail (node_children y))) b.2.
Proof.
  unfold buffer_paragraphs. intros H.
  apply Forall_forall. intros y Hy.
  apply Forall_forall. intros sc Hsc.
  apply Forall_forall. intros e He.
  rewrite Forall_forall in H. apply H.
  apply list_elem_of_In, in_concat.
  exists (concat (map (fun sc => tail (node_children sc))
                      (tail (node_children y)))).
  split.
  { apply in_map_iff. exists y. split; [done|by apply list_elem_of_In]. }
  apply in_concat. exists (tail (node_children sc)).
  split; [|by apply list_elem_of_In].
  apply in_map_iff. exists sc. split; [done|by apply list_elem_of_In].
Qed.

Lemma parts_ids (ys rs : list node) (R : node -> node -> Prop) :
  (forall y r, R y r -> map n_id (part_nodes r) = map n_id (buffer_part_nodes y)) ->
  Forall2 R ys rs ->
  map n_id (concat (map part_nodes rs))
  = map n_id (concat (map buffer_part_nodes ys)).
Proof.
  intros HR. induction 1 as [|y r ys rs Hyr _ IH]; [done|].
  cbn [map concat]. by rewrite !map_app, (HR _ _ Hyr), IH.
Qed.

Lemma parts_replay (ys rs : list node) m :
  Forall2 (fun y r => replays (edit2part wcElem) (part_nodes r) y r) ys rs ->
  Forall (fun x => m !! n_id x = Some x) (concat (map part_nodes rs)) ->
  forall st, exists st',
    mapM (edit2part wcElem (LMap m)) ys st = inr (rs, st')
    /\ wc_calls st' = wc_calls st.
Proof.
  induction 1 as [|y r ys rs Hyr _ IH]; intros Hidx st; [by eexists|].
  cbn [map concat] in Hidx. apply Forall_app in Hidx as [Hr Hidx].
  destruct (Hyr m Hr st) as (st1 & E1 & W1).
  destruct (IH Hidx st1) as (st2 & E2 & W2).
  exists st2. split; [|congruence]. cbn [mapM].
  rewrite (bind_inr _ _ _ _ _ E1). by rewrite (bind_inr _ _ _ _ _ E2).
Qed.

(** X3.  A commit either returns the section object it was given, and has then
    counted no words, because no node below it was rebuilt; or it returns
    a new section object over the committed parts, and has counted words.
    So a node that is rebuilt always makes its scene, its part and the
    section new objects. *)
Theorem commit_keeps_or_rebuilds s (buffer : array) st s1 st1 :
  allocated st s ->
  updateSection wcElem buffer (JObj s) st = inr (s1, st1) ->
  (s1 = s /\ wc_calls st1 = wc_calls st) \/
  (next st <= s_addr s1 /\ wc_calls st < wc_calls st1 /\
   exists c rs,
     s_parts s1 = Some (c, rs) /\ length rs = length buffer.2).
Proof.
  intros (Harr & Hold & Hinj) H.
  unfold updateSection in H.
  apply bind_inr_inv in H as (updated & sA & Hup & H).
  pose proof (array_map_mono _ _ (edit2part_mono _) _ _ _ Hup) as Hmono.
  unfold array_map in Hup.
  apply bind_inr_inv in Hup as (rs & sB & Hrs & Hup).
  apply bind_inr_inv in Hup as (c1 & sC & Hc1 & Hup).
  injection Hc1 as <- <-. injection Hup as <- <-.
  destruct (parts_first s (next st) Hold Hinj _ _ _ _ (le_n _) Hrs)
    as [HN HF].
  apply bind_inr_inv in H as (isClean & sD & Hcl & H).
  apply cmpList_pure in Hcl as [-> Hcl]. specialize (Hcl st).
  destruct isClean.
  - left. injection H as <- <-. split; [done|]. cbn [wc_calls].
    eapply (parts_quiet s (next st) Hold Hinj); [|exact Hrs|]; [done|].
    destruct (s_parts s) as [[b ps]|] eqn:Hps; [|done].
    cbn in Hcl. injection Hcl as Hcl.
    rewrite bool_decide_eq_false_2 in Hcl.
    2:{ specialize (Harr b eq_refl). lia. }
    case_bool_decide as Hlen; [|done]. cbn [negb] in Hcl.
    pose proof (forallb_imap_addr rs ps 0 Hcl) as Hsame.
    apply Forall_forall. intros r [i Hr]%list_elem_of_lookup_1.
    destruct (Hsame i r Hr) as (p & Hp & ->). cbn in Hp.
    apply (heap_old s (next st) Hold).
    unfold heap_nodes, section_parts. rewrite Hps.
    apply list_elem_of_In, in_concat. exists (nodes_below p).
    split; [apply in_map, list_elem_of_In; by eapply list_elem_of_lookup_2|].
    apply list_elem_of_In, nodes_below_self.
  - right.
    apply bind_inr_inv in H as (a & s2 & Ha & H). injection Ha as <- <-.
    apply bind_inr_inv in H as (t & s3 & Ht & H). injection Ht as <- <-.
    apply bind_inr_inv in H as (w & s4 & Hw & H).
    injection Hw as <- <-. injection H as <- <-. cbn in *.
    split; [lia|]. split; [lia|].
    eexists _, _. split; [reflexivity|].
    symmetry. by eapply Forall2_length.
Qed.

(** X4.  Committing the same buffer a second time, now against the section the
    first commit returned, returns that very section object again and
    counts no words: every node the first commit built or kept is found
    under its id and recognised as unchanged. *)
Theorem second_commit_changes_nothing s (buffer : array) st s1 st1 :
  allocated st s ->
  committable buffer ->
  updateSection wcElem buffer (JObj s) st = inr (s1, st1) ->
  forall st2, exists st3,
    updateSection wcElem buffer (JObj s1) st2 = inr (s1, st3) /\
    wc_calls st3 = wc_calls st2.
Proof.
  intros (Harr & Hold & Hinj) [Hnd Hne] H st2.
  apply committable_paragraphs in Hne.
  unfold updateSection in H.
  apply bind_inr_inv in H as (updated & sA & Hup & H).
  unfold array_map in Hup.
  apply bind_inr_inv in Hup as (rs & sB & Hrs & Hup).
  apply bind_inr_inv in Hup as (c1 & sC & Hc1 & Hup).
  injection Hc1 as <- <-. injection Hup as <- <-.
  destruct (parts_first s (next st) Hold Hinj _ _ _ _ (le_n _) Hrs)
    as [HN HF].
  assert (exists x, s_parts s1 = Some (x, rs)) as [x Hs1].
  { apply bind_inr_inv in H as (isClean & sD & Hcl & H).
    destruct isClean.
    - injection H as <- <-.
      destruct (s_parts s) as [[b ps]|] eqn:Hps; [|done].
      exists b. f_equal. f_equal.
      cbn in Hcl. injection Hcl as Hcl _.
      rewrite bool_decide_eq_false_2 in Hcl.
      2:{ specialize (Harr b eq_refl). lia. }
      case_bool_decide as Hlen; [|done]. cbn [negb] in Hcl.
      pose proof (forallb_imap_addr rs ps 0 Hcl) as Hsame.
      apply (list_eq_same_length _ _ (length rs)); [done|done|].
      intros i p r _ Hp Hr.
      destruct (Hsame i r Hr) as (p' & Hp' & Haddr).
      cbn in Hp'. rewrite Hp in Hp'. injection Hp' as <-.
      assert (p ∈ heap_nodes s) as Hpin.
      { unfold heap_nodes, section_parts. rewrite Hps.
        apply list_elem_of_In, in_concat. exists (nodes_below p).
        split; [apply in_map, list_elem_of_In; by eapply list_elem_of_lookup_2|].
        apply list_elem_of_In, nodes_below_self. }
      pose proof (Forall2_lookup_r _ _ _ _ _ HF Hr) as (y & _ & Hset & _).
      destruct Hset as [Hin|Hnew].
      + symmetry. by apply (NoDup_addr_inj _ _ _ Hinj Hin Hpin).
      + rewrite Forall_forall in Hold. destruct (Hold _ Hpin) as [Hlt _]. lia.
    - apply bind_inr_inv in H as (a & s2 & Ha & H). injection Ha as <- <-.
      apply bind_inr_inv in H as (t & s3 & Ht & H). injection Ht as <- <-.
      apply bind_inr_inv in H as (w & s4 & Hw & H).
      injection H as <- <-. by eexists. }
  assert (section_nodes s1 = concat (map part_nodes rs)) as Hnodes
      by (unfold section_nodes; by rewrite Hs1).
  assert (NoDup (map n_id (section_nodes s1))) as Hnd1.
  { rewrite Hnodes.
    rewrite (parts_ids buffer.2 rs _ (fun _ _ H => proj1 (proj2 H)) HF).
    exact Hnd. }
  assert (Forall (fun x => section2lookup s1 !! n_id x = Some x)
                 (concat (map part_nodes rs))) as Hidx.
  { rewrite <- Hnodes. apply Forall_forall. intros z Hz.
    by apply foldl_insert_lookup. }
  assert (Forall2 (fun y r => replays (edit2part wcElem) (part_nodes r) y r)
                  buffer.2 rs) as Hre.
  { clear -HF Hne. induction HF as [|y r ys rs (_ & _ & H) _ IH];
      [constructor|].
    apply Forall_cons in Hne as [Hy Hne]. constructor; [by apply H|by apply IH]. }
  destruct (parts_replay buffer.2 rs (section2lookup s1)
              Hre
              Hidx st2) as (st3 & E & W).
  eexists. unfold updateSection, array_map.
  rewrite (bind_inr _ _ _ _ _ (bind_inr _ _ _ _ _ E)).
  cbn [mbind M_bind alloc mret M_ret].
  rewrite Hs1, (bind_inr _ _ _ _ _ (cmpList_same_elems _ _ _ _)).
  split; [reflexivity|done].
Qed.

End CommitFacts.

(** ** Concrete runs of the image and of the commit *)

Section CommitRuns.
Import Bridge BridgeSpec BridgeImage BridgeSamples.

(** The editable image of a section with one part, one scene and one
    paragraph. *)
Lemma section2edit_image_witness :
  exists buffer st',
    section2edit ids0 (section_of "p") st0 = inr (buffer, st') /\
    Forall2 image_of_part (section_parts (section_of "p")) buffer.2 /\
    wc_calls st' = wc_calls st0 /\
    id_calls st' = id_calls st0 + headers (section_of "p").
Proof.
  apply (section2edit_image ids0 (section_of "p") st0).
  split; [by eexists|].
  repeat first [apply Forall_cons; split | apply Forall_nil
               | split | by eexists].
Defined.

(** A second part is typed after the image of the persisted one: the
    persisted part is committed as the object it is. *)
Lemma unchanged_part_is_reused_witness :
  exists updated st',
    array_map (edit2part wc0 (LMap (section2lookup (section_of "p"))))
      edited_buffer st1 = inr (updated, st') /\
    updated.2 !! 0 = Some (group 6 "part" "p1" "Part" 7 [
                             group 4 "scene" "s1" "Scene" 5 [
                               para 2 "p" "e1" 3 [leaf 1 "hello"] ] ]).
Proof.
  eexists _, _. split; [vm_compute; reflexivity|].
  eapply (unchanged_part_is_reused wc0 (section_of "p") edited_buffer _ st1 _ 0
           _ image_p1).
  - split; [by eexists|]. split.
    + repeat first [apply Forall_cons; split | apply Forall_nil
                   | split | by eexists | reflexivity].
    + apply (bool_decide_unpack _). by vm_compute.
  - by left.
  - eexists _, _, _, _. split; [reflexivity|].
    constructor; [|constructor]. by eexists _, _, _.
  - reflexivity.
  - vm_compute. reflexivity.
Defined.

Lemma section_of_allocated ty : allocated st1 (section_of ty).
Proof.
  split; [|split].
  - intros c [= <-]. cbn. lia.
  - unfold heap_nodes, section_parts. cbn.
    repeat (constructor;
            [split; [cbn; lia|intros c Hc; cbn in Hc; try discriminate;
                              injection Hc as <-; lia]|]).
    constructor.
  - apply (bool_decide_unpack _). by vm_compute.
Qed.

(** The buffer with the typed part: the section comes back as a new
    object, or nothing was counted. *)
Lemma commit_keeps_or_rebuilds_witness :
  exists s1 st',
    updateSection wc0 edited_buffer (JObj (section_of "p")) st1 = inr (s1, st') /\
    ((s1 = section_of "p" /\ wc_calls st' = wc_calls st1) \/
     (next st1 <= s_addr s1 /\ wc_calls st1 < wc_calls st' /\
      exists c rs, s_parts s1 = Some (c, rs) /\
                   length rs = length edited_buffer.2)).
Proof.
  eexists _, _. split; [vm_compute; reflexivity|].
  eapply (commit_keeps_or_rebuilds wc0 (section_of "p") edited_buffer st1 _ _).
  - apply section_of_allocated.
  - vm_compute. reflexivity.
Defined.

(** The buffer with the typed part is committed twice. *)
Lemma second_commit_changes_nothing_witness :
  exists s1 st',
    updateSection wc0 edited_buffer (JObj (section_of "p")) st1 = inr (s1, st') /\
    forall st2, exists st3,
      updateSection wc0 edited_buffer (JObj s1) st2 = inr (s1, st3) /\
      wc_calls st3 = wc_calls st2.
Proof.
  eexists _, _. split; [vm_compute; reflexivity|].
  eapply (second_commit_changes_nothing wc0 (section_of "p") edited_buffer st1 _ _).
  - apply section_of_allocated.
  - split.
    + apply (bool_decide_unpack _). by vm_compute.
    + unfold buffer_paragraphs. cbn. by repeat constructor.
  - vm_compute. reflexivity.
Defined.

End CommitRuns.
